(** * HubMap tiling core: planner, weighting kernel, accumulator, folds, sampler

    A shallow embedding of
      - [code/data/dataset.py]     ([InferenceDataset.get_positions],
        [InMemoryTrainDataset.update_fold_nb], [accept_tile_policy],
        the proposal loop of [__getitem__]) and
      - [code/training/predict.py] ([get_tile_weighting],
        [predict_entire_mask], [predict_entire_mask_downscaled]).

    Conventions.  Python integers are [Z].  A numpy / torch 2D array is a
    list of rows.  Floating-point numbers are read in two ways, and each
    statement says which one it uses: as the exact rationals they denote
    ([Q], no rounding of intermediate results, explicit roundings of the
    source kept), or as IEEE binary16 values ([spec_float] at precision 11,
    the [torch.half] of the accumulator buffers).  Exceptions are [None]. *)

From Stdlib Require Import ZArith QArith Qround Qminmax Qpower Qabs Lia Lqa SpecFloat String.
From stdpp Require Import base option list list_numbers.

Local Open Scope Z_scope.

(** 2D arrays as lists of rows. *)
Abbreviation matrix A := (list (list A)).

(** ** Python and numpy primitives *)

Module Py.

(** [int(a / b)] on integers: true division, then truncation toward zero.
    [ZeroDivisionError] when [b] is zero. *)
Definition int_truediv (a b : Z) : option Z :=
  if decide (b = 0) then None else Some (Z.quot a b).

(** Ceiling of [a / b]. *)
Definition cdiv (a b : Z) : Z := - ((- a) `div` b).

(** [np.arange(start, stop, step)] on integers: [ceil((stop - start) / step)]
    entries [start + i * step]; a zero step is an error. *)
Definition arange (start stop step : Z) : option (list Z) :=
  if decide (step = 0) then None
  else Some ((λ i, start + i * step) <$> seqZ 0 (cdiv (stop - start) step)).

(** Normalisation of one slice bound against an axis of length [len]:
    a negative bound counts from the end, and bounds are clipped. *)
Definition slice_bound (len : nat) (a : Z) : nat :=
  if decide (a < 0) then Z.to_nat (Z.max 0 (a + Z.of_nat len))
  else Z.to_nat (Z.min a (Z.of_nat len)).

(** [l[a:b]] *)
Definition slice {A} (l : list A) (a b : Z) : list A :=
  let lo := slice_bound (length l) a in
  let hi := slice_bound (length l) b in
  take (hi - lo) (drop lo l).

(** [m[a:b, c:d]] *)
Definition slice2 {A} (m : list (list A)) (a b c d : Z) : list (list A) :=
  (λ row, slice row c d) <$> slice m a b.

(** [m[i, j]] for non-negative or negative (wrapping) indices; [IndexError]
    out of range. *)
Definition index {A} (l : list A) (i : Z) : option A :=
  if decide (0 ≤ i) then l !! Z.to_nat i
  else if decide (- Z.of_nat (length l) ≤ i) then l !! Z.to_nat (i + Z.of_nat (length l))
  else None.

Definition index2 {A} (m : list (list A)) (i j : Z) : option A :=
  row ← index m i; index row j.

Definition width {A} (m : matrix A) : nat := from_option length 0%nat (head m).

Definition shape {A} (m : matrix A) : nat * nat := (length m, width m).

(** A rectangular array of [h] rows and [w] columns. *)
Definition is_shape {A} (h w : nat) (m : matrix A) : Prop :=
  length m = h ∧ Forall (λ row, length row = w) m.

(** [m[i][j]] for an in-range natural index. *)
Definition at2 {A} (m : matrix A) (i j : nat) : option A :=
  row ← m !! i; row !! j.

(** Elementwise application. *)
Definition mmap {A B} (f : A → B) (m : matrix A) : matrix B := fmap (M:=list) f <$> m.

(** A reduction of the flattened array ([.max()], [np.min]); an empty array
    is a [ValueError]. *)
Definition reduce {A} (f : A → A → A) (m : matrix A) : option A :=
  match concat m with
  | [] => None
  | a :: l => Some (foldl f a l)
  end.

(** The array of shape [(h, w)] filled with [v]. *)
Definition full {A} (h w : nat) (v : A) : matrix A := replicate h (replicate w v).

(** The square array whose entry [(i, j)] is [f i j]. *)
Definition tabulate {A} (n : nat) (f : nat → nat → A) : matrix A :=
  (λ i, f i <$> seq 0 n) <$> seq 0 n.

(** [col[:, None]] tiled [n] times along the second axis. *)
Definition tile_columns {A} (col : list A) (n : nat) : matrix A :=
  (λ a, replicate n a) <$> col.

(** [m.T] for an array with [ncols] columns. *)
Definition transpose (ncols : nat) (m : matrix Z) : matrix Z :=
  (λ j, (λ row, default 0 (row !! j)) <$> m) <$> seq 0 ncols.

(** [np.mgrid[a:b]] *)
Definition mgrid (a b : Z) : list Z := seqZ a (b - a).

(** [np.rint]: round to the nearest integer, halves to the even one. *)
Definition rint (q : Q) : Z :=
  let f := Qfloor q in
  match (q - inject_Z f ?= 1 # 2)%Q with
  | Lt => f
  | Gt => f + 1
  | Eq => if Z.even f then f else f + 1
  end.

(** [np.round(q, decimals)] for [decimals >= 0]: scale, [rint], unscale. *)
Definition round (q : Q) (decimals : Z) : Q :=
  (inject_Z (rint (q * inject_Z (10 ^ decimals))) / inject_Z (10 ^ decimals))%Q.

(** [floor(log2 q)] for [0 < q]. *)
Definition binade (q : Q) : Z :=
  let e0 := Z.log2 (Qnum q) - Z.log2 (Zpos (Qden q)) in
  if Qle_bool (2 ^ e0) q then e0 else e0 - 1.

(** The binary16 value nearest to [0 < q] (ties to even): 11 significant
    bits, least exponent -14. *)
Definition half_magnitude (q : Q) : Q :=
  let ulp := (2 ^ (Z.max (binade q) (-14) - 10))%Q in
  (inject_Z (rint (q / ulp)) * ulp)%Q.

(** [.astype(np.float16)] on a number read as a rational.  Magnitudes from
    65520 on overflow to infinity in the source and have no image here; the
    weighting kernel is clipped to [[1e-3, 1]] before it is cast. *)
Definition to_half (q : Q) : Q :=
  match (q ?= 0)%Q with
  | Eq => 0%Q
  | Gt => half_magnitude q
  | Lt => (- half_magnitude (- q))%Q
  end.

End Py.

(** ** Sliding-window planner: [InferenceDataset.get_positions] *)

Module Planner.

(** A position is [(boundaries_x, boundaries_y)], each a pair (near, far). *)
Definition position : Type := (Z * Z) * (Z * Z).

(** The body of the loops: the tile starting at [c] on an axis of length
    [dim], shifted back by the (non-positive) free space when it would not
    leave room after its far edge. *)
Definition boundaries (dim tile_size c : Z) : Z * Z :=
  let space := dim - (c + tile_size) in
  if decide (space > 0) then (c, c + tile_size)
  else (c + space, c + space + tile_size).

Definition get_positions (orig_size0 orig_size1 tile_size overlap_factor : Z)
  : option (list position) :=
  match Py.int_truediv tile_size overlap_factor with
  | None => None
  | Some step =>
    match Py.arange 0 orig_size0 step, Py.arange 0 orig_size1 step with
    | Some top_x, Some top_y =>
      Some (x ← top_x;
            let boundaries_x := boundaries orig_size0 tile_size x in
            (λ y, (boundaries_x, boundaries orig_size1 tile_size y)) <$> top_y)
    | _, _ => None
    end
  end.

(** Pixel [(i, j)] lies in the half-open rectangle of a position. *)
Definition covers (p : position) (i j : Z) : Prop :=
  p.1.1 ≤ i < p.1.2 ∧ p.2.1 ≤ j < p.2.2.

Global Instance covers_dec p i j : Decision (covers p i j).
Proof. unfold covers. apply _. Defined.

(** A position is a [tile_size] square inside [[0, h) x [0, w)]. *)
Definition in_image (h w tile_size : Z) (p : position) : Prop :=
  0 ≤ p.1.1 ∧ p.1.2 ≤ h ∧ p.1.2 - p.1.1 = tile_size ∧
  0 ≤ p.2.1 ∧ p.2.2 ≤ w ∧ p.2.2 - p.2.1 = tile_size.

(** The planner returns a plan whose rectangles stay inside the image and
    together cover it. *)
Definition plan_covers (h w tile_size overlap_factor : Z) : Prop :=
  ∃ plan, get_positions h w tile_size overlap_factor = Some plan ∧
    (∀ p, p ∈ plan → in_image h w tile_size p) ∧
    (∀ i j, 0 ≤ i < h → 0 ≤ j < w → ∃ p, p ∈ plan ∧ covers p i j).

End Planner.

(** ** Tile weighting kernel: [get_tile_weighting] *)

Module Kernel.
Import Py.

(** Distance profile along one axis, [half + 1 - |x|] for [x] in
    [-half..-1, 1..half]. *)
Definition profile (half : Z) : list Z :=
  (λ v, half + 1 - Z.abs v) <$> (mgrid (- half) 0 ++ mgrid 1 (half + 1)).

(** Entry [i] of the profile of an axis of length [2 * half]: the distance
    to the nearer end, counted from 1. *)
Definition edge_distance (half : Z) (i : nat) : Z :=
  if decide (Z.of_nat i < half) then Z.of_nat i + 1 else 2 * half - Z.of_nat i.

(** Entry [(i, j)] of the pyramid of line 39. *)
Definition pyramid (half : Z) (i j : nat) : Z :=
  Z.min (edge_distance half i) (edge_distance half j).

(** The arithmetic of lines 40-50 on one entry, given the array-wide
    reductions [wmax] (line 40), [lo] and [hi] (line 43). *)
Definition normalise (wmax sigma : Z) (v : Z) : Q :=
  Qmin ((inject_Z v / inject_Z wmax) ^ sigma) 1.

Definition rescale (lo hi eps : Q) (w : Q) : Q :=
  ((w - lo + eps) / (hi - lo + eps))%Q.

Definition plateau (alpha : Q) (w : Q) : Q :=
  ((if Qlt_le_dec alpha w then 1 else w) / alpha)%Q.

Definition clip (lo hi : Q) (w : Q) : Q := Qmin (Qmax w lo) hi.

(** The array [w] after line 43, before the alpha plateau of lines 45-46. *)
Definition pre_plateau (size sigma : Z) (eps : Q) : option (matrix Q) :=
  if decide (size < 0) then None
  else
    let half := size `div` 2 in
    let n := Z.to_nat size in
    let x := tile_columns (profile half) n in
    let y := transpose n x in
    if decide (length (profile half) = n) then
      let w := zip_with (zip_with Z.min) x y in
      match reduce Z.max w with
      | None => None
      | Some wmax =>
        let w := mmap (normalise wmax sigma) w in
        match reduce Qmin w, reduce Qmax w with
        | Some lo, Some hi => Some (mmap (rescale lo hi eps) w)
        | _, _ => None
        end
      end
    else None.

(** [get_tile_weighting(size, sigma, alpha, eps)].  [x] has shape
    [(2 * half, size)] and [y] the transposed shape, so [np.minimum] raises
    for odd sizes; a zero size raises at [w.max()], a negative one at
    [np.ones]. *)
Definition get_tile_weighting (size sigma : Z) (alpha eps : Q) : option (matrix Q) :=
  match pre_plateau size sigma eps with
  | None => None
  | Some w =>
    let w := mmap (plateau alpha) w in
    let w := mmap (clip (1 # 1000) 1) w in
    let w := mmap (λ v, round v 3) w in
    Some (mmap to_half w)
  end.

(** Lines 45-50 on one entry. *)
Definition finish (alpha : Q) (w : Q) : Q :=
  to_half (round (clip (1 # 1000) 1 (plateau alpha w)) 3).

(** Index [i] is one of the two middle indices of an axis of length [size]. *)
Definition central (size : Z) (i : nat) : Prop :=
  Z.of_nat i = size `div` 2 - 1 ∨ Z.of_nat i = size `div` 2.

(** The call made by the predictors: [sigma=1, alpha=1], default [eps]. *)
Definition weighting (tile_size : Z) : option (matrix Q) :=
  get_tile_weighting tile_size 1 1 (1 # 1000000).

End Kernel.

(** ** Weighted accumulation: [predict_entire_mask] and
    [predict_entire_mask_downscaled] *)

Module Predict.
Import Py.

(** [FLIPS = [[-1], [-2], [-2, -1]]]; axis -1 runs along a row, axis -2
    across rows. *)
Definition FLIPS : list (list Z) := [[-1]; [-2]; [-2; -1]].

Definition flip {X} (m : matrix X) (dims : list Z) : matrix X :=
  let m := if decide (-2 ∈ dims) then reverse m else m in
  if decide (-1 ∈ dims) then reverse <$> m else m.

Section Arithmetic.
(** [P] is the pixel type of the image, [A] the number type of the
    predictions and of the two accumulation buffers. *)
Context {P A : Type}.
Variables (zero : A) (add mul div : A → A → A) (of_Z : Z → A).

(** The model with its sigmoid: one cropped tile in, its probabilities
    out.  ([predict_entire_mask] also resizes the prediction to the tile
    size before weighting it; [predict_entire_mask_downscaled], which the
    training script calls with [reduce_factor=1], does not.) *)
Variable infer : matrix P → matrix A.

(** [get_tile_weighting(tile_size, sigma=1, alpha=1)] in the number type. *)
Variable get_weighting : Z → option (matrix A).

Record InferenceDataset := {
  original_img : matrix P;
  orig_size : Z * Z;
  tile_size : Z;
  positions : list Planner.position;
}.

(** [InferenceDataset.__init__] up to the positions. *)
Definition dataset_init (img : matrix P) (overlap_factor tile_size reduce_factor : Z)
  : option InferenceDataset :=
  let size := (Z.of_nat (length img), Z.of_nat (width img)) in
  let ts := tile_size * reduce_factor in
  match Planner.get_positions size.1 size.2 ts overlap_factor with
  | None => None
  | Some ps =>
    Some {| original_img := img; orig_size := size; tile_size := ts; positions := ps |}
  end.

(** [InferenceDataset.__getitem__]: the crop (its resize is part of
    [infer]). *)
Definition getitem (ds : InferenceDataset) (pos : Planner.position) : matrix P :=
  slice2 (original_img ds) pos.1.1 pos.1.2 pos.2.1 pos.2.2.

Definition zeros (h w : Z) : matrix A :=
  replicate (Z.to_nat h) (replicate (Z.to_nat w) zero).

(** Elementwise operation on two arrays of one shape; arrays of different
    shapes do not broadcast here and raise. *)
Definition map2 (f : A → A → A) (a b : matrix A) : option (matrix A) :=
  if decide (length a = length b ∧ Forall2 (λ ra rb, length ra = length rb) a b)
  then Some (zip_with (zip_with f) a b) else None.

(** The prediction of one tile, with the optional test-time flips. *)
Definition predict_tile (tta : bool) (img : matrix P) : option (matrix A) :=
  let pred := infer img in
  if tta then
    match
      foldl (λ acc f, pred ← acc; map2 add pred (flip (infer (flip img f)) f))
            (Some pred) FLIPS
    with
    | None => None
    | Some pred => Some (mmap (λ a, div a (of_Z (Z.of_nat (length FLIPS) + 1))) pred)
    end
  else Some pred.

(** [g[x0:x1, y0:y1] += t]: the slice bounds are normalised as Python
    does, and [t] must have the shape of the slice. *)
Definition add_slice (g : matrix A) (pos : Planner.position) (t : matrix A)
  : option (matrix A) :=
  let r0 := slice_bound (length g) pos.1.1 in
  let r1 := slice_bound (length g) pos.1.2 in
  let c0 := slice_bound (width g) pos.2.1 in
  let c1 := slice_bound (width g) pos.2.2 in
  if decide (length t = (r1 - r0)%nat ∧ Forall (λ row, length row = (c1 - c0)%nat) t)
  then
    Some (imap (λ i row,
            if decide (r0 ≤ i < r1)%nat then
              imap (λ j a,
                if decide (c0 ≤ j < c1)%nat
                then add a (default zero (at2 t (i - r0) (j - c0)))
                else a) row
            else row) g)
  else None.

(** What pixel [(i, j)] of a buffer holds after the tiles [ps], when it
    held [a0] before: for every tile that covers the pixel, in order, the
    entry of [contrib] at the pixel's offset in the tile is added. *)
Definition received (contrib : Planner.position → matrix A) (i j : nat) (a0 : A)
    (ps : list Planner.position) : A :=
  foldl (λ acc p,
           if decide (Planner.covers p (Z.of_nat i) (Z.of_nat j))
           then add acc (default zero
                  (at2 (contrib p) (i - Z.to_nat p.1.1) (j - Z.to_nat p.2.1)))
           else acc) a0 ps.

(** The two buffers, [(global_pred, global_counter)]. *)
Definition buffers : Type := matrix A * matrix A.

(** One pass of the inner loop (lines 90-94 and 143-147) for one tile. *)
Definition add_tile (weighting : matrix A) (st : buffers)
    (pos : Planner.position) (pred : matrix A) : option buffers :=
  match map2 mul pred weighting with
  | None => None
  | Some pred =>
    match add_slice st.1 pos pred, add_slice st.2 pos weighting with
    | Some gp, Some gc => Some (gp, gc)
    | _, _ => None
    end
  end.

(** The loop over the loader, tile after tile in planner order. *)
Definition accumulate_from (ds : InferenceDataset) (tta : bool) (weighting : matrix A)
    (st : option buffers) (ps : list Planner.position) : option buffers :=
  foldl (λ acc pos,
           st ← acc;
           pred ← predict_tile tta (getitem ds pos);
           add_tile weighting st pos pred) st ps.

Definition accumulate (ds : InferenceDataset) (tta : bool) (weighting : matrix A)
  : option buffers :=
  accumulate_from ds tta weighting
    (Some (zeros (orig_size ds).1 (orig_size ds).2,
           zeros (orig_size ds).1 (orig_size ds).2))
    (positions ds).

(** The weighted prediction a tile adds to [global_pred]. *)
Definition weighted (ds : InferenceDataset) (tta : bool) (weighting : matrix A)
    (pos : Planner.position) : matrix A :=
  default [] (pred ← predict_tile tta (getitem ds pos); map2 mul pred weighting).

(** Lines 96-97 and 149-150: row after row,
    [global_pred[i] = torch.div(global_pred[i], global_counter[i])]. *)
Definition finalize (st : buffers) : matrix A :=
  zip_with (zip_with div) st.1 st.2.

Definition predict_entire_mask (ds : InferenceDataset) (tta : bool) : option (matrix A) :=
  match get_weighting (tile_size ds) with
  | None => None
  | Some weighting => finalize <$> accumulate ds tta weighting
  end.

(** Follows the words of the specification, not the code: the denominator
    floored at [eps] through a maximum [floor_at eps]. *)
Definition finalize_spec (floor_at : A → A) (st : buffers) : matrix A :=
  zip_with (zip_with (λ s w, div s (floor_at w))) st.1 st.2.

End Arithmetic.

(** IEEE binary16, the [torch.half] of the buffers. *)
Definition half : Type := spec_float.
Definition half_zero : half := S754_zero false.
Definition half_div : half → half → half := SFdiv 11 16.

Definition is_nan (x : half) : bool :=
  match x with S754_nan => true | _ => false end.

Definition is_zero (x : half) : bool :=
  match x with S754_zero _ => true | _ => false end.

(** Finite and different from zero. *)
Definition is_finite_nonzero (x : half) : bool :=
  match x with S754_finite _ _ _ => true | _ => false end.

(** The smallest positive binary16 value, [2^-24]. *)
Definition half_tiny : half := S754_finite false 1 (-24).

Definition finalize_half : matrix half * matrix half → matrix half :=
  finalize half_div.

(** [max(weight_total, eps)] of the specification on binary16 values. *)
Definition half_max (eps x : half) : half :=
  if SFltb x eps then eps else x.

Definition finalize_spec_half (eps : half) : matrix half * matrix half → matrix half :=
  finalize_spec half_div (half_max eps).


Definition accumulate_exact {P} (infer : matrix P → matrix Q)
    (ds : InferenceDataset (P:=P)) (tta : bool) (weighting : matrix Q)
  : option (matrix Q * matrix Q) :=
  accumulate 0%Q Qplus Qmult Qdiv inject_Z infer ds tta weighting.

End Predict.

(** ** In-memory training dataset: folds and tile sampling *)

Module Train.
Import Py.

Inductive mode := centered | convhull | random | visible.

Inductive exception := InvalidArgument | IndexError | ValueError.

(** What a call does: it returns a value or raises. *)
Inductive outcome (A : Type) :=
  | Returns (a : A)
  | Raises (e : exception).
Arguments Returns {A} a.
Arguments Raises {A} e.

(** The attributes of [InMemoryTrainDataset] that the fold switch and the
    sampler read or write.  Masks hold pixel values, hulls booleans. *)
Record dataset := {
  sampling_mode : mode;
  train_tile_size : Z;
  before_crop_size : Z;
  on_spot_sampling : Q;
  train_img_names : list string;
  image_sizes : list (Z * Z);
  masks : list (matrix Z);
  conv_hulls : list (matrix bool);
  pseudo_img_sizes : list (Z * Z);
  pseudo_masks : list (matrix Z);
  train_img_idx : list nat;
  valid_img_idx : list nat;
  train_set : list string;
  valid_set : list string;
  used_img_idx : list nat;
  sampling_thresh : Q;
}.

(** [int(1.5 * train_tile_size)] (line 229): the product is exact in
    floating point, [int] truncates toward zero. *)
Definition crop_size (train_tile_size : Z) : Z := Z.quot (3 * train_tile_size) 2.

(** [update_fold_nb], lines 382-393: five folds, hard coded.  (Lines
    395-397 reload the pseudo-label masks from disk when pseudo labels are
    in use; reading files is outside this model.)  No statement of the body
    raises. *)
Definition update_fold_nb (self : dataset) (fold_nb : Z) : outcome dataset :=
  let n := length (train_img_names self) in
  let train_idx := filter (λ tile_nb, Z.of_nat tile_nb `mod` 5 ≠ fold_nb) (seq 0 n) in
  let valid_idx := filter (λ tile_nb, Z.of_nat tile_nb `mod` 5 = fold_nb) (seq 0 n) in
  Returns {|
    sampling_mode := sampling_mode self;
    train_tile_size := train_tile_size self;
    before_crop_size := before_crop_size self;
    on_spot_sampling := on_spot_sampling self;
    train_img_names := train_img_names self;
    image_sizes := image_sizes self;
    masks := masks self;
    conv_hulls := conv_hulls self;
    pseudo_img_sizes := pseudo_img_sizes self;
    pseudo_masks := pseudo_masks self;
    train_img_idx := train_idx;
    valid_img_idx := valid_idx;
    train_set := omap (λ idx, train_img_names self !! idx) train_idx;
    valid_set := omap (λ idx, train_img_names self !! idx) valid_idx;
    used_img_idx := used_img_idx self;
    sampling_thresh := sampling_thresh self;
  |}.

(** The fold of an image index. *)
Definition fold (tile_nb : nat) : Z := Z.of_nat tile_nb `mod` 5.

(** [train(is_train)] without the sampling probabilities. *)
Definition train (self : dataset) (is_train : bool) : dataset :=
  {|
    sampling_mode := sampling_mode self;
    train_tile_size := train_tile_size self;
    before_crop_size := before_crop_size self;
    on_spot_sampling := on_spot_sampling self;
    train_img_names := train_img_names self;
    image_sizes := image_sizes self;
    masks := masks self;
    conv_hulls := conv_hulls self;
    pseudo_img_sizes := pseudo_img_sizes self;
    pseudo_masks := pseudo_masks self;
    train_img_idx := train_img_idx self;
    valid_img_idx := valid_img_idx self;
    train_set := train_set self;
    valid_set := valid_set self;
    used_img_idx := if is_train then train_img_idx self else valid_img_idx self;
    sampling_thresh := if is_train then on_spot_sampling self else 0%Q;
  |}.

(** [__init__] on images, masks and hulls already in memory: the crop size
    of line 229, then [update_fold_nb(fold_nb)] and [train(True)]. *)
Definition init (names : list string) (sizes : list (Z * Z)) (loaded_masks : list (matrix Z))
    (hulls : list (matrix bool)) (tile_size : Z) (on_spot : Q) (fold_nb : Z)
    (sampling : mode) : outcome dataset :=
  let self := {|
    sampling_mode := sampling;
    train_tile_size := tile_size;
    before_crop_size := crop_size tile_size;
    on_spot_sampling := on_spot;
    train_img_names := names;
    image_sizes := sizes;
    masks := loaded_masks;
    conv_hulls := hulls;
    pseudo_img_sizes := [];
    pseudo_masks := [];
    train_img_idx := [];
    valid_img_idx := [];
    train_set := [];
    valid_set := [];
    used_img_idx := [];
    sampling_thresh := on_spot;
  |} in
  match update_fold_nb self fold_nb with
  | Returns self => Returns (train self true)
  | Raises e => Raises e
  end.

(** [arr.sum()] of a 2D integer array (numpy sums small integer types in a
    64-bit accumulator; the sum is taken unbounded here). *)
Definition sum2 (m : matrix Z) : Z := foldr Z.add 0 (foldr Z.add 0 <$> m).

(** Number of positive pixels of a mask region. *)
Definition count_positive (m : matrix Z) : Z :=
  Z.of_nat (length (filter (λ v, 0 < v) (concat m))).

(** [np.random.rand()] from one draw of entropy: 53 random bits over 2^53,
    a value of [[0, 1)]. *)
Definition rand (ω : Z) : Q := Qmake (ω `mod` 2 ^ 53) (2 ^ 53).

(** [np.random.randint(n)]: a value of [[0, n)]; [ValueError] unless
    [0 < n]. *)
Definition randint (n ω : Z) : option Z :=
  if decide (0 < n) then Some (ω `mod` n) else None.

(** The two expressions of the visible branch: the one assigned to
    [condition] (lines 422-425) and the one the [if] tests (line 426). *)
Definition visible_condition (self : dataset) (image_nb x1 x2 y1 y2 : Z) (is_pseudo : bool)
  : option bool :=
  m ← index (if is_pseudo then pseudo_masks self else masks self) image_nb;
  Some (bool_decide (sum2 (slice2 m x1 x2 y1 y2) > 2000)).

Definition visible_tested (self : dataset) (image_nb x1 x2 y1 y2 : Z) : option bool :=
  m ← index (masks self) image_nb;
  Some (bool_decide (sum2 (slice2 m x1 x2 y1 y2) > 2000)).

(** Lines 431-435, the soft rejection. *)
Definition soft_keep (self : dataset) (ω : Z) : bool :=
  let should_keep := rand ω in
  if Qlt_le_dec (sampling_thresh self) should_keep then true else false.

(** [accept_tile_policy]; [ω] is the entropy of the draw of line 431, read
    only when that line is reached.  [None] is an [IndexError]. *)
Definition accept_tile_policy (self : dataset) (image_nb x1 x2 y1 y2 : Z)
    (is_pseudo : bool) (ω : Z) : option bool :=
  if Qeq_bool (sampling_thresh self) 0 then Some true
  else
    let cx := Z.quot (x1 + x2) 2 in
    let cy := Z.quot (y1 + y2) 2 in
    match sampling_mode self with
    | centered =>
      match index (if is_pseudo then pseudo_masks self else masks self) image_nb with
      | None => None
      | Some m =>
        match index2 m cx cy with
        | None => None
        | Some condition =>
          Some (if bool_decide (condition ≠ 0) then true else soft_keep self ω)
        end
      end
    | convhull =>
      if is_pseudo then Some true
      else
        match index (conv_hulls self) image_nb with
        | None => None
        | Some m =>
          match index2 m cx cy with
          | None => None
          | Some condition => Some (if condition : bool then true else soft_keep self ω)
          end
        end
    | visible =>
      match visible_condition self image_nb x1 x2 y1 y2 is_pseudo with
      | None => None
      | Some condition =>
        match visible_tested self image_nb x1 x2 y1 y2 with
        | None => None
        | Some tested => Some (if tested : bool then true else soft_keep self ω)
        end
      end
    | random => Some true
    end.

(** [get_img_dim] *)
Definition get_img_dim (self : dataset) (img_nb : Z) (is_pseudo : bool) : option (Z * Z) :=
  index (if is_pseudo then pseudo_img_sizes self else image_sizes self) img_nb.

(** A candidate rectangle [(x1, x2, y1, y2)]. *)
Definition rect : Type := Z * Z * Z * Z.

(** Lines 515-519: one proposal, from two draws of entropy. *)
Definition propose (self : dataset) (img_dim : Z * Z) (ωx ωy : Z) : option rect :=
  x1 ← randint (img_dim.1 - before_crop_size self) ωx;
  let x2 := x1 + before_crop_size self in
  y1 ← randint (img_dim.2 - before_crop_size self) ωy;
  let y2 := y1 + before_crop_size self in
  Some (x1, x2, y1, y2).

(** How the rejection loop of lines 513-521 stands after some iterations:
    the candidates proposed so far, oldest first, and whether one was
    accepted, an exception was raised, or the loop is still running. *)
Inductive status := Accepted (r : rect) | Raised | Running.

(** The loop, for at most [fuel] iterations.  [entropy k] is the [k]-th
    draw of the generator; an iteration takes three draws. *)
Fixpoint sample_loop (self : dataset) (entropy : nat → Z) (image_nb : Z)
    (is_pseudo : bool) (img_dim : Z * Z) (fuel k : nat) : list rect * status :=
  match fuel with
  | O => ([], Running)
  | S fuel =>
    match propose self img_dim (entropy k) (entropy (S k)) with
    | None => ([], Raised)
    | Some (x1, x2, y1, y2) =>
      match accept_tile_policy self image_nb x1 x2 y1 y2 is_pseudo (entropy (S (S k))) with
      | None => ([(x1, x2, y1, y2)], Raised)
      | Some true => ([(x1, x2, y1, y2)], Accepted (x1, x2, y1, y2))
      | Some false =>
        let '(trace, st) :=
          sample_loop self entropy image_nb is_pseudo img_dim fuel (3 + k)%nat in
        ((x1, x2, y1, y2) :: trace, st)
      end
    end
  end.

(** Lines 510-521 of [__getitem__] for a chosen image. *)
Definition sample_tile (self : dataset) (entropy : nat → Z) (image_nb : Z)
    (is_pseudo : bool) (fuel : nat) : list rect * status :=
  match get_img_dim self image_nb is_pseudo with
  | None => ([], Raised)
  | Some img_dim => sample_loop self entropy image_nb is_pseudo img_dim fuel 0
  end.

(** Six images, sampled at random, tile size 3, fold 0. *)
Definition six_images : outcome dataset :=
  init ["a"; "b"; "c"; "d"; "e"; "f"]%string (replicate 6 (10, 10))
       (replicate 6 (full 10 10 0)) [] 3 (9 # 10) 0 random.

(** One image whose mask is empty, one pseudo-labelled image whose mask is
    full, visible sampling that rejects every off-target tile. *)
Definition pseudo_example : dataset := {|
  sampling_mode := visible;
  train_tile_size := 32;
  before_crop_size := crop_size 32;
  on_spot_sampling := 1;
  train_img_names := ["a"]%string;
  image_sizes := [(60, 60)];
  masks := [full 60 60 0];
  conv_hulls := [];
  pseudo_img_sizes := [(60, 60)];
  pseudo_masks := [full 60 60 1];
  train_img_idx := [];
  valid_img_idx := [0%nat];
  train_set := [];
  valid_set := ["a"]%string;
  used_img_idx := [];
  sampling_thresh := 1;
|}.

(** One image whose mask is full, visible sampling that rejects every
    off-target tile. *)
Definition visible_example : dataset := {|
  sampling_mode := visible;
  train_tile_size := 32;
  before_crop_size := crop_size 32;
  on_spot_sampling := 1;
  train_img_names := ["a"]%string;
  image_sizes := [(60, 60)];
  masks := [full 60 60 1];
  conv_hulls := [];
  pseudo_img_sizes := [];
  pseudo_masks := [];
  train_img_idx := [0%nat];
  valid_img_idx := [];
  train_set := ["a"]%string;
  valid_set := [];
  used_img_idx := [0%nat];
  sampling_thresh := 1;
|}.

(** The candidate keeps the crop inside an image of size [h x w]. *)
Definition fits (h w size : Z) (r : rect) : Prop :=
  let '(x1, x2, y1, y2) := r in
  0 ≤ x1 < x2 ∧ x2 ≤ h ∧ 0 ≤ y1 < y2 ∧ y2 ≤ w ∧ x2 - x1 = size ∧ y2 - y1 = size.

End Train.

(** ** The rest of the two datasets *)

Module Inference.
Import Py.

Section Items.
Context {P : Type}.

(** [InferenceDataset.__len__] *)
Definition len (ds : Predict.InferenceDataset (P:=P)) : nat :=
  length (Predict.positions ds).

(** [InferenceDataset.__getitem__] with [reduce_factor=1] and no transform:
    the crop of lines 153-154 and the array [pos] of line 169.  [None] is
    the [IndexError] of [self.positions[idx]]. *)
Definition getitem (ds : Predict.InferenceDataset (P:=P)) (idx : Z)
  : option (matrix P * list Z) :=
  match index (Predict.positions ds) idx with
  | None => None
  | Some (pos_x, pos_y) =>
    Some (slice2 (Predict.original_img ds) pos_x.1 pos_x.2 pos_y.1 pos_y.2,
          [pos_x.1; pos_x.2; pos_y.1; pos_y.2])
  end.

End Items.


(** The dataset [ds] with another list of positions. *)
Definition with_positions {P} (ds : Predict.InferenceDataset (P:=P))
    (ps : list Planner.position) : Predict.InferenceDataset (P:=P) :=
  {| Predict.original_img := Predict.original_img ds;
     Predict.orig_size := Predict.orig_size ds;
     Predict.tile_size := Predict.tile_size ds;
     Predict.positions := ps |}.

End Inference.

Module Selection.
Import Py.

(** Lines 487-489 of [InMemoryTrainDataset.__getitem__], the choice of the
    image when [sampling_thresh == 0]:
    [self.used_img_idx[idx % len(self.used_img_idx)]].  [None] is the
    [ZeroDivisionError] of an empty list. *)
Definition validation_image (self : Train.dataset) (idx : Z) : option nat :=
  let n := Z.of_nat (length (Train.used_img_idx self)) in
  if decide (n = 0) then None
  else index (Train.used_img_idx self) (idx `mod` n).

(** Line 287: [images_areas = [h * w for (h, w, c) in image_sizes]]. *)
Definition images_areas (self : Train.dataset) : list Z :=
  (λ size, size.1 * size.2) <$> Train.image_sizes self.

(** The areas kept by lines 299-305: those of the images whose index is in
    [used_img_idx], in image order. *)
Definition used_areas (self : Train.dataset) : list Z :=
  (imap (λ idx area, (idx, area)) (images_areas self))
    ≫= λ ia, if decide (ia.1 ∈ Train.used_img_idx self) then [ia.2] else [].

(** Line 306: [sampling_probs / np.sum(sampling_probs)], over exact
    arithmetic. *)
Definition sampling_probs (self : Train.dataset) : list Q :=
  let total := foldr Z.add 0 (used_areas self) in
  (λ area, inject_Z area / inject_Z total)%Q <$> used_areas self.

(** [select_tile]; the images are the attributes [imgs] and
    [pseudo_images].  [None] is an [IndexError]. *)
Definition select_tile {P} (imgs pseudo_images : list (matrix P)) (self : Train.dataset)
    (img_nb : Z) (is_pseudo : bool) (x1 x2 y1 y2 : Z) : option (matrix P * matrix Z) :=
  match index (if is_pseudo then pseudo_images else imgs) img_nb,
        index (if is_pseudo then Train.pseudo_masks self else Train.masks self) img_nb with
  | Some img, Some mask => Some (slice2 img x1 x2 y1 y2, slice2 mask x1 x2 y1 y2)
  | _, _ => None
  end.

(** One image of 10 x 10 pixels whose mask is full, centered sampling that
    rejects every off-target tile, crop size 6. *)
Definition centered_example : Train.dataset := {|
  Train.sampling_mode := Train.centered;
  Train.train_tile_size := 4;
  Train.before_crop_size := Train.crop_size 4;
  Train.on_spot_sampling := 1;
  Train.train_img_names := ["a"]%string;
  Train.image_sizes := [(10, 10)];
  Train.masks := [full 10 10 1];
  Train.conv_hulls := [];
  Train.pseudo_img_sizes := [];
  Train.pseudo_masks := [];
  Train.train_img_idx := [0%nat];
  Train.valid_img_idx := [];
  Train.train_set := ["a"]%string;
  Train.valid_set := [];
  Train.used_img_idx := [0%nat];
  Train.sampling_thresh := 1;
|}.

End Selection.

(** ** Facts about the primitives *)

Lemma cdiv_spec a b : 0 < b → (Py.cdiv a b - 1) * b < a ≤ Py.cdiv a b * b.
Proof.
  intros Hb. unfold Py.cdiv.
  pose proof (Z.div_mod (- a) b ltac:(lia)) as E.
  pose proof (Z.mod_pos_bound (- a) b Hb) as B. nia.
Qed.

Lemma elem_of_arange stop step starts c :
  0 < step →
  Py.arange 0 stop step = Some starts →
  c ∈ starts ↔ ∃ k, c = k * step ∧ 0 ≤ k ∧ k * step < stop.
Proof.
  intros Hs. unfold Py.arange. case_decide; [lia|]. intros [= <-].
  rewrite list_elem_of_fmap. pose proof (cdiv_spec (stop - 0) step Hs) as C.
  split.
  - intros (k & -> & Hk%elem_of_seqZ). exists k. split; [lia|]. nia.
  - intros (k & -> & H0 & H1). exists k. split; [lia|].
    apply elem_of_seqZ. nia.
Qed.

Lemma arange_is_Some start stop step :
  step ≠ 0 → is_Some (Py.arange start stop step).
Proof. intros. unfold Py.arange. case_decide; [done|eauto]. Qed.

Lemma int_truediv_step tile_size overlap_factor :
  1 ≤ overlap_factor ≤ tile_size →
  ∃ step, Py.int_truediv tile_size overlap_factor = Some step ∧ 1 ≤ step ≤ tile_size.
Proof.
  intros H. unfold Py.int_truediv. case_decide; [lia|]. eexists; split; [done|].
  rewrite Z.quot_div_nonneg by lia. split.
  - apply Z.div_le_lower_bound; lia.
  - apply Z.div_le_upper_bound; nia.
Qed.

(** ** The planner on one axis *)

Section Axis.
Variables dim tile_size : Z.
Hypothesis tile_fits : 1 ≤ tile_size ≤ dim.

Lemma boundaries_in_axis c :
  0 ≤ c →
  let b := Planner.boundaries dim tile_size c in
  0 ≤ b.1 ∧ b.2 ≤ dim ∧ b.2 - b.1 = tile_size.
Proof. intros Hc. unfold Planner.boundaries. case_decide; simpl; lia. Qed.



Lemma axis_covered step starts i :
  1 ≤ step ≤ tile_size →
  Py.arange 0 dim step = Some starts →
  0 ≤ i < dim →
  ∃ c, c ∈ starts ∧
    (Planner.boundaries dim tile_size c).1 ≤ i < (Planner.boundaries dim tile_size c).2.
Proof.
  intros Hstep Hst Hi. exists (i `div` step * step).
  pose proof (Z.div_mod i step ltac:(lia)) as E.
  pose proof (Z.mod_pos_bound i step ltac:(lia)) as B.
  assert (0 ≤ i `div` step) by (apply Z.div_pos; lia).
  split.
  - apply (elem_of_arange dim step); [lia|done|]. exists (i `div` step). nia.
  - unfold Planner.boundaries. case_decide; simpl; nia.
Qed.
End Axis.

(** ** Coverage by the planner *)

Lemma get_positions_plan h w tile_size overlap_factor :
  1 ≤ overlap_factor ≤ tile_size →
  ∃ step top_x top_y,
    1 ≤ step ≤ tile_size ∧
    Py.arange 0 h step = Some top_x ∧ Py.arange 0 w step = Some top_y ∧
    Planner.get_positions h w tile_size overlap_factor =
      Some (x ← top_x;
            (λ y, (Planner.boundaries h tile_size x, Planner.boundaries w tile_size y))
              <$> top_y).
Proof.
  intros Hof. destruct (int_truediv_step _ _ Hof) as (step & Hstep & Hb).
  destruct (arange_is_Some 0 h step ltac:(lia)) as [top_x Hx].
  destruct (arange_is_Some 0 w step ltac:(lia)) as [top_y Hy].
  exists step, top_x, top_y. unfold Planner.get_positions.
  rewrite Hstep, Hx, Hy. done.
Qed.

Lemma elem_of_plan (top_x top_y : list Z) h w ts (p : Planner.position) :
  p ∈ (x ← top_x; (λ y, (Planner.boundaries h ts x, Planner.boundaries w ts y)) <$> top_y)
  ↔ ∃ x y, x ∈ top_x ∧ y ∈ top_y ∧
      p = (Planner.boundaries h ts x, Planner.boundaries w ts y).
Proof.
  rewrite list_elem_of_bind. split.
  - intros (x & (y & -> & Hy)%list_elem_of_fmap & Hx). eauto.
  - intros (x & y & Hx & Hy & ->). exists x. split; [|done].
    apply list_elem_of_fmap. eauto.
Qed.

Lemma arange_nonneg stop step starts c :
  0 < step → Py.arange 0 stop step = Some starts → c ∈ starts → 0 ≤ c < stop.
Proof.
  intros Hs Ha Hc. apply (elem_of_arange _ _ _ _ Hs Ha) in Hc as (k & -> & ? & ?). nia.
Qed.

Lemma plan_covers_intro h w tile_size overlap_factor :
  1 ≤ tile_size → tile_size ≤ h → tile_size ≤ w →
  1 ≤ overlap_factor ≤ tile_size →
  Planner.plan_covers h w tile_size overlap_factor.
Proof.
  intros Hts Hh Hw Hof.
  destruct (get_positions_plan h w tile_size overlap_factor Hof)
    as (step & top_x & top_y & Hstep & Hx & Hy & Hplan).
  eexists. split; [exact Hplan|]. split.
  - intros p (x & y & Hxin & Hyin & ->)%elem_of_plan.
    assert (0 < step) as Hpos by lia.
    apply (arange_nonneg _ _ _ _ Hpos Hx) in Hxin.
    apply (arange_nonneg _ _ _ _ Hpos Hy) in Hyin.
    pose proof (boundaries_in_axis h tile_size ltac:(lia) x ltac:(lia)).
    pose proof (boundaries_in_axis w tile_size ltac:(lia) y ltac:(lia)).
    unfold Planner.in_image. simpl in *. lia.
  - intros i j Hi Hj.
    destruct (axis_covered h tile_size ltac:(lia) step top_x i Hstep Hx Hi) as (x & Hxin & Hxc).
    destruct (axis_covered w tile_size ltac:(lia) step top_y j Hstep Hy Hj) as (y & Hyin & Hyc).
    exists (Planner.boundaries h tile_size x, Planner.boundaries w tile_size y). split.
    + apply elem_of_plan. eauto.
    + unfold Planner.covers. simpl. lia.
Qed.

(** C2, as stated, fails: a tile of one pixel with overlap factor two gives
    a zero step, on which [np.arange] raises, so no plan is returned. *)
Lemma planner_zero_step_counterexample :
  1 ≤ 1 ∧ 1 ≤ 4 ∧ 1 ≤ 2 ∧
  Planner.get_positions 4 4 1 2 = None ∧ ¬ Planner.plan_covers 4 4 1 2.
Proof.
  repeat split; try lia.
  intros (plan & Hplan & _). vm_compute in Hplan. discriminate.
Qed.

(** C2 (amended): for every height and width at least [tile_size], every
    [tile_size >= 1] and every overlap factor between 1 and [tile_size]
    (so that the step [int(tile_size / overlap_factor)] is at least 1), the
    planner returns rectangles that all lie inside the image, have side
    [tile_size], and together cover every pixel; and a start whose tile
    would reach or pass the end of its axis is shifted back so that its far
    edge is the axis length. *)
Theorem planner_coverage h w tile_size overlap_factor :
  1 ≤ tile_size → tile_size ≤ h → tile_size ≤ w →
  1 ≤ overlap_factor ≤ tile_size →
  Planner.plan_covers h w tile_size overlap_factor ∧
  (∀ dim c, dim ≤ c + tile_size →
     Planner.boundaries dim tile_size c = (dim - tile_size, dim)).
Proof.
  intros Hts Hh Hw Hof. split.
  - by apply plan_covers_intro.
  - intros dim c Hc. unfold Planner.boundaries. case_decide; [lia|]. f_equal; lia.
Qed.

Lemma planner_coverage_witness :
  (1 ≤ 256 ∧ 256 ≤ 1000 ∧ 1 ≤ 2 ≤ 256) ∧
  Planner.plan_covers 1000 1000 256 2 ∧
  (∀ dim c, dim ≤ c + 256 → Planner.boundaries dim 256 c = (dim - 256, dim)).
Proof. split; [lia|]. apply (planner_coverage 1000 1000 256 2); lia. Defined.

(** ** Shapes, slices and in-place addition *)

Section Shapes.
Context {A : Type}.
Implicit Types (m g t : matrix A).

Lemma is_shape_lookup h w m i row :
  Py.is_shape h w m → m !! i = Some row → length row = w.
Proof. intros [_ Hf] Hi. by eapply (Forall_lookup_1 _ _ _ _ Hf). Qed.

Lemma is_shape_width h w m : Py.is_shape h w m → (0 < h)%nat → Py.width m = w.
Proof.
  intros [Hl Hf] Hh. unfold Py.width. destruct m as [|row m]; simpl in *; [lia|].
  by inversion Hf.
Qed.

Lemma at2_is_Some h w m i j :
  Py.is_shape h w m → (i < h)%nat → (j < w)%nat → is_Some (Py.at2 m i j).
Proof.
  intros Hs Hi Hj. unfold Py.at2.
  destruct (lookup_lt_is_Some_2 m i) as [row Hrow]; [destruct Hs; lia|].
  rewrite Hrow. simpl. apply lookup_lt_is_Some_2.
  by rewrite (is_shape_lookup _ _ _ _ _ Hs Hrow).
Qed.

Lemma at2_Some_lt h w m i j a :
  Py.is_shape h w m → Py.at2 m i j = Some a → (i < h)%nat ∧ (j < w)%nat.
Proof.
  intros Hs. unfold Py.at2. destruct (m !! i) as [row|] eqn:Hrow; [|done]. simpl.
  intros Hj. apply lookup_lt_Some in Hj.
  rewrite (is_shape_lookup _ _ _ _ _ Hs Hrow) in Hj.
  apply lookup_lt_Some in Hrow. destruct Hs. lia.
Qed.

Lemma is_shape_replicate h w (a : A) : Py.is_shape h w (replicate h (replicate w a)).
Proof.
  split; [by rewrite length_replicate|].
  apply Forall_replicate. by rewrite length_replicate.
Qed.

Lemma at2_replicate h w (a : A) i j :
  (i < h)%nat → (j < w)%nat → Py.at2 (replicate h (replicate w a)) i j = Some a.
Proof.
  intros Hi Hj. unfold Py.at2. rewrite lookup_replicate_2 by done. simpl.
  by rewrite lookup_replicate_2.
Qed.

Lemma slice_bound_in_range len a :
  0 ≤ a ≤ Z.of_nat len → Py.slice_bound len a = Z.to_nat a.
Proof. intros H. unfold Py.slice_bound. case_decide; lia. Qed.

Lemma slice_lookup {X} (l : list X) a b i :
  0 ≤ a → a ≤ b → b ≤ Z.of_nat (length l) →
  Py.slice l a b !! i =
    if decide (i < Z.to_nat (b - a))%nat then l !! (Z.to_nat a + i)%nat else None.
Proof.
  intros Ha Hab Hb. unfold Py.slice.
  rewrite !slice_bound_in_range by lia.
  replace (Z.to_nat b - Z.to_nat a)%nat with (Z.to_nat (b - a)) by lia.
  case_decide.
  - rewrite lookup_take_lt by done. by rewrite lookup_drop.
  - by rewrite lookup_take_ge by lia.
Qed.

Lemma length_slice {X} (l : list X) a b :
  0 ≤ a → a ≤ b → b ≤ Z.of_nat (length l) → length (Py.slice l a b) = Z.to_nat (b - a).
Proof.
  intros Ha Hab Hb. unfold Py.slice. rewrite !slice_bound_in_range by lia.
  rewrite length_take, length_drop. lia.
Qed.

Lemma slice2_shape h w m x0 x1 y0 y1 :
  Py.is_shape h w m →
  0 ≤ x0 → x0 ≤ x1 → x1 ≤ Z.of_nat h → 0 ≤ y0 → y0 ≤ y1 → y1 ≤ Z.of_nat w →
  Py.is_shape (Z.to_nat (x1 - x0)) (Z.to_nat (y1 - y0)) (Py.slice2 m x0 x1 y0 y1).
Proof.
  intros Hs ? ? ? ? ? ?. pose proof Hs as [Hl Hf]. unfold Py.slice2. split.
  - rewrite length_fmap, length_slice; lia.
  - apply Forall_fmap, Forall_forall. intros row Hrow. simpl.
    assert (length row = w) as Hw.
    { unfold Py.slice in Hrow. apply subseteq_take, subseteq_drop in Hrow.
      by eapply (proj1 (Forall_forall _ _) Hf). }
    rewrite length_slice; lia.
Qed.

Lemma slice2_at h w m x0 x1 y0 y1 i j :
  Py.is_shape h w m →
  0 ≤ x0 → x0 ≤ x1 → x1 ≤ Z.of_nat h → 0 ≤ y0 → y0 ≤ y1 → y1 ≤ Z.of_nat w →
  (i < Z.to_nat (x1 - x0))%nat → (j < Z.to_nat (y1 - y0))%nat →
  Py.at2 (Py.slice2 m x0 x1 y0 y1) i j = Py.at2 m (Z.to_nat x0 + i) (Z.to_nat y0 + j).
Proof.
  intros Hs ? ? ? ? ? ? Hi Hj. pose proof Hs as [Hl Hf]. unfold Py.at2, Py.slice2.
  rewrite list_lookup_fmap, slice_lookup by lia. rewrite decide_True by done.
  destruct (m !! (Z.to_nat x0 + i)%nat) as [row|] eqn:Hrow; [|done]. simpl.
  pose proof (is_shape_lookup _ _ _ _ _ Hs Hrow) as Hw.
  rewrite slice_lookup by lia. by rewrite decide_True.
Qed.
End Shapes.

(** ** The accumulation loop, pixel by pixel *)

Section Accumulation.
Context {P A : Type}.
Variables (zero : A) (add mul div : A → A → A) (of_Z : Z → A).
Variable infer : matrix P → matrix A.
Implicit Types (g t k : matrix A) (p : Planner.position).

Lemma at2_zip_with (f : A → A → A) (a b : matrix A) i j :
  Py.at2 (zip_with (zip_with f) a b) i j =
    match Py.at2 a i j, Py.at2 b i j with
    | Some x, Some y => Some (f x y)
    | _, _ => None
    end.
Proof.
  unfold Py.at2. rewrite lookup_zip_with.
  destruct (a !! i) as [ra|]; simpl; [|done].
  destruct (b !! i) as [rb|]; simpl; [|by destruct (ra !! j)].
  rewrite lookup_zip_with. destruct (ra !! j), (rb !! j); done.
Qed.

Lemma is_shape_zip_with (f : A → A → A) h w (a b : matrix A) :
  Py.is_shape h w a → Py.is_shape h w b →
  Py.is_shape h w (zip_with (zip_with f) a b).
Proof.
  intros [Ha Fa] [Hb Fb]. split.
  - rewrite length_zip_with. lia.
  - apply Forall_lookup. intros i row Hrow.
    apply lookup_zip_with_Some in Hrow as (ra & rb & -> & Hra & Hrb).
    rewrite length_zip_with.
    rewrite (Forall_lookup_1 _ _ _ _ Fa Hra), (Forall_lookup_1 _ _ _ _ Fb Hrb). lia.
Qed.

Lemma map2_shape (f : A → A → A) h w (a b : matrix A) :
  Py.is_shape h w a → Py.is_shape h w b →
  Predict.map2 f a b = Some (zip_with (zip_with f) a b).
Proof.
  intros [Ha Fa] [Hb Fb]. unfold Predict.map2. rewrite decide_True; [done|].
  split; [lia|]. apply Forall2_same_length_lookup_2; [lia|].
  intros i ra rb Hra Hrb.
  by rewrite (Forall_lookup_1 _ _ _ _ Fa Hra), (Forall_lookup_1 _ _ _ _ Fb Hrb).
Qed.

Lemma is_shape_mmap {X Y} (f : X → Y) h w (m : matrix X) :
  Py.is_shape h w m → Py.is_shape h w (Py.mmap f m).
Proof.
  intros [Hl Hf]. split; [by unfold Py.mmap; rewrite length_fmap|].
  unfold Py.mmap. apply Forall_fmap. eapply Forall_impl; [exact Hf|].
  intros row Hrow. simpl. by rewrite length_fmap.
Qed.

Lemma at2_mmap {X Y} (f : X → Y) (m : matrix X) i j :
  Py.at2 (Py.mmap f m) i j = f <$> Py.at2 m i j.
Proof.
  unfold Py.at2, Py.mmap. rewrite list_lookup_fmap.
  destruct (m !! i) as [row|]; simpl; [|done]. by rewrite list_lookup_fmap.
Qed.

Lemma is_shape_flip {X} h w (m : matrix X) dims :
  Py.is_shape h w m → Py.is_shape h w (Predict.flip m dims).
Proof.
  intros Hs. unfold Predict.flip.
  assert (Py.is_shape h w (if decide (-2 ∈ dims) then reverse m else m)) as [Hl Hf].
  { case_decide; [|done]. destruct Hs as [Hl Hf]. split.
    - by rewrite length_reverse.
    - by apply Forall_reverse. }
  destruct (decide (-1 ∈ dims)); [|by split]. split; [by rewrite length_fmap|].
  apply Forall_fmap. eapply Forall_impl; [exact Hf|].
  intros row Hrow. simpl. by rewrite length_reverse.
Qed.

Lemma add_slice_spec g p t h w :
  Py.is_shape h w g →
  0 ≤ p.1.1 → p.1.1 < p.1.2 → p.1.2 ≤ Z.of_nat h →
  0 ≤ p.2.1 → p.2.1 < p.2.2 → p.2.2 ≤ Z.of_nat w →
  Py.is_shape (Z.to_nat (p.1.2 - p.1.1)) (Z.to_nat (p.2.2 - p.2.1)) t →
  ∃ g', Predict.add_slice zero add g p t = Some g' ∧ Py.is_shape h w g' ∧
    ∀ i j, Py.at2 g' i j =
      if decide (Planner.covers p (Z.of_nat i) (Z.of_nat j))
      then (λ a, add a (default zero
              (Py.at2 t (i - Z.to_nat p.1.1) (j - Z.to_nat p.2.1)))) <$> Py.at2 g i j
      else Py.at2 g i j.
Proof.
  intros Hs Hx0 Hx Hx1 Hy0 Hy Hy1 Ht. pose proof Hs as [Hl Hf].
  pose proof Ht as [Htl Htf].
  unfold Predict.add_slice. rewrite (is_shape_width h w g Hs) by lia. rewrite Hl.
  rewrite !slice_bound_in_range by lia.
  rewrite decide_True.
  2:{ split; [lia|]. eapply Forall_impl; [exact Htf|]. simpl. intros; lia. }
  eexists. split; [done|]. split.
  - split; [by rewrite length_imap|].
    apply Forall_lookup. intros i row Hrow.
    apply list_lookup_imap_Some in Hrow as (row' & Hrow' & ->).
    pose proof (Forall_lookup_1 _ _ _ _ Hf Hrow') as Hw.
    case_decide; [by rewrite length_imap|done].
  - intros i j. unfold Py.at2. rewrite list_lookup_imap.
    destruct (g !! i) as [row|] eqn:Hrow; simpl; [|by case_decide].
    unfold Planner.covers.
    destruct (decide (Z.to_nat p.1.1 ≤ i < Z.to_nat p.1.2)%nat) as [Hi|Hi].
    + rewrite list_lookup_imap. destruct (row !! j) as [a|] eqn:Ha; simpl.
      * destruct (decide (Z.to_nat p.2.1 ≤ j < Z.to_nat p.2.2)%nat) as [Hj|Hj].
        -- rewrite decide_True by lia. done.
        -- rewrite decide_False by lia. done.
      * by case_decide.
    + rewrite decide_False by lia. done.
Qed.

(** The loop on a dataset whose image has shape [H x W], with a kernel of
    shape [T x T] and a model that keeps the shape of a tile. *)
Section Loop.
Variables (ds : Predict.InferenceDataset (P:=P)) (tta : bool) (k : matrix A).
Variables H W T : nat.
Hypothesis image_shape : Py.is_shape H W (Predict.original_img ds).
Hypothesis kernel_shape : Py.is_shape T T k.
Hypothesis tile_positive : (0 < T)%nat.
Hypothesis infer_shape : ∀ tile, Py.is_shape T T tile → Py.is_shape T T (infer tile).

Let in_img := Planner.in_image (Z.of_nat H) (Z.of_nat W) (Z.of_nat T).

Lemma getitem_shape p : in_img p → Py.is_shape T T (Predict.getitem ds p).
Proof.
  intros (? & ? & ? & ? & ? & ?). unfold Predict.getitem.
  pose proof (slice2_shape H W (Predict.original_img ds) p.1.1 p.1.2 p.2.1 p.2.2
                image_shape) as Hs.
  replace (Z.to_nat (p.1.2 - p.1.1)) with T in Hs by lia.
  replace (Z.to_nat (p.2.2 - p.2.1)) with T in Hs by lia.
  apply Hs; lia.
Qed.

Lemma predict_tile_shape tile :
  Py.is_shape T T tile →
  ∃ pred, Predict.predict_tile add div of_Z infer tta tile = Some pred ∧
          Py.is_shape T T pred.
Proof.
  intros Ht. unfold Predict.predict_tile. destruct tta; [|eauto].
  assert (∀ f, Py.is_shape T T (Predict.flip (infer (Predict.flip tile f)) f)) as Hf.
  { intros f. by apply is_shape_flip, infer_shape, is_shape_flip. }
  unfold Predict.FLIPS. simpl.
  pose proof (infer_shape _ Ht) as H0.
  rewrite (map2_shape add T T) by done. simpl.
  pose proof (is_shape_zip_with add T T _ _ H0 (Hf [-1])) as H1.
  rewrite (map2_shape add T T) by done. simpl.
  pose proof (is_shape_zip_with add T T _ _ H1 (Hf [-2])) as H2.
  rewrite (map2_shape add T T) by done.
  pose proof (is_shape_zip_with add T T _ _ H2 (Hf [-2; -1])) as H3.
  eexists. split; [done|]. by apply is_shape_mmap.
Qed.

Lemma accumulate_from_spec ps gp0 gc0 :
  Py.is_shape H W gp0 → Py.is_shape H W gc0 →
  (∀ p, p ∈ ps → in_img p) →
  ∃ gp gc,
    Predict.accumulate_from zero add mul div of_Z infer ds tta k (Some (gp0, gc0)) ps
      = Some (gp, gc) ∧
    Py.is_shape H W gp ∧ Py.is_shape H W gc ∧
    ∀ i j,
      Py.at2 gp i j =
        (λ a, Predict.received zero add
                (Predict.weighted add mul div of_Z infer ds tta k) i j a ps)
          <$> Py.at2 gp0 i j ∧
      Py.at2 gc i j =
        (λ a, Predict.received zero add (λ _, k) i j a ps) <$> Py.at2 gc0 i j.
Proof.
  revert gp0 gc0. induction ps as [|p ps IH]; intros gp0 gc0 Hgp Hgc Hin.
  - exists gp0, gc0. split; [done|]. split; [done|]. split; [done|].
    intros i j. simpl. split; [by destruct (Py.at2 gp0 i j)|by destruct (Py.at2 gc0 i j)].
  - pose proof (Hin p ltac:(left)) as Hp.
    pose proof Hp as (? & ? & ? & ? & ? & ?).
    destruct (predict_tile_shape _ (getitem_shape p Hp)) as (pred & Hpred & Hps).
    pose proof (map2_shape mul T T pred k Hps kernel_shape) as Hmul.
    pose proof (is_shape_zip_with mul T T pred k Hps kernel_shape) as Hws.
    destruct (add_slice_spec gp0 p (zip_with (zip_with mul) pred k) H W)
      as (gp1 & Hgp1 & Hs1 & Hat1); [done|lia..| |].
    { by replace (Z.to_nat (p.1.2 - p.1.1)) with T by lia;
         replace (Z.to_nat (p.2.2 - p.2.1)) with T by lia. }
    destruct (add_slice_spec gc0 p k H W)
      as (gc1 & Hgc1 & Hs2 & Hat2); [done|lia..| |].
    { by replace (Z.to_nat (p.1.2 - p.1.1)) with T by lia;
         replace (Z.to_nat (p.2.2 - p.2.1)) with T by lia. }
    destruct (IH gp1 gc1 Hs1 Hs2) as (gp & gc & Hacc & Hsp & Hsc & Hat).
    { intros q Hq. apply Hin. by right. }
    exists gp, gc. split.
    { unfold Predict.accumulate_from in *. simpl. rewrite Hpred. simpl.
      unfold Predict.add_tile. rewrite Hmul. simpl. rewrite Hgp1, Hgc1. exact Hacc. }
    split; [done|]. split; [done|]. intros i j.
    destruct (Hat i j) as [Hp1 Hc1]. rewrite Hp1, Hc1, Hat1, Hat2.
    assert (Predict.weighted add mul div of_Z infer ds tta k p
            = zip_with (zip_with mul) pred k) as Hw.
    { unfold Predict.weighted. rewrite Hpred. simpl. by rewrite Hmul. }
    unfold Predict.received. simpl. rewrite Hw.
    case_decide; [|done].
    split; [by destruct (Py.at2 gp0 i j)|by destruct (Py.at2 gc0 i j)].
Qed.
End Loop.
End Accumulation.

(** ** Finalisation in binary16 *)

Section Rounding.
Variables prec emax : Z.

Lemma shr_1_nonneg mrs : 0 ≤ shr_m mrs → 0 ≤ shr_m (shr_1 mrs).
Proof. destruct mrs as [[|[m|m|]|[m|m|]] r s0]; simpl; lia. Qed.

Lemma iter_shr_1_nonneg n mrs : 0 ≤ shr_m mrs → 0 ≤ shr_m (SpecFloat.iter_pos shr_1 n mrs).
Proof.
  revert mrs. induction n as [n IH|n IH|]; intros mrs Hm; simpl.
  - apply IH, IH. by apply shr_1_nonneg.
  - by apply IH, IH.
  - by apply shr_1_nonneg.
Qed.

Lemma shr_record_of_loc_m m l : shr_m (shr_record_of_loc m l) = m.
Proof. by destruct l as [|[]]. Qed.

Lemma shr_fexp_nonneg m e l : 0 ≤ m → 0 ≤ shr_m (shr_fexp prec emax m e l).1.
Proof.
  intros Hm. unfold shr_fexp, shr.
  destruct (fexp prec emax (Zdigits2 m + e) - e) as [|n|n]; simpl;
    rewrite ?shr_record_of_loc_m; try done.
  apply iter_shr_1_nonneg. by rewrite shr_record_of_loc_m.
Qed.

Lemma round_nearest_even_nonneg m l : 0 ≤ m → 0 ≤ round_nearest_even m l.
Proof. intros Hm. destruct l as [|[]]; simpl; try done; [destruct (Z.even m)|]; lia. Qed.

Lemma binary_round_aux_not_nan sx mx ex lx :
  0 ≤ mx → binary_round_aux prec emax sx mx ex lx ≠ S754_nan.
Proof.
  intros Hm. unfold binary_round_aux.
  pose proof (shr_fexp_nonneg mx ex lx Hm) as H1.
  destruct (shr_fexp prec emax mx ex lx) as [mrs' e']. simpl in H1.
  pose proof (shr_fexp_nonneg _ e' loc_Exact
                (round_nearest_even_nonneg _ (loc_of_shr_record mrs') H1)) as H2.
  destruct (shr_fexp prec emax _ e' loc_Exact) as [mrs'' e'']. simpl in H2.
  destruct (shr_m mrs'') as [|m|m]; [done| |lia].
  by destruct (e'' <=? emax - prec).
Qed.

Lemma SFdiv_core_binary_nonneg mx ex my ey :
  0 ≤ (SFdiv_core_binary prec emax (Z.pos mx) ex (Z.pos my) ey).1.1.
Proof.
  unfold SFdiv_core_binary.
  set (e' := Z.min _ _). set (sh := ex - ey - e').
  set (m' := match sh with Z.pos _ => Z.shiftl (Z.pos mx) sh | 0 => Z.pos mx | _ => 0 end).
  assert (0 ≤ m') as Hm'.
  { subst m'. destruct sh eqn:E; try lia. apply Z.shiftl_nonneg. lia. }
  pose proof (Z.div_eucl_eq m' (Z.pos my) ltac:(lia)) as Hq.
  pose proof (Z.mod_pos_bound m' (Z.pos my) ltac:(lia)) as Hr.
  unfold Z.modulo in Hr.
  destruct (Z.div_eucl m' (Z.pos my)) as [q r]. simpl. nia.
Qed.

Lemma SFdiv_not_nan x y :
  Predict.is_finite_nonzero y = true → Predict.is_nan x = false →
  Predict.is_nan (SFdiv prec emax x y) = false.
Proof.
  destruct y as [| | |sy my ey]; try done. intros _.
  destruct x as [sx|sx| |sx mx ex]; try done. intros _. simpl.
  pose proof (SFdiv_core_binary_nonneg mx ex my ey) as Hq.
  destruct (SFdiv_core_binary prec emax (Z.pos mx) ex (Z.pos my) ey) as [[mz ez] lz].
  simpl in Hq. pose proof (binary_round_aux_not_nan (xorb sx sy) mz ez lz Hq) as Hn.
  by destruct (binary_round_aux prec emax (xorb sx sy) mz ez lz).
Qed.
End Rounding.

Lemma finalize_at {A} (div : A → A → A) (gp gc : matrix A) i j :
  Py.at2 (Predict.finalize div (gp, gc)) i j =
    match Py.at2 gp i j, Py.at2 gc i j with
    | Some s, Some w => Some (div s w)
    | _, _ => None
    end.
Proof. unfold Predict.finalize. simpl. apply at2_zip_with. Qed.

(** C1, as stated, fails: a pixel that no tile has touched holds 0 in both
    buffers, and the division of line 97 makes it NaN, where the floored
    division of the specification gives 0. *)
Lemma finalize_uncovered_counterexample :
  let st := (Predict.zeros Predict.half_zero 1 1, Predict.zeros Predict.half_zero 1 1) in
  Py.at2 st.2 0 0 = Some (S754_zero false) ∧
  Py.at2 (Predict.finalize_half st) 0 0 = Some S754_nan ∧
  Py.at2 (Predict.finalize_spec_half Predict.half_tiny st) 0 0 = Some (S754_zero false).
Proof. by vm_compute. Qed.

(** C1 (amended): for every accumulator state, the finalize step divides
    [sum] by [weight_total] elementwise, with no floor on the denominator
    (binary16 division).  A pixel whose [weight_total] and [sum] are both
    zero, as for a pixel no tile covers, is NaN in the returned map; a pixel
    whose [weight_total] is finite and not zero and whose [sum] is not NaN
    is not NaN. *)
Theorem finalize_divides_unfloored (gp gc : matrix Predict.half) i j s w :
  Py.at2 gp i j = Some s → Py.at2 gc i j = Some w →
  Py.at2 (Predict.finalize_half (gp, gc)) i j = Some (Predict.half_div s w) ∧
  (Predict.is_zero w = true → Predict.is_zero s = true →
     Predict.half_div s w = S754_nan) ∧
  (Predict.is_finite_nonzero w = true → Predict.is_nan s = false →
     Predict.is_nan (Predict.half_div s w) = false).
Proof.
  intros Hs Hw. split; [|split].
  - unfold Predict.finalize_half. by rewrite finalize_at, Hs, Hw.
  - by destruct w, s.
  - apply SFdiv_not_nan.
Qed.

Lemma finalize_divides_unfloored_witness :
  let gp := [[S754_zero false; S754_finite false 3 0]] in
  let gc := [[S754_zero false; S754_finite false 1 2]] in
  (Py.at2 gp 0 1 = Some (S754_finite false 3 0) ∧
   Py.at2 gc 0 1 = Some (S754_finite false 1 2)) ∧
  Py.at2 (Predict.finalize_half (gp, gc)) 0 1
    = Some (Predict.half_div (S754_finite false 3 0) (S754_finite false 1 2)) ∧
  (Predict.is_zero (S754_finite false 1 2) = true →
   Predict.is_zero (S754_finite false 3 0) = true →
     Predict.half_div (S754_finite false 3 0) (S754_finite false 1 2) = S754_nan) ∧
  (Predict.is_finite_nonzero (S754_finite false 1 2) = true →
   Predict.is_nan (S754_finite false 3 0) = false →
     Predict.is_nan (Predict.half_div (S754_finite false 3 0) (S754_finite false 1 2))
       = false).
Proof.
  intros gp gc. split; [split; reflexivity|].
  apply (finalize_divides_unfloored gp gc 0 1); reflexivity.
Defined.


(** ** Rounding: [np.rint], [np.round] and the cast to binary16 *)

Section RoundingQ.
Local Open Scope Q_scope.

Lemma rint_near q : q - (1 # 2) <= inject_Z (Py.rint q) <= q + (1 # 2).
Proof.
  unfold Py.rint. pose proof (Qfloor_le q) as Hlo. pose proof (Qlt_floor q) as Hhi.
  rewrite inject_Z_plus in Hhi. change (inject_Z 1) with 1 in Hhi.
  destruct (q - inject_Z (Qfloor q) ?= 1 # 2) eqn:E.
  - apply Qeq_alt in E. destruct (Z.even (Qfloor q));
      rewrite ?inject_Z_plus; change (inject_Z 1) with 1; lra.
  - apply Qlt_alt in E. lra.
  - apply Qgt_alt in E. rewrite inject_Z_plus. change (inject_Z 1) with 1. lra.
Qed.

Lemma rint_ge (k : Z) q : inject_Z k <= q → (k ≤ Py.rint q)%Z.
Proof.
  intros H. destruct (rint_near q) as [Hlo _].
  assert (inject_Z (k - 1) < inject_Z (Py.rint q)) as Hlt.
  { unfold Zminus. rewrite inject_Z_plus, inject_Z_opp. change (inject_Z 1) with 1. lra. }
  rewrite <- Zlt_Qlt in Hlt. lia.
Qed.

Lemma rint_le (k : Z) q : q <= inject_Z k → (Py.rint q ≤ k)%Z.
Proof.
  intros H. destruct (rint_near q) as [_ Hhi].
  assert (inject_Z (Py.rint q) < inject_Z (k + 1)) as Hlt.
  { rewrite inject_Z_plus. change (inject_Z 1) with 1. lra. }
  rewrite <- Zlt_Qlt in Hlt. lia.
Qed.

Lemma rint_gt_half (k : Z) q : inject_Z k + (1 # 2) < q → (k + 1 ≤ Py.rint q)%Z.
Proof.
  intros H. destruct (rint_near q) as [Hlo _].
  assert (inject_Z k < inject_Z (Py.rint q)) as Hlt by lra.
  rewrite <- Zlt_Qlt in Hlt. lia.
Qed.

Lemma rint_Z (k : Z) q : q == inject_Z k → Py.rint q = k.
Proof.
  intros H. apply Z.le_antisymm; [apply rint_le|apply rint_ge]; rewrite H; apply Qle_refl.
Qed.

Lemma round_3_bounds q : (1 # 1000) <= q <= 1 → (1 # 1000) <= Py.round q 3 <= 1.
Proof.
  intros [Hlo Hhi]. unfold Py.round. change (inject_Z (10 ^ 3)) with 1000.
  assert (1 ≤ Py.rint (q * 1000) ≤ 1000)%Z as [H1 H2].
  { split; [apply rint_ge|apply rint_le].
    - change (inject_Z 1) with 1. lra.
    - change (inject_Z 1000) with 1000. lra. }
  rewrite Zle_Qle in H1. rewrite Zle_Qle in H2. change (inject_Z 1) with 1 in H1.
  change (inject_Z 1000) with 1000 in H2.
  split; [apply Qle_shift_div_l|apply Qle_shift_div_r]; lra.
Qed.

Lemma round_3_one q : q == 1 → Py.round q 3 == 1.
Proof.
  intros H. unfold Py.round. change (inject_Z (10 ^ 3)) with 1000.
  rewrite (rint_Z 1000) by (rewrite H; reflexivity). reflexivity.
Qed.
Lemma pow2_sub (a b : Z) : (0 ≤ a)%Z → (0 ≤ b)%Z →
  2 ^ (a - b) == inject_Z (2 ^ a) / inject_Z (2 ^ b).
Proof.
  intros Ha Hb. rewrite Qpower_minus by done. by rewrite !Zpower_Qpower.
Qed.

Lemma frac_lt (n d u v : Q) : 0 < d → 0 < v → n * v < u * d → n / d < u / v.
Proof.
  intros Hd Hv H. apply Qlt_shift_div_l; [done|].
  assert (n / d * v == n * v / d) as E by (field; lra). setoid_rewrite E.
  by apply Qlt_shift_div_r.
Qed.

Lemma frac_le (n d u v : Q) : 0 < d → 0 < v → n * v <= u * d → n / d <= u / v.
Proof.
  intros Hd Hv H. apply Qle_shift_div_l; [done|].
  assert (n / d * v == n * v / d) as E by (field; lra). setoid_rewrite E.
  by apply Qle_shift_div_r.
Qed.

Lemma binade_spec q : 0 < q → 2 ^ Py.binade q <= q ∧ q < 2 ^ (Py.binade q + 1).
Proof.
  intros Hq. unfold Py.binade. destruct q as [n d]. cbn [Qnum Qden].
  assert (0 < n)%Z as Hn by (unfold Qlt in Hq; simpl in Hq; lia).
  pose proof (Z.log2_spec n Hn) as [Ha1 Ha2].
  pose proof (Z.log2_spec (Z.pos d) ltac:(lia)) as [Hb1 Hb2].
  pose proof (Z.log2_nonneg n) as Ha0. pose proof (Z.log2_nonneg (Z.pos d)) as Hb0.
  set (a := Z.log2 n) in *. set (b := Z.log2 (Z.pos d)) in *.
  rewrite Z.pow_succ_r in Ha2 by done. rewrite Z.pow_succ_r in Hb2 by done.
  assert (0 < 2 ^ a)%Z as Hpa' by (apply Z.pow_pos_nonneg; lia).
  assert (0 < 2 ^ b)%Z as Hpb' by (apply Z.pow_pos_nonneg; lia).
  assert (inject_Z (2 ^ a) <= inject_Z n) as Ha1' by (rewrite <- Zle_Qle; lia).
  assert (inject_Z (2 ^ b) <= inject_Z (Z.pos d)) as Hb1' by (rewrite <- Zle_Qle; lia).
  assert (inject_Z n < 2 * inject_Z (2 ^ a)) as Ha2'.
  { change 2 with (inject_Z 2). rewrite <- inject_Z_mult, <- Zlt_Qlt. lia. }
  assert (inject_Z (Z.pos d) < 2 * inject_Z (2 ^ b)) as Hb2'.
  { change 2 with (inject_Z 2). rewrite <- inject_Z_mult, <- Zlt_Qlt. lia. }
  assert (0 < inject_Z (2 ^ a)) as Hpa by (change 0 with (inject_Z 0); rewrite <- Zlt_Qlt; lia).
  assert (0 < inject_Z (2 ^ b)) as Hpb by (change 0 with (inject_Z 0); rewrite <- Zlt_Qlt; lia).
  clear Ha1 Ha2 Hb1 Hb2.
  assert (0 < inject_Z (Z.pos d)) as HD by (change 0 with (inject_Z 0); rewrite <- Zlt_Qlt; lia).
  assert (n # d == inject_Z n / inject_Z (Z.pos d)) as Hnd by apply Qmake_Qdiv.
  set (N := inject_Z n) in *. set (D := inject_Z (Z.pos d)) in *.
  set (PA := inject_Z (2 ^ a)) in *. set (PB := inject_Z (2 ^ b)) in *.
  assert (2 ^ (a - b + 1) == (2 * PA) / PB) as E1.
  { replace (a - b + 1)%Z with ((a + 1) - b)%Z by lia. rewrite pow2_sub by lia.
    rewrite Z.pow_add_r, inject_Z_mult by lia. fold PA PB.
    change (inject_Z (2 ^ 1)) with 2. field. lra. }
  assert (2 ^ (a - b - 1) == PA / (2 * PB)) as E2.
  { replace (a - b - 1)%Z with (a - (b + 1))%Z by lia. rewrite pow2_sub by lia.
    rewrite Z.pow_add_r, inject_Z_mult by lia. fold PA PB.
    change (inject_Z (2 ^ 1)) with 2. field. lra. }
  destruct (Qle_bool (2 ^ (a - b)) (n # d)) eqn:E.
  - apply Qle_bool_iff in E. split; [exact E|]. setoid_rewrite E1. setoid_rewrite Hnd.
    apply frac_lt; [exact HD|exact Hpb|]. nra.
  - assert (n # d < 2 ^ (a - b)) as Hlt.
    { apply Qnot_le_lt. intros H. apply Qle_bool_iff in H. congruence. }
    replace (a - b - 1 + 1)%Z with (a - b)%Z by lia. split; [|exact Hlt].
    setoid_rewrite E2. setoid_rewrite Hnd. apply frac_le; [lra|exact HD|]. nra.
Qed.
Lemma rint_scaled_bounds q u (lo hi : Z) :
  0 < u → inject_Z lo * u <= q → q <= inject_Z hi * u →
  inject_Z lo <= inject_Z (Py.rint (q / u)) <= inject_Z hi.
Proof.
  intros Hu Hlo Hhi. split; rewrite <- Zle_Qle.
  - apply rint_ge. by apply Qle_shift_div_l.
  - apply rint_le. by apply Qle_shift_div_r.
Qed.

Lemma rint_scaled_above q u (lo : Z) :
  0 < u → (inject_Z lo + (1 # 2)) * u < q →
  inject_Z lo + 1 <= inject_Z (Py.rint (q / u)).
Proof.
  intros Hu Hlo. change 1 with (inject_Z 1). rewrite <- inject_Z_plus, <- Zle_Qle.
  apply rint_gt_half. by apply Qlt_shift_div_l.
Qed.

Lemma binade_range q : (1 # 1000) <= q <= 1 → (-10 ≤ Py.binade q ≤ 0)%Z.
Proof.
  intros [Hlo Hhi]. destruct (binade_spec q) as [L U]; [lra|].
  split.
  - destruct (Z_le_gt_dec (-10) (Py.binade q)) as [|Hlt]; [done|]. exfalso.
    pose proof (Qpower_le_compat_l 2 (Py.binade q + 1) (-10) ltac:(lia) ltac:(lra)) as M.
    change (2 ^ (-10)) with (1 # 1024) in M.
    set (X := 2 ^ (Py.binade q + 1)) in *. lra.
  - destruct (Z_le_gt_dec (Py.binade q) 0) as [|Hgt]; [done|]. exfalso.
    pose proof (Qpower_le_compat_l 2 1 (Py.binade q) ltac:(lia) ltac:(lra)) as M.
    change (2 ^ 1) with 2 in M.
    set (X := 2 ^ Py.binade q) in *. lra.
Qed.

Lemma half_magnitude_bounds q :
  (1 # 1000) <= q <= 1 → (1 # 1000) <= Py.half_magnitude q <= 1.
Proof.
  intros Hq. pose proof (binade_range q Hq) as He. destruct Hq as [Hlo Hhi].
  destruct (binade_spec q) as [L U]; [lra|]. unfold Py.half_magnitude.
  assert (Py.binade q = -10 ∨ -9 ≤ Py.binade q ≤ -1 ∨ Py.binade q = 0)%Z
    as [E|[E|E]] by lia.
  - rewrite E in L, U |- *. change (2 ^ (Z.max (-10) (-14) - 10)) with (1 # 1048576).
    change (2 ^ (-10)) with (1 # 1024) in L. change (2 ^ (-10 + 1)) with (1 # 512) in U.
    pose proof (rint_scaled_above q (1 # 1048576) 1048) as H1.
    pose proof (rint_scaled_bounds q (1 # 1048576) 1024 2048) as H2.
    unfold inject_Z at 1 in H1. unfold inject_Z at 1 2 in H2.
    specialize (H1 ltac:(lra) ltac:(lra)).
    destruct H2 as [_ H2]; [lra..|].
    change (inject_Z 1048) with 1048 in H1. change (inject_Z 2048) with 2048 in H2. lra.
  - assert (∃ c, Py.binade q = c ∧ (-9 ≤ c ≤ -1)%Z) as (c & Ec & Hc) by eauto.
    rewrite Ec in L, U |- *.
    assert (c = -9 ∨ c = -8 ∨ c = -7 ∨ c = -6 ∨ c = -5 ∨ c = -4 ∨ c = -3 ∨ c = -2 ∨ c = -1)%Z
      as Hcases by lia.
    destruct Hcases as [-> | [-> | [-> | [-> | [-> | [-> | [-> | [-> | -> ]]]]]]]];
      match goal with
      | |- context [2 ^ (Z.max ?k (-14) - 10)] =>
        let u := eval vm_compute in (2 ^ (Z.max k (-14) - 10)) in
        let l := eval vm_compute in (2 ^ k) in
        let h := eval vm_compute in (2 ^ (k + 1)) in
        change (2 ^ (Z.max k (-14) - 10)) with u;
        change (2 ^ k) with l in L; change (2 ^ (k + 1)) with h in U;
        destruct (rint_scaled_bounds q u 1024 2048) as [H1 H2];
          [unfold inject_Z; lra..|];
        change (inject_Z 1024) with 1024 in H1; change (inject_Z 2048) with 2048 in H2; lra
      end.
  - rewrite E in L, U |- *. change (2 ^ (Z.max 0 (-14) - 10)) with (1 # 1024).
    change (2 ^ 0) with 1 in L.
    destruct (rint_scaled_bounds q (1 # 1024) 1024 1024) as [H1 H2];
      [unfold inject_Z; lra..|].
    change (inject_Z 1024) with 1024 in H1. change (inject_Z 1024) with 1024 in H2. lra.
Qed.

Lemma to_half_bounds q : (1 # 1000) <= q <= 1 → (1 # 1000) <= Py.to_half q <= 1.
Proof.
  intros Hq. unfold Py.to_half.
  assert (0 < q) as Hpos by lra. apply Qgt_alt in Hpos. rewrite Hpos.
  by apply half_magnitude_bounds.
Qed.

Lemma to_half_one q : q == 1 → Py.to_half q == 1.
Proof.
  intros Hq. assert ((1 # 1000) <= q <= 1) as Hb by lra.
  pose proof (to_half_bounds q Hb) as [_ Hle]. apply Qle_antisym; [done|].
  unfold Py.to_half. assert (0 < q) as Hpos by lra. apply Qgt_alt in Hpos. rewrite Hpos.
  unfold Py.half_magnitude. destruct (binade_spec q) as [L U]; [lra|].
  pose proof (binade_range q Hb) as He.
  assert (Py.binade q = 0%Z) as E.
  { destruct (Z_le_gt_dec 0 (Py.binade q)) as [|Hlt]; [lia|]. exfalso.
    pose proof (Qpower_le_compat_l 2 (Py.binade q + 1) 0 ltac:(lia) ltac:(lra)) as M.
    change (2 ^ 0) with 1 in M. set (X := 2 ^ (Py.binade q + 1)) in *. lra. }
  rewrite E. change (2 ^ (Z.max 0 (-14) - 10)) with (1 # 1024).
  destruct (rint_scaled_bounds q (1 # 1024) 1024 1024) as [H1 H2];
    [unfold inject_Z; lra..|].
  change (inject_Z 1024) with 1024 in H1. lra.
Qed.
End RoundingQ.


(** ** Arrays given entry by entry *)

Section Tabulate.
Context {A : Type}.

Lemma tabulate_lookup n (f : nat → nat → A) i :
  (i < n)%nat → Py.tabulate n f !! i = Some (f i <$> seq 0 n).
Proof.
  intros Hi. unfold Py.tabulate. rewrite list_lookup_fmap.
  by rewrite (proj2 (lookup_seq 0 n i i)).
Qed.

Lemma at2_tabulate n (f : nat → nat → A) i j :
  (i < n)%nat → (j < n)%nat → Py.at2 (Py.tabulate n f) i j = Some (f i j).
Proof.
  intros Hi Hj. unfold Py.at2. rewrite tabulate_lookup by done. simpl.
  rewrite list_lookup_fmap. by rewrite (proj2 (lookup_seq 0 n j j)).
Qed.

Lemma is_shape_tabulate n (f : nat → nat → A) : Py.is_shape n n (Py.tabulate n f).
Proof.
  unfold Py.tabulate. split; [by rewrite length_fmap, length_seq|].
  apply Forall_fmap, Forall_forall. intros i _. simpl. by rewrite length_fmap, length_seq.
Qed.

Lemma tabulate_ext n (f g : nat → nat → A) :
  (∀ i j, (i < n)%nat → (j < n)%nat → f i j = g i j) → Py.tabulate n f = Py.tabulate n g.
Proof.
  intros H. unfold Py.tabulate. apply list_fmap_ext. intros k i Hi%lookup_seq.
  apply list_fmap_ext. intros k' j Hj%lookup_seq. apply H; lia.
Qed.

Lemma eq_tabulate n (f : nat → nat → A) (m : matrix A) :
  Py.is_shape n n m →
  (∀ i j, (i < n)%nat → (j < n)%nat → Py.at2 m i j = Some (f i j)) →
  m = Py.tabulate n f.
Proof.
  intros [Hl Hf] H. apply list_eq. intros i.
  destruct (decide (i < n)%nat) as [Hi|Hi].
  - rewrite tabulate_lookup by done.
    destruct (lookup_lt_is_Some_2 m i ltac:(lia)) as [row Hrow]. rewrite Hrow. f_equal.
    pose proof (Forall_lookup_1 _ _ _ _ Hf Hrow) as Hw. simpl in Hw.
    apply list_eq. intros j. rewrite list_lookup_fmap.
    destruct (decide (j < n)%nat) as [Hj|Hj].
    + specialize (H i j Hi Hj). unfold Py.at2 in H. rewrite Hrow in H. simpl in H.
      rewrite H. by rewrite (proj2 (lookup_seq 0 n j j)).
    + rewrite !lookup_ge_None_2; [done|rewrite ?length_seq; lia..].
  - rewrite !lookup_ge_None_2; [done|rewrite ?(proj1 (is_shape_tabulate n f)); lia..].
Qed.

Lemma mmap_tabulate {B} (g : A → B) n (f : nat → nat → A) :
  Py.mmap g (Py.tabulate n f) = Py.tabulate n (λ i j, g (f i j)).
Proof.
  unfold Py.mmap, Py.tabulate. rewrite <- list_fmap_compose. apply list_fmap_ext.
  intros _ i _. simpl. by rewrite <- list_fmap_compose.
Qed.

Lemma elem_of_concat (ls : matrix A) x : x ∈ concat ls ↔ ∃ l, x ∈ l ∧ l ∈ ls.
Proof.
  induction ls as [|l ls IH]; simpl.
  - split; [by intros ?%elem_of_nil|by intros (l & _ & ?%elem_of_nil)].
  - rewrite elem_of_app, IH. split.
    + intros [Hx|(l' & Hx & Hl')]; [exists l; split; [done|left]|].
      exists l'. split; [done|by right].
    + intros (l' & Hx & [->|Hl']%elem_of_cons); [by left|right; eauto].
Qed.

Lemma elem_of_concat_tabulate n (f : nat → nat → A) x :
  x ∈ concat (Py.tabulate n f) ↔ ∃ i j, (i < n)%nat ∧ (j < n)%nat ∧ x = f i j.
Proof.
  rewrite elem_of_concat. split.
  - intros (row & Hx & Hrow). unfold Py.tabulate in Hrow.
    apply list_elem_of_fmap in Hrow as (i & -> & Hi%elem_of_seq).
    apply list_elem_of_fmap in Hx as (j & -> & Hj%elem_of_seq).
    exists i, j. repeat split; lia.
  - intros (i & j & Hi & Hj & ->). exists (f i <$> seq 0 n). split.
    + apply list_elem_of_fmap. exists j. split; [done|]. apply elem_of_seq. lia.
    + unfold Py.tabulate. apply list_elem_of_fmap. exists i. split; [done|].
      apply elem_of_seq. lia.
Qed.

Lemma reverse_fmap_seq {B} n (f : nat → B) :
  reverse (f <$> seq 0 n) = (λ i, f (n - 1 - i)%nat) <$> seq 0 n.
Proof.
  apply list_eq. intros i. destruct (decide (i < n)%nat) as [Hi|Hi].
  - rewrite reverse_lookup by (rewrite length_fmap, length_seq; lia).
    rewrite length_fmap, length_seq, !list_lookup_fmap.
    rewrite (proj2 (lookup_seq 0 n (n - S i) (n - S i))) by lia.
    rewrite (proj2 (lookup_seq 0 n i i)) by lia. simpl. do 2 f_equal. lia.
  - rewrite !lookup_ge_None_2; [done|rewrite ?length_reverse, length_fmap, length_seq; lia..].
Qed.

(** The reduction of a non-empty array by an operation that returns one of
    its arguments is one of the entries. *)
Lemma foldl_select (op : A → A → A) (l : list A) a :
  (∀ x y, op x y = x ∨ op x y = y) → foldl op a l ∈ a :: l.
Proof.
  intros Hop. revert a. induction l as [|b l IH]; intros a; simpl; [left|].
  specialize (IH (op a b)). destruct (Hop a b) as [E|E]; rewrite E in IH |- *.
  - apply elem_of_cons in IH as [->|IH]; [left|right; by right].
  - by right.
Qed.

Lemma reduce_select (op : A → A → A) (m : matrix A) r :
  (∀ x y, op x y = x ∨ op x y = y) → Py.reduce op m = Some r → r ∈ concat m.
Proof.
  intros Hop. unfold Py.reduce. destruct (concat m) as [|a l]; [done|].
  intros [= <-]. by apply foldl_select.
Qed.

(** and it bounds every entry, for a preorder [le] in which [op] is an
    upper bound of its arguments. *)
Lemma foldl_bound (le : A → A → Prop) (op : A → A → A) (l : list A) a :
  (∀ x, le x x) → (∀ x y z, le x y → le y z → le x z) →
  (∀ x y, le x (op x y) ∧ le y (op x y)) →
  ∀ x, x ∈ a :: l → le x (foldl op a l).
Proof.
  intros Hrefl Htrans Hop. revert a. induction l as [|b l IH]; intros a x Hx; simpl.
  - apply list_elem_of_singleton in Hx as ->. apply Hrefl.
  - apply elem_of_cons in Hx as [->|Hx].
    + eapply Htrans; [apply (Hop a b)|]. apply IH. left.
    + apply elem_of_cons in Hx as [->|Hx].
      * eapply Htrans; [apply (Hop a b)|]. apply IH. left.
      * apply IH. by right.
Qed.

Lemma reduce_bound (le : A → A → Prop) (op : A → A → A) (m : matrix A) r :
  (∀ x, le x x) → (∀ x y z, le x y → le y z → le x z) →
  (∀ x y, le x (op x y) ∧ le y (op x y)) →
  Py.reduce op m = Some r → ∀ x, x ∈ concat m → le x r.
Proof.
  intros Hrefl Htrans Hop. unfold Py.reduce. destruct (concat m) as [|a l]; [done|].
  intros [= <-] x Hx. by apply (foldl_bound le op).
Qed.

Lemma reduce_is_Some (op : A → A → A) n (f : nat → nat → A) :
  (0 < n)%nat → is_Some (Py.reduce op (Py.tabulate n f)).
Proof.
  intros Hn. unfold Py.reduce.
  destruct (concat (Py.tabulate n f)) as [|a l] eqn:E; [|eauto].
  assert (f 0%nat 0%nat ∈ concat (Py.tabulate n f)) as Hin.
  { apply elem_of_concat_tabulate. exists 0%nat, 0%nat. repeat split; lia. }
  rewrite E in Hin. by apply elem_of_nil in Hin.
Qed.
End Tabulate.


(** ** The weighting kernel, entry by entry *)

Section KernelEntries.
Variable half : Z.
Hypothesis half_positive : 1 ≤ half.
Let n := Z.to_nat (2 * half).

Lemma profile_length : length (Kernel.profile half) = n.
Proof.
  unfold Kernel.profile, Py.mgrid. rewrite length_fmap, length_app, !length_seqZ.
  subst n. lia.
Qed.

Lemma profile_lookup i :
  (i < n)%nat → Kernel.profile half !! i = Some (Kernel.edge_distance half i).
Proof.
  intros Hi. subst n. unfold Kernel.profile, Py.mgrid, Kernel.edge_distance.
  rewrite list_lookup_fmap. case_decide.
  - rewrite lookup_app_l by (rewrite length_seqZ; lia).
    rewrite lookup_seqZ_lt by lia. simpl. f_equal. lia.
  - rewrite lookup_app_r by (rewrite length_seqZ; lia).
    rewrite length_seqZ, lookup_seqZ_lt by lia. simpl. f_equal. lia.
Qed.

Lemma edge_distance_bounds i :
  (i < n)%nat → 1 ≤ Kernel.edge_distance half i ≤ half.
Proof. intros Hi. subst n. unfold Kernel.edge_distance. case_decide; lia. Qed.

Lemma edge_distance_top i :
  (i < n)%nat →
  Kernel.edge_distance half i = half ↔ Z.of_nat i = half - 1 ∨ Z.of_nat i = half.
Proof. intros Hi. subst n. unfold Kernel.edge_distance. case_decide; lia. Qed.

Lemma edge_distance_mirror i :
  (i < n)%nat → Kernel.edge_distance half (n - 1 - i) = Kernel.edge_distance half i.
Proof. intros Hi. subst n. unfold Kernel.edge_distance. repeat case_decide; lia. Qed.

Let pyramid := Kernel.pyramid half.

Lemma distance_field :
  let x := Py.tile_columns (Kernel.profile half) n in
  zip_with (zip_with Z.min) x (Py.transpose n x) = Py.tabulate n pyramid.
Proof.
  intros x.
  assert (Py.is_shape n n x) as Hx.
  { subst x. unfold Py.tile_columns. split.
    - by rewrite length_fmap, profile_length.
    - apply Forall_fmap, Forall_forall. intros v _. simpl. by rewrite length_replicate. }
  assert (∀ i j, (i < n)%nat → (j < n)%nat →
            Py.at2 x i j = Some (Kernel.edge_distance half i)) as Hxat.
  { intros i j Hi Hj. subst x. unfold Py.at2, Py.tile_columns.
    rewrite list_lookup_fmap, profile_lookup by done. simpl.
    by rewrite lookup_replicate_2. }
  assert (Py.is_shape n n (Py.transpose n x)) as Hy.
  { unfold Py.transpose. split; [by rewrite length_fmap, length_seq|].
    apply Forall_fmap, Forall_forall. intros j _. simpl. rewrite length_fmap. apply Hx. }
  assert (∀ i j, (i < n)%nat → (j < n)%nat →
            Py.at2 (Py.transpose n x) i j = Some (Kernel.edge_distance half j)) as Hyat.
  { intros i j Hi Hj. unfold Py.at2, Py.transpose.
    rewrite list_lookup_fmap, (proj2 (lookup_seq 0 n i i)) by lia. simpl.
    rewrite list_lookup_fmap.
    specialize (Hxat j i Hj Hi). unfold Py.at2 in Hxat.
    destruct (x !! j) as [row|]; [|done]. simpl in *. by rewrite Hxat. }
  apply eq_tabulate.
  - by apply is_shape_zip_with.
  - intros i j Hi Hj. rewrite at2_zip_with, Hxat, Hyat by done. done.
Qed.

Lemma pyramid_bounds i j : (i < n)%nat → (j < n)%nat → 1 ≤ pyramid i j ≤ half.
Proof.
  intros Hi Hj. unfold pyramid, Kernel.pyramid.
  pose proof (edge_distance_bounds i Hi). pose proof (edge_distance_bounds j Hj). lia.
Qed.

Lemma pyramid_top i j :
  (i < n)%nat → (j < n)%nat →
  pyramid i j = half ↔
    (Z.of_nat i = half - 1 ∨ Z.of_nat i = half) ∧ (Z.of_nat j = half - 1 ∨ Z.of_nat j = half).
Proof.
  intros Hi Hj. unfold pyramid, Kernel.pyramid.
  pose proof (edge_distance_bounds i Hi). pose proof (edge_distance_bounds j Hj).
  rewrite <- (edge_distance_top i Hi), <- (edge_distance_top j Hj). lia.
Qed.

Lemma pyramid_max : Py.reduce Z.max (Py.tabulate n pyramid) = Some half.
Proof.
  assert (0 < n)%nat as Hn by (subst n; lia).
  destruct (reduce_is_Some Z.max n pyramid Hn) as [r Hr]. rewrite Hr. f_equal.
  apply Z.le_antisymm.
  - apply (reduce_select Z.max) in Hr; [|intros x y; lia].
    apply elem_of_concat_tabulate in Hr as (i & j & Hi & Hj & ->).
    by apply pyramid_bounds.
  - apply (reduce_bound Z.le Z.max _ _ ltac:(lia) ltac:(lia) ltac:(lia) Hr).
    apply elem_of_concat_tabulate. exists (Z.to_nat (half - 1)), (Z.to_nat (half - 1)).
    assert (Z.to_nat (half - 1) < n)%nat as Hc by (subst n; lia).
    split; [done|]. split; [done|]. symmetry. apply pyramid_top; lia.
Qed.
End KernelEntries.


Section KernelValues.
Local Open Scope Q_scope.
Variable half : Z.
Hypothesis half_positive : (1 ≤ half)%Z.
Let n := Z.to_nat (2 * half).
Let pyramid := Kernel.pyramid half.

Lemma Qmax_select x y : Qmax x y = x ∨ Qmax x y = y.
Proof. unfold Qmax, GenericMinMax.gmax. destruct (x ?= y); auto. Qed.

Lemma Qmin_select x y : Qmin x y = x ∨ Qmin x y = y.
Proof. unfold Qmin, GenericMinMax.gmin. destruct (x ?= y); auto. Qed.

Lemma half_positive_Q : 0 < inject_Z half.
Proof. change 0 with (inject_Z 0). rewrite <- Zlt_Qlt. lia. Qed.

Lemma normalise_value v :
  (1 ≤ v ≤ half)%Z →
  Kernel.normalise half 1 v == inject_Z v / inject_Z half ∧
  0 < Kernel.normalise half 1 v <= 1.
Proof.
  intros Hv. pose proof half_positive_Q as Hh. unfold Kernel.normalise.
  change ((inject_Z v / inject_Z half) ^ 1) with (inject_Z v / inject_Z half).
  assert (0 < inject_Z v) as Hv0 by (change 0 with (inject_Z 0); rewrite <- Zlt_Qlt; lia).
  assert (inject_Z v <= inject_Z half) as Hvh by (rewrite <- Zle_Qle; lia).
  assert (inject_Z v / inject_Z half <= 1) as Hle by (apply Qle_shift_div_r; lra).
  assert (0 < inject_Z v / inject_Z half) as Hpos by (apply Qlt_shift_div_l; lra).
  pose proof (Q.min_l _ _ Hle) as E. split; [exact E|]. split.
  - setoid_rewrite E. exact Hpos.
  - apply Q.le_min_r.
Qed.

Lemma normalise_top v :
  (1 ≤ v ≤ half)%Z → Kernel.normalise half 1 v == 1 ↔ v = half.
Proof.
  intros Hv. pose proof half_positive_Q as Hh.
  destruct (normalise_value v Hv) as [E _]. split.
  - intros H1. setoid_rewrite E in H1.
    assert (inject_Z v == inject_Z half) as H2.
    { assert (inject_Z v == inject_Z v / inject_Z half * inject_Z half) as E2
        by (field; lra).
      setoid_rewrite E2. setoid_rewrite H1. ring. }
    exact (proj1 (inject_Z_injective _ _) H2).
  - intros ->. setoid_rewrite E. field. lra.
Qed.

Lemma rescale_top lo hi eps w :
  0 < eps → lo <= hi → w == hi → Kernel.rescale lo hi eps w == 1.
Proof. intros He Hl Hw. unfold Kernel.rescale. setoid_rewrite Hw. field. lra. Qed.

Lemma rescale_below lo hi eps w :
  0 < eps → lo <= hi → w < hi → Kernel.rescale lo hi eps w < 1.
Proof. intros He Hl Hw. unfold Kernel.rescale. apply Qlt_shift_div_r; lra. Qed.

Lemma clip_bounds w : (1 # 1000) <= Kernel.clip (1 # 1000) 1 w <= 1.
Proof.
  unfold Kernel.clip. split; [|apply Q.le_min_r].
  apply Q.min_glb; [apply Q.le_max_r|lra].
Qed.

Lemma clip_inside w : (1 # 1000) <= w <= 1 → Kernel.clip (1 # 1000) 1 w == w.
Proof.
  intros [Hlo Hhi]. unfold Kernel.clip.
  pose proof (Q.max_l w (1 # 1000) Hlo) as E.
  assert (Qmax w (1 # 1000) <= 1) as H1 by (setoid_rewrite E; exact Hhi).
  setoid_rewrite (Q.min_l _ _ H1). exact E.
Qed.

Lemma finish_bounds alpha w : (1 # 1000) <= Kernel.finish alpha w <= 1.
Proof. unfold Kernel.finish. apply to_half_bounds, round_3_bounds, clip_bounds. Qed.

Lemma finish_one w : w == 1 → Kernel.finish 1 w == 1.
Proof.
  intros Hw. unfold Kernel.finish. apply to_half_one, round_3_one.
  assert (Kernel.plateau 1 w == 1) as Hp.
  { unfold Kernel.plateau. destruct (Qlt_le_dec 1 w); [reflexivity|].
    setoid_rewrite Hw. reflexivity. }
  transitivity (Kernel.plateau 1 w); [apply clip_inside; lra|exact Hp].
Qed.

(** The array before the plateau, and the kernel, in closed form. *)
Lemma pre_plateau_entries eps :
  ∃ lo hi,
    Kernel.pre_plateau (2 * half) 1 eps =
      Some (Py.tabulate n
              (λ i j, Kernel.rescale lo hi eps (Kernel.normalise half 1 (pyramid i j)))) ∧
    hi == 1 ∧ lo <= hi.
Proof.
  assert (0 < n)%nat as Hn by (subst n; lia).
  set (f := λ i j, Kernel.normalise half 1 (pyramid i j)).
  destruct (reduce_is_Some Qmin n f Hn) as [lo Hlo].
  destruct (reduce_is_Some Qmax n f Hn) as [hi Hhi].
  assert (∀ i j, (i < n)%nat → (j < n)%nat → f i j <= hi) as Hub.
  { intros i j Hi Hj.
    apply (reduce_bound Qle Qmax _ _ Qle_refl Qle_trans
             (λ x y, conj (Q.le_max_l x y) (Q.le_max_r x y)) Hhi).
    apply elem_of_concat_tabulate. eauto. }
  assert (∀ i j, (i < n)%nat → (j < n)%nat → lo <= f i j) as Hlb.
  { intros i j Hi Hj.
    apply (reduce_bound (λ x y, y <= x) Qmin _ _ Qle_refl
             (λ x y z H1 H2, Qle_trans _ _ _ H2 H1)
             (λ x y, conj (Q.le_min_l x y) (Q.le_min_r x y)) Hlo).
    apply elem_of_concat_tabulate. eauto. }
  exists lo, hi. split; [|split].
  - unfold Kernel.pre_plateau. rewrite decide_False by lia.
    replace ((2 * half) `div` 2)%Z with half by (apply Z.div_unique_exact; lia).
    cbv zeta. rewrite decide_True by apply (profile_length half half_positive).
    pose proof (distance_field half half_positive) as Hdf. cbv zeta in Hdf.
    rewrite Hdf, (pyramid_max half half_positive).
    rewrite mmap_tabulate. fold pyramid n f. rewrite Hlo, Hhi.
    by rewrite mmap_tabulate.
  - apply Qle_antisym.
    + apply (reduce_select Qmax) in Hhi; [|apply Qmax_select].
      apply elem_of_concat_tabulate in Hhi as (i & j & Hi & Hj & ->).
      apply (normalise_value (pyramid i j)), (pyramid_bounds half half_positive); done.
    + set (c := Z.to_nat (half - 1)).
      assert (c < n)%nat as Hc by (subst c n; lia).
      assert (f c c == 1) as E.
      { apply normalise_top.
        - apply (pyramid_bounds half half_positive); done.
        - apply (pyramid_top half half_positive); subst c; lia. }
      setoid_rewrite <- E. by apply Hub.
  - eapply Qle_trans; [apply (Hlb 0%nat 0%nat Hn Hn)|apply (Hub 0%nat 0%nat Hn Hn)].
Qed.

Lemma weighting_entries alpha eps :
  ∃ lo hi,
    Kernel.pre_plateau (2 * half) 1 eps =
      Some (Py.tabulate n
              (λ i j, Kernel.rescale lo hi eps (Kernel.normalise half 1 (pyramid i j)))) ∧
    Kernel.get_tile_weighting (2 * half) 1 alpha eps =
      Some (Py.tabulate n
              (λ i j, Kernel.finish alpha
                        (Kernel.rescale lo hi eps (Kernel.normalise half 1 (pyramid i j))))) ∧
    hi == 1 ∧ lo <= hi.
Proof.
  destruct (pre_plateau_entries eps) as (lo & hi & Hpre & Hhi & Hlo).
  exists lo, hi. split; [done|]. split; [|done].
  unfold Kernel.get_tile_weighting. rewrite Hpre. by rewrite !mmap_tabulate.
Qed.
End KernelValues.


(** ** Bounds, centre, maximum and symmetries of the kernel *)

Lemma flip_columns {X} (m : matrix X) : Predict.flip m [-1] = reverse <$> m.
Proof.
  assert (-2 ∉ [-1]) as H2 by (intros H%list_elem_of_singleton; lia).
  assert (-1 ∈ [-1]) as H1 by (by apply list_elem_of_singleton).
  unfold Predict.flip. by rewrite (decide_False _ _ H2), (decide_True _ _ H1).
Qed.

Lemma flip_rows {X} (m : matrix X) : Predict.flip m [-2] = reverse m.
Proof.
  assert (-1 ∉ [-2]) as H1 by (intros H%list_elem_of_singleton; lia).
  assert (-2 ∈ [-2]) as H2 by (by apply list_elem_of_singleton).
  unfold Predict.flip. by rewrite (decide_True _ _ H2), (decide_False _ _ H1).
Qed.

Lemma flip_both {X} (m : matrix X) : Predict.flip m [-2; -1] = reverse <$> reverse m.
Proof.
  assert (-1 ∈ [-2; -1]) as H1 by (apply elem_of_cons; right; by apply list_elem_of_singleton).
  assert (-2 ∈ [-2; -1]) as H2 by (apply elem_of_cons; by left).
  unfold Predict.flip. by rewrite (decide_True _ _ H2), (decide_True _ _ H1).
Qed.

Lemma reverse_rows_tabulate {X} n (f : nat → nat → X) :
  reverse (Py.tabulate n f) = Py.tabulate n (λ i j, f (n - 1 - i)%nat j).
Proof. unfold Py.tabulate. by rewrite reverse_fmap_seq. Qed.

Lemma reverse_columns_tabulate {X} n (f : nat → nat → X) :
  reverse <$> Py.tabulate n f = Py.tabulate n (λ i j, f i (n - 1 - j)%nat).
Proof.
  unfold Py.tabulate. rewrite <- list_fmap_compose. apply list_fmap_ext.
  intros k i _. simpl. by rewrite reverse_fmap_seq.
Qed.

Lemma at2_None_ge {X} h w (m : matrix X) i j :
  Py.is_shape h w m → (h ≤ i ∨ w ≤ j)%nat → Py.at2 m i j = None.
Proof.
  intros Hs Hij. destruct (Py.at2 m i j) eqn:E; [|done].
  apply (at2_Some_lt h w) in E; [lia|done].
Qed.

(** C4, as stated, fails on the uniqueness of the maximum: for size 4 the
    array before the plateau takes its maximum at [(1, 1)] and at [(1, 2)]
    (and at the two entries below them). *)
Lemma kernel_maximum_counterexample :
  ∃ pre m a b,
    Kernel.pre_plateau 4 1 (1 # 1000000) = Some pre ∧
    Py.reduce Qmax pre = Some m ∧
    Py.at2 pre 1 1 = Some a ∧ Py.at2 pre 1 2 = Some b ∧
    (a == m)%Q ∧ (b == m)%Q ∧ (1, 1) ≠ (1, 2).
Proof.
  vm_compute. do 4 eexists.
  split; [reflexivity|]. split; [reflexivity|]. split; [reflexivity|].
  split; [reflexivity|]. split; [reflexivity|]. split; [reflexivity|]. discriminate.
Qed.

(** C4 (amended): for every even tile size >= 2 (with sigma = 1, alpha = 1,
    eps = 1e-6) a kernel of that size is generated; every entry lies in
    [[1e-3, 1]]; the four central entries (rows and columns [size/2 - 1]
    and [size/2]) equal 1; prior to the alpha-plateau rescale no entry
    exceeds 1 and an entry equals 1 exactly when it is one of these four, so
    the maximum is attained four times; and the kernel is invariant under
    horizontal mirroring, vertical mirroring and transposition.  (Floats
    are read as the rationals they denote; the rounding to three decimals
    and the cast to half precision are those of the source.) *)
Theorem kernel_properties size :
  2 ≤ size → Z.even size = true →
  ∃ k pre,
    Kernel.weighting size = Some k ∧
    Kernel.pre_plateau size 1 (1 # 1000000) = Some pre ∧
    Py.is_shape (Z.to_nat size) (Z.to_nat size) k ∧
    (∀ i j a, Py.at2 k i j = Some a → (1 # 1000 <= a <= 1)%Q) ∧
    (∀ i j, Kernel.central size i → Kernel.central size j →
       ∃ a, Py.at2 k i j = Some a ∧ (a == 1)%Q) ∧
    (∀ i j a, Py.at2 pre i j = Some a →
       (a <= 1)%Q ∧ ((a == 1)%Q ↔ Kernel.central size i ∧ Kernel.central size j)) ∧
    Predict.flip k [-1] = k ∧ Predict.flip k [-2] = k ∧
    (∀ i j, Py.at2 k i j = Py.at2 k j i).
Proof.
  intros Hsize Heven. apply Z.even_spec in Heven as [half ->].
  assert (1 ≤ half) as Hh by lia.
  set (n := Z.to_nat (2 * half)).
  assert ((1 # 1000000) > 0)%Q as Heps by reflexivity.
  destruct (weighting_entries half Hh 1 (1 # 1000000))
    as (lo & hi & Hpre & Hk & Hhi & Hlo).
  set (w := λ i j, Kernel.normalise half 1 (Kernel.pyramid half i j)) in *.
  assert (∀ i j, (i < n)%nat → (j < n)%nat → (0 < w i j <= 1)%Q ∧
            ((w i j == 1)%Q ↔ Kernel.central (2 * half) i ∧ Kernel.central (2 * half) j))
    as Hw.
  { intros i j Hi Hj. pose proof (pyramid_bounds half Hh i j Hi Hj) as Hb. split.
    - apply (normalise_value half Hh _ Hb).
    - unfold w. rewrite (normalise_top half Hh _ Hb), (pyramid_top half Hh i j Hi Hj).
      unfold Kernel.central.
      replace ((2 * half) `div` 2) with half by (apply Z.div_unique_exact; lia). done. }
  assert (∀ i, Kernel.central (2 * half) i → (i < n)%nat) as Hcentral.
  { intros i. unfold Kernel.central.
    replace ((2 * half) `div` 2) with half by (apply Z.div_unique_exact; lia).
    subst n. lia. }
  eexists _, _. split; [exact Hk|]. split; [exact Hpre|].
  split; [apply is_shape_tabulate|].
  split; [|split; [|split; [|split; [|split]]]].
  - intros i j a Ha.
    destruct (at2_Some_lt n n _ i j a (is_shape_tabulate n _) Ha) as [Hi Hj].
    rewrite at2_tabulate in Ha by done. injection Ha as <-. apply finish_bounds.
  - intros i j Hi Hj. pose proof (Hcentral i Hi). pose proof (Hcentral j Hj).
    rewrite at2_tabulate by done. eexists. split; [done|].
    apply finish_one, rescale_top; [done..|].
    transitivity 1%Q; [|by symmetry]. by apply Hw.
  - intros i j a Ha.
    destruct (at2_Some_lt n n _ i j a (is_shape_tabulate n _) Ha) as [Hi Hj].
    rewrite at2_tabulate in Ha by done. injection Ha as <-.
    destruct (Hw i j Hi Hj) as [[Hpos Hle] Htop]. fold (w i j).
    destruct (Qlt_le_dec (w i j) 1) as [Hlt|Hge].
    + assert (Kernel.rescale lo hi (1 # 1000000) (w i j) < 1)%Q as Hr
        by (apply rescale_below; lra).
      split; [lra|]. rewrite <- Htop. split; intros H; lra.
    + assert (w i j == 1)%Q as E by lra.
      assert (Kernel.rescale lo hi (1 # 1000000) (w i j) == 1)%Q as Hr
        by (apply rescale_top; lra).
      split; [lra|]. rewrite <- Htop. done.
  - rewrite flip_columns, reverse_columns_tabulate. apply tabulate_ext.
    intros i j Hi Hj. unfold Kernel.pyramid, n.
    by rewrite (edge_distance_mirror half Hh j Hj).
  - rewrite flip_rows, reverse_rows_tabulate. apply tabulate_ext.
    intros i j Hi Hj. unfold Kernel.pyramid, n.
    by rewrite (edge_distance_mirror half Hh i Hi).
  - intros i j. destruct (decide (i < n ∧ j < n)%nat) as [[Hi Hj]|Hij].
    + rewrite !at2_tabulate by done. unfold Kernel.pyramid. by rewrite Z.min_comm.
    + rewrite (at2_None_ge n n _ i j (is_shape_tabulate n _)) by lia.
      by rewrite (at2_None_ge n n _ j i (is_shape_tabulate n _)) by lia.
Qed.

Lemma kernel_properties_witness :
  (2 ≤ 4 ∧ Z.even 4 = true) ∧
  ∃ k pre,
    Kernel.weighting 4 = Some k ∧
    Kernel.pre_plateau 4 1 (1 # 1000000) = Some pre ∧
    Py.is_shape (Z.to_nat 4) (Z.to_nat 4) k ∧
    (∀ i j a, Py.at2 k i j = Some a → (1 # 1000 <= a <= 1)%Q) ∧
    (∀ i j, Kernel.central 4 i → Kernel.central 4 j →
       ∃ a, Py.at2 k i j = Some a ∧ (a == 1)%Q) ∧
    (∀ i j a, Py.at2 pre i j = Some a →
       (a <= 1)%Q ∧ ((a == 1)%Q ↔ Kernel.central 4 i ∧ Kernel.central 4 j)) ∧
    Predict.flip k [-1] = k ∧ Predict.flip k [-2] = k ∧
    (∀ i j, Py.at2 k i j = Py.at2 k j i).
Proof. split; [split; [lia|reflexivity]|]. apply (kernel_properties 4); [lia|reflexivity]. Defined.


(** ** Reconstruction of a uniform image, in exact arithmetic *)

Lemma is_shape_full {A} h w (v : A) : Py.is_shape h w (Py.full h w v).
Proof. apply is_shape_replicate. Qed.

Lemma at2_full {A} h w (v : A) i j :
  (i < h)%nat → (j < w)%nat → Py.at2 (Py.full h w v) i j = Some v.
Proof. apply at2_replicate. Qed.

Lemma slice2_full {A} h w (v : A) x0 x1 y0 y1 :
  0 ≤ x0 → x0 ≤ x1 → x1 ≤ Z.of_nat h → 0 ≤ y0 → y0 ≤ y1 → y1 ≤ Z.of_nat w →
  Py.slice2 (Py.full h w v) x0 x1 y0 y1
    = Py.full (Z.to_nat (x1 - x0)) (Z.to_nat (y1 - y0)) v.
Proof.
  intros. unfold Py.slice2, Py.slice, Py.full.
  rewrite !length_replicate, !slice_bound_in_range by lia.
  rewrite drop_replicate, take_replicate, fmap_replicate.
  rewrite !length_replicate, !slice_bound_in_range by lia.
  rewrite drop_replicate, take_replicate. f_equal; [lia|]. f_equal. lia.
Qed.




Section Exact.
Local Open Scope Q_scope.
Variables (ds : Predict.InferenceDataset (P:=Q)) (tta : bool) (k : matrix Q).
Variables (H W T : nat) (v : Q).
Hypothesis image_uniform : Predict.original_img ds = Py.full H W v.
Hypothesis kernel_shape : Py.is_shape T T k.
Hypothesis kernel_positive : ∀ a b kv, Py.at2 k a b = Some kv → 0 < kv.
Hypothesis tile_positive : (0 < T)%nat.

Let in_img := Planner.in_image (Z.of_nat H) (Z.of_nat W) (Z.of_nat T).
Let weighted := Predict.weighted Qplus Qmult Qdiv inject_Z (λ img, img) ds tta k.


Lemma offset_in_tile p i j :
  in_img p → Planner.covers p (Z.of_nat i) (Z.of_nat j) →
  (i - Z.to_nat p.1.1 < T)%nat ∧ (j - Z.to_nat p.2.1 < T)%nat.
Proof. intros (? & ? & ? & ? & ? & ?) [? ?]. lia. Qed.


Lemma received_weight_mono ps i j c0 :
  (∀ p, p ∈ ps → in_img p) → c0 <= Predict.received 0 Qplus (λ _, k) i j c0 ps.
Proof.
  revert c0. induction ps as [|p ps IH]; intros c0 Hin; [apply Qle_refl|].
  unfold Predict.received in *. simpl. case_decide as Hc.
  - pose proof (Hin p ltac:(left)) as Hp.
    destruct (offset_in_tile p i j Hp Hc) as [Ha Hb].
    destruct (at2_is_Some T T k _ _ kernel_shape Ha Hb) as [kv Hkv].
    pose proof (kernel_positive _ _ _ Hkv) as Hpos.
    eapply Qle_trans; [|apply IH; intros q Hq; apply Hin; by right].
    rewrite Hkv. simpl. lra.
  - apply IH. intros q Hq. apply Hin. by right.
Qed.

Lemma received_weight_positive ps i j c0 :
  (∀ p, p ∈ ps → in_img p) →
  (∃ p, p ∈ ps ∧ Planner.covers p (Z.of_nat i) (Z.of_nat j)) →
  c0 < Predict.received 0 Qplus (λ _, k) i j c0 ps.
Proof.
  revert c0. induction ps as [|p ps IH]; intros c0 Hin (q & Hq & Hcov).
  { by apply elem_of_nil in Hq. }
  unfold Predict.received in *. simpl. case_decide as Hc.
  - pose proof (Hin p ltac:(left)) as Hp.
    destruct (offset_in_tile p i j Hp Hc) as [Ha Hb].
    destruct (at2_is_Some T T k _ _ kernel_shape Ha Hb) as [kv Hkv].
    pose proof (kernel_positive _ _ _ Hkv) as Hpos.
    eapply Qlt_le_trans;
      [|apply (received_weight_mono ps i j); intros r Hr; apply Hin; by right].
    rewrite Hkv. simpl. lra.
  - apply IH; [intros r Hr; apply Hin; by right|].
    apply elem_of_cons in Hq as [->|Hq]; [done|eauto].
Qed.
End Exact.


Lemma weighting_some size :
  2 ≤ size → Z.even size = true →
  ∃ k, Kernel.weighting size = Some k ∧
       Py.is_shape (Z.to_nat size) (Z.to_nat size) k ∧
       ∀ a b kv, Py.at2 k a b = Some kv → (1 # 1000 <= kv <= 1)%Q.
Proof.
  intros Hsize Heven. apply Z.even_spec in Heven as [half ->].
  destruct (weighting_entries half ltac:(lia) 1 (1 # 1000000))
    as (lo & hi & _ & Hk & _ & _).
  eexists. split; [exact Hk|]. split; [apply is_shape_tabulate|].
  intros a b kv Hkv.
  destruct (at2_Some_lt _ _ _ a b kv (is_shape_tabulate _ _) Hkv) as [Ha Hb].
  rewrite at2_tabulate in Hkv by done. injection Hkv as <-. apply finish_bounds.
Qed.

Lemma dataset_init_shape {P} (H W : nat) (img : matrix P) tile_size overlap_factor plan :
  Py.is_shape H W img → (0 < H)%nat →
  Planner.get_positions (Z.of_nat H) (Z.of_nat W) tile_size overlap_factor = Some plan →
  Predict.dataset_init img overlap_factor tile_size 1 =
    Some {| Predict.original_img := img;
            Predict.orig_size := (Z.of_nat H, Z.of_nat W);
            Predict.tile_size := tile_size;
            Predict.positions := plan |}.
Proof.
  intros Hs HH Hplan. unfold Predict.dataset_init.
  rewrite (is_shape_width H W _ Hs HH), (proj1 Hs). cbv zeta. simpl.
  rewrite Z.mul_1_r, Hplan. done.
Qed.





(** ** Repeated rectangles at the far edge *)


Section FarCorner.
Context {A : Type}.
Variables (zero : A) (add : A → A → A) (k : matrix A) (w : A).
Variables H W T : nat.
Hypothesis tile_fits : (0 < T ≤ H)%nat ∧ (T ≤ W)%nat.
Hypothesis kernel_corner : Py.at2 k (T - 1) (T - 1) = Some w.



End FarCorner.




(** ** Folds *)



Lemma omap_lookup_seq {X} (pre l : list X) :
  omap (λ i, (pre ++ l) !! i) (seq (length pre) (length l)) = l.
Proof.
  revert pre. induction l as [|a l IH]; intros pre; [done|]. simpl.
  rewrite lookup_app_r, Nat.sub_diag by lia. simpl. f_equal.
  specialize (IH (pre ++ [a])). rewrite <- app_assoc, length_app in IH. simpl in IH.
  by rewrite Nat.add_1_r in IH.
Qed.

Lemma fold_range i : 0 ≤ Train.fold i < 5.
Proof. unfold Train.fold. apply Z.mod_pos_bound. lia. Qed.

Lemma update_fold_nb_fields self k :
  ∃ s, Train.update_fold_nb self k = Train.Returns s ∧
    Train.train_img_names s = Train.train_img_names self ∧
    Train.train_img_idx s =
      filter (λ i, Train.fold i ≠ k) (seq 0 (length (Train.train_img_names self))) ∧
    Train.valid_img_idx s =
      filter (λ i, Train.fold i = k) (seq 0 (length (Train.train_img_names self))).
Proof. eexists. split; [reflexivity|]. done. Qed.

Lemma update_fold_nb_twice self j k s1 :
  Train.update_fold_nb self j = Train.Returns s1 →
  Train.update_fold_nb s1 k = Train.update_fold_nb self k.
Proof. intros [= <-]. reflexivity. Qed.

(** C5: for every list of image names and every fold index [k], the fold
    switch returns, with [fold(i) = i mod 5], the train indices
    [{i : fold(i) != k}] and the validation indices [{i : fold(i) == k}] of
    [range(len(names))]; the two are disjoint, every index is in one of
    them, and switching to any fold [j] and back to [k] gives the same
    dataset again. *)
Theorem fold_partition (self : Train.dataset) (k j : Z) :
  ∃ sk sj sk',
    Train.update_fold_nb self k = Train.Returns sk ∧
    Train.update_fold_nb sk j = Train.Returns sj ∧
    Train.update_fold_nb sj k = Train.Returns sk' ∧
    sk' = sk ∧
    (∀ i, Train.fold i = Z.of_nat i `mod` 5) ∧
    (∀ i, i ∈ Train.train_img_idx sk ↔
          (i < length (Train.train_img_names self))%nat ∧ Train.fold i ≠ k) ∧
    (∀ i, i ∈ Train.valid_img_idx sk ↔
          (i < length (Train.train_img_names self))%nat ∧ Train.fold i = k) ∧
    (∀ i, i ∈ Train.train_img_idx sk → i ∈ Train.valid_img_idx sk → False) ∧
    (∀ i, (i < length (Train.train_img_names self))%nat ↔
          i ∈ Train.train_img_idx sk ∨ i ∈ Train.valid_img_idx sk) ∧
    NoDup (Train.train_img_idx sk) ∧ NoDup (Train.valid_img_idx sk).
Proof.
  destruct (update_fold_nb_fields self k) as (sk & Hk & Hnames & Htr & Hva).
  destruct (update_fold_nb_fields sk j) as (sj & Hj & _).
  exists sk, sj, sk. split; [done|]. split; [done|].
  split; [rewrite (update_fold_nb_twice sk j k sj Hj); injection Hk as <-; reflexivity|].
  split; [done|]. split; [done|].
  assert (∀ i, i ∈ Train.train_img_idx sk ↔
            (i < length (Train.train_img_names self))%nat ∧ Train.fold i ≠ k) as Ht.
  { intros i. rewrite Htr, list_elem_of_filter, elem_of_seq. split; intros [? ?]; split; (done || lia). }
  assert (∀ i, i ∈ Train.valid_img_idx sk ↔
            (i < length (Train.train_img_names self))%nat ∧ Train.fold i = k) as Hv.
  { intros i. rewrite Hva, list_elem_of_filter, elem_of_seq. split; intros [? ?]; split; (done || lia). }
  split; [done|]. split; [done|]. split; [|split; [|split]].
  - intros i [_ H1]%Ht [_ H2]%Hv. done.
  - intros i. rewrite Ht, Hv. destruct (decide (Train.fold i = k)); tauto.
  - rewrite Htr. apply NoDup_filter, NoDup_seq.
  - rewrite Hva. apply NoDup_filter, NoDup_seq.
Qed.




(** ** Acceptance policy *)

Lemma rand_range ω : (0 <= Train.rand ω < 1)%Q.
Proof.
  unfold Train.rand. pose proof (Z.mod_pos_bound ω (2 ^ 53) ltac:(lia)) as Hb.
  unfold Qle, Qlt. simpl. change (Z.pos (2 ^ 53)) with (2 ^ 53)%Z. lia.
Qed.

Lemma soft_keep_never self ω :
  (Train.sampling_thresh self == 1)%Q → Train.soft_keep self ω = false.
Proof.
  intros Ht. unfold Train.soft_keep. pose proof (rand_range ω) as [_ Hr].
  destruct (Qlt_le_dec (Train.sampling_thresh self) (Train.rand ω)); [lra|done].
Qed.

Lemma sum_binary (l : list Z) :
  Forall (λ v, v = 0 ∨ v = 1) l →
  foldr Z.add 0 l = Z.of_nat (length (filter (λ v, 0 < v) l)).
Proof.
  induction 1 as [|v l Hv Hl IH]; [done|]. rewrite filter_cons. simpl. rewrite IH.
  destruct Hv as [-> | ->]; simpl; lia.
Qed.

Lemma sum2_count_positive (m : matrix Z) :
  Forall (Forall (λ v, v = 0 ∨ v = 1)) m → Train.sum2 m = Train.count_positive m.
Proof.
  unfold Train.sum2, Train.count_positive.
  induction 1 as [|row m Hrow Hm IH]; [done|]. simpl.
  rewrite filter_app, length_app, Nat2Z.inj_add, <- IH. by rewrite sum_binary.
Qed.

(** C6: in visible mode, for a tile that is not pseudo-labelled and with
    acceptance threshold 1, a rectangle of a binary mask with exactly 2000
    positive pixels is rejected, whatever the random draw, and one with 2001
    positive pixels is accepted. *)
Theorem visible_boundary (self : Train.dataset) (image_nb x1 x2 y1 y2 ω : Z)
    (m : matrix Z) :
  Train.sampling_mode self = Train.visible →
  (Train.sampling_thresh self == 1)%Q →
  Py.index (Train.masks self) image_nb = Some m →
  Forall (Forall (λ v, v = 0 ∨ v = 1)) (Py.slice2 m x1 x2 y1 y2) →
  (Train.count_positive (Py.slice2 m x1 x2 y1 y2) = 2000 →
     Train.accept_tile_policy self image_nb x1 x2 y1 y2 false ω = Some false) ∧
  (Train.count_positive (Py.slice2 m x1 x2 y1 y2) = 2001 →
     Train.accept_tile_policy self image_nb x1 x2 y1 y2 false ω = Some true).
Proof.
  intros Hmode Ht Hm Hbin.
  assert (Qeq_bool (Train.sampling_thresh self) 0 = false) as Hz.
  { destruct (Qeq_bool _ 0) eqn:E; [|done]. apply Qeq_bool_iff in E. lra. }
  unfold Train.accept_tile_policy, Train.visible_condition, Train.visible_tested.
  rewrite Hz, Hmode, Hm. simpl. rewrite (sum2_count_positive _ Hbin).
  split; intros ->; simpl; [by rewrite (soft_keep_never self ω Ht)|done].
Qed.

Lemma visible_boundary_witness :
  let self := Train.visible_example in
  let m := Py.full 60 60 1 in
  (Train.sampling_mode self = Train.visible ∧
   (Train.sampling_thresh self == 1)%Q ∧
   Py.index (Train.masks self) 0 = Some m ∧
   Forall (Forall (λ v, v = 0 ∨ v = 1)) (Py.slice2 m 0 40 0 50)) ∧
  Train.count_positive (Py.slice2 m 0 40 0 50) = 2000 ∧
  Train.accept_tile_policy self 0 0 40 0 50 false 12345 = Some false.
Proof.
  intros self m.
  assert (Forall (Forall (λ v, v = 0 ∨ v = 1)) (Py.slice2 m 0 40 0 50)) as Hbin.
  { subst m. rewrite slice2_full by lia. apply Forall_replicate, Forall_replicate. by right. }
  assert (Train.count_positive (Py.slice2 m 0 40 0 50) = 2000) as Hc by (by vm_compute).
  split; [repeat split; (reflexivity || exact Hbin)|]. split; [exact Hc|].
  exact (proj1 (visible_boundary self 0 0 40 0 50 12345 m
                  eq_refl (Qeq_refl 1) eq_refl Hbin) Hc).
Defined.

(** C9 fails on the code: for a tile that is not pseudo-labelled the two
    expressions of the visible branch agree, but for a pseudo-labelled tile
    [condition] reads the pseudo mask and the tested expression reads the
    training mask.  With the training mask empty and the pseudo mask full,
    [condition] is true, the tested expression is false and the tile is
    rejected. *)
Theorem visible_expressions_differ :
  (∀ self image_nb x1 x2 y1 y2,
     Train.visible_condition self image_nb x1 x2 y1 y2 false
       = Train.visible_tested self image_nb x1 x2 y1 y2) ∧
  Train.visible_condition Train.pseudo_example 0 0 60 0 60 true = Some true ∧
  Train.visible_tested Train.pseudo_example 0 0 60 0 60 = Some false ∧
  Train.accept_tile_policy Train.pseudo_example 0 0 60 0 60 true 0 = Some false.
Proof. split; [reflexivity|]. split; [|split]; by vm_compute. Qed.

(** ** The proposal loop of the sampler *)

Lemma crop_size_floor ts :
  1 ≤ ts →
  1 ≤ Train.crop_size ts ∧ Train.crop_size ts = (3 * ts) `div` 2 ∧
  2 * Train.crop_size ts ≤ 3 * ts ∧
  (Z.even ts = true → 2 * Train.crop_size ts = 3 * ts).
Proof.
  intros Hts. unfold Train.crop_size. rewrite Z.quot_div_nonneg by lia.
  pose proof (Z.div_mod (3 * ts) 2 ltac:(lia)) as E.
  pose proof (Z.mod_pos_bound (3 * ts) 2 ltac:(lia)) as B.
  repeat split; try lia.
  intros [c ->]%Z.even_spec. replace (3 * (2 * c)) with (3 * c * 2) by lia.
  rewrite Z.div_mul by lia. lia.
Qed.

Lemma propose_fits self h w ωx ωy :
  1 ≤ Train.before_crop_size self →
  Train.before_crop_size self < h → Train.before_crop_size self < w →
  ∃ r, Train.propose self (h, w) ωx ωy = Some r ∧
       Train.fits h w (Train.before_crop_size self) r.
Proof.
  intros H1 Hh Hw. unfold Train.propose, Train.randint. simpl.
  rewrite !decide_True by lia. simpl. eexists. split; [done|].
  pose proof (Z.mod_pos_bound ωx (h - Train.before_crop_size self) ltac:(lia)).
  pose proof (Z.mod_pos_bound ωy (w - Train.before_crop_size self) ltac:(lia)).
  unfold Train.fits. lia.
Qed.

Lemma sample_loop_fits self entropy image_nb is_pseudo h w fuel k trace st :
  1 ≤ Train.before_crop_size self →
  Train.before_crop_size self < h → Train.before_crop_size self < w →
  Train.sample_loop self entropy image_nb is_pseudo (h, w) fuel k = (trace, st) →
  Forall (Train.fits h w (Train.before_crop_size self)) trace ∧
  ((0 < fuel)%nat → trace ≠ []) ∧
  (∀ r, st = Train.Accepted r → r ∈ trace).
Proof.
  intros H1 Hh Hw. revert k trace st.
  induction fuel as [|fuel IH]; intros k trace st; simpl.
  { intros [= <- <-]. split; [constructor|]. split; [lia|done]. }
  destruct (propose_fits self h w (entropy k) (entropy (S k)) H1 Hh Hw)
    as ([[[x1 x2] y1] y2] & -> & Hfit).
  destruct (Train.accept_tile_policy self image_nb x1 x2 y1 y2 is_pseudo
              (entropy (S (S k)))) as [[|]|].
  - intros [= <- <-]. split; [apply Forall_cons; split; [exact Hfit|constructor]|].
    split; [done|]. intros r [= <-]. by left.
  - destruct (Train.sample_loop self entropy image_nb is_pseudo (h, w) fuel _)
      as [trace' st'] eqn:E.
    intros [= <- <-]. destruct (IH _ _ _ E) as (Hall & _ & Hacc).
    split; [by apply Forall_cons|]. split; [done|]. intros r Hr. right. by apply Hacc.
  - intros [= <- <-]. split; [apply Forall_cons; split; [exact Hfit|constructor]|]. split; done.
Qed.

(** C7, as stated, fails on the size of the crop: for tile size 3 the crop
    is [int(4.5) = 4] pixels wide, not 1.5 x 3, in an image whose sides
    exceed 4.5. *)
Lemma sampler_crop_counterexample :
  ∃ self,
    Train.six_images = Train.Returns self ∧
    Train.train_tile_size self = 3 ∧
    Train.get_img_dim self 0 false = Some (10, 10) ∧
    3 * 3 < 2 * 10 ∧
    Train.sample_tile self (λ _, 0) 0 false 1 = ([(0, 4, 0, 4)], Train.Accepted (0, 4, 0, 4)) ∧
    2 * (4 - 0) ≠ 3 * 3.
Proof. eexists. split; [reflexivity|]. repeat split; (reflexivity || lia). Qed.

(** C7 (amended): for every selected image whose height and width both
    strictly exceed 1.5 x the target tile size (a tile size of at least 1),
    every candidate rectangle proposed by the rejection loop satisfies
    [0 <= x1 < x2 <= height] and [0 <= y1 < y2 <= width] with
    [x2 - x1 = y2 - y1 = int(1.5 x tile_size)], the floor of 1.5 x the tile
    size, which is 1.5 x the tile size exactly when the tile size is even;
    the first iteration always proposes a candidate, and an accepted
    rectangle is one of the candidates. *)
Theorem sampler_candidates_fit (self : Train.dataset) (entropy : nat → Z)
    (image_nb : Z) (is_pseudo : bool) (h w : Z) (fuel : nat) :
  Train.before_crop_size self = Train.crop_size (Train.train_tile_size self) →
  1 ≤ Train.train_tile_size self →
  Train.get_img_dim self image_nb is_pseudo = Some (h, w) →
  3 * Train.train_tile_size self < 2 * h →
  3 * Train.train_tile_size self < 2 * w →
  let size := (3 * Train.train_tile_size self) `div` 2 in
  let result := Train.sample_tile self entropy image_nb is_pseudo fuel in
  Forall (Train.fits h w size) result.1 ∧
  ((0 < fuel)%nat → result.1 ≠ []) ∧
  (∀ r, result.2 = Train.Accepted r → r ∈ result.1) ∧
  (Z.even (Train.train_tile_size self) = true → 2 * size = 3 * Train.train_tile_size self).
Proof.
  intros Hcrop Hts Hdim Hh Hw size result.
  destruct (crop_size_floor _ Hts) as (H1 & Hfloor & Hle & Heven).
  rewrite <- Hcrop in H1, Hfloor, Hle, Heven.
  subst result. unfold Train.sample_tile. rewrite Hdim.
  destruct (Train.sample_loop self entropy image_nb is_pseudo (h, w) fuel 0)
    as [trace st] eqn:E.
  destruct (sample_loop_fits self entropy image_nb is_pseudo h w fuel 0%nat trace st
              H1 ltac:(lia) ltac:(lia) E) as (Hall & Hne & Hacc).
  subst size. rewrite <- Hfloor. simpl. repeat split; try done.
Qed.

Lemma sampler_candidates_fit_witness :
  let self := Train.visible_example in
  (Train.before_crop_size self = Train.crop_size (Train.train_tile_size self) ∧
   1 ≤ Train.train_tile_size self ∧
   Train.get_img_dim self 0 false = Some (60, 60) ∧
   3 * Train.train_tile_size self < 2 * 60) ∧
  let size := (3 * Train.train_tile_size self) `div` 2 in
  let result := Train.sample_tile self (λ k, Z.of_nat k * 7) 0 false 4 in
  Forall (Train.fits 60 60 size) result.1 ∧
  ((0 < 4)%nat → result.1 ≠ []) ∧
  (∀ r, result.2 = Train.Accepted r → r ∈ result.1) ∧
  (Z.even (Train.train_tile_size self) = true → 2 * size = 3 * Train.train_tile_size self).
Proof.
  intros self. split; [repeat split; (reflexivity || (by vm_compute))|].
  apply (sampler_candidates_fit self (λ k, Z.of_nat k * 7) 0 false 60 60 4);
    (reflexivity || (by vm_compute)).
Defined.


(** * Further properties of the code *)

(** ** The planner: errors, size of the plan, exact tilings *)

Lemma length_plan {X Y Z'} (xs : list X) (ys : list Y) (f : X → Y → Z') :
  length (x ← xs; f x <$> ys) = (length xs * length ys)%nat.
Proof.
  induction xs as [|x xs IH]; [done|].
  rewrite bind_cons, length_app, length_fmap, IH. simpl. lia.
Qed.





Lemma filter_ext_elem {X} (P Q : X → Prop) `{∀ x, Decision (P x)} `{∀ x, Decision (Q x)}
    (l : list X) :
  (∀ x, x ∈ l → P x ↔ Q x) → filter P l = filter Q l.
Proof.
  induction l as [|x l IH]; intros Hext; [done|]. rewrite !filter_cons.
  rewrite IH by (intros y Hy; apply Hext; by right).
  destruct (decide (P x)) as [HP|HP], (decide (Q x)) as [HQ|HQ]; try done;
    exfalso; apply (Hext x ltac:(left)) in HP || apply (Hext x ltac:(left)) in HQ; done.
Qed.

Lemma count_covers_row (g : Z * Z) (h : Z → Z * Z) (ys : list Z) i j :
  length (filter (λ p : Planner.position, Planner.covers p i j) ((λ y, (g, h y)) <$> ys))
  = if decide (g.1 ≤ i < g.2)
    then length (filter (λ y, (h y).1 ≤ j < (h y).2) ys) else 0%nat.
Proof.
  destruct (decide (g.1 ≤ i < g.2)) as [Hg|Hg].
  - induction ys as [|y ys IH]; [done|]. rewrite fmap_cons, !filter_cons.
    destruct (decide ((h y).1 ≤ j < (h y).2)) as [Hh|Hh].
    + rewrite decide_True by (by split). cbn [length]. f_equal. exact IH.
    + rewrite decide_False by (intros [_ ?]; done). exact IH.
  - induction ys as [|y ys IH]; [done|]. rewrite fmap_cons, filter_cons.
    rewrite decide_False by (intros [? _]; done). exact IH.
Qed.

Lemma count_covers_plan (g h : Z → Z * Z) (xs ys : list Z) i j :
  length (filter (λ p : Planner.position, Planner.covers p i j)
            (x ← xs; (λ y, (g x, h y)) <$> ys))
  = Nat.mul (length (filter (λ x, (g x).1 ≤ i < (g x).2) xs))
            (length (filter (λ y, (h y).1 ≤ j < (h y).2) ys)).
Proof.
  induction xs as [|x xs IH]; [done|].
  rewrite bind_cons, filter_app, length_app, count_covers_row, filter_cons.
  unfold Planner.position in *.
  destruct (decide ((g x).1 ≤ i < (g x).2)); cbn [length]; lia.
Qed.

Lemma count_grid_axis tile_size (n : nat) i :
  1 ≤ tile_size →
  length (filter (λ c, c ≤ i < c + tile_size)
            ((λ k, 0 + k * tile_size) <$> seqZ 0 (Z.of_nat n)))
  = if decide (0 ≤ i < Z.of_nat n * tile_size) then 1%nat else 0%nat.
Proof.
  intros Hts. induction n as [|n IH]; [simpl; case_decide; [lia|done]|].
  rewrite seqZ_S, fmap_app, filter_app, length_app, IH. simpl.
  rewrite filter_cons, filter_nil.
  assert (0 ≤ Z.of_nat n * tile_size) by nia.
  repeat case_decide; simpl; nia.
Qed.

Lemma cdiv_mul a b : 0 < b → Py.cdiv (a * b) b = a.
Proof.
  intros Hb. unfold Py.cdiv. replace (- (a * b)) with (- a * b) by lia.
  rewrite Z.div_mul by lia. lia.
Qed.

(** X3: with overlap factor 1 on an image whose height and width are
    multiples of the tile size, the plan is an exact tiling: every pixel of
    the image lies in exactly one rectangle of the plan. *)
Theorem exact_tiling (rows cols : nat) tile_size :
  1 ≤ tile_size →
  let h := Z.of_nat rows * tile_size in
  let w := Z.of_nat cols * tile_size in
  ∃ plan, Planner.get_positions h w tile_size 1 = Some plan ∧
    length plan = (rows * cols)%nat ∧
    ∀ i j, 0 ≤ i < h → 0 ≤ j < w →
      length (filter (λ p, Planner.covers p i j) plan) = 1%nat.
Proof.
  intros Hts h w. unfold Planner.get_positions, Py.int_truediv, Py.arange.
  rewrite decide_False by lia. rewrite Z.quot_1_r. rewrite !decide_False by lia.
  subst h w. rewrite !Z.sub_0_r, !cdiv_mul by lia.
  eexists. split; [done|]. split.
  { by rewrite length_plan, !length_fmap, !length_seqZ, !Nat2Z.id. }
  intros i j Hi Hj. rewrite count_covers_plan.
  assert (∀ (n : nat) (c : Z),
            c ∈ (λ k, 0 + k * tile_size) <$> seqZ 0 (Z.of_nat n) →
            Planner.boundaries (Z.of_nat n * tile_size) tile_size c = (c, c + tile_size))
    as Hb.
  { intros n c (k & -> & Hk%elem_of_seqZ)%list_elem_of_fmap.
    unfold Planner.boundaries. case_decide; [done|]. f_equal; nia. }
  rewrite (filter_ext_elem _ (λ c, c ≤ i < c + tile_size)
             ((λ k, 0 + k * tile_size) <$> seqZ 0 (Z.of_nat rows)))
    by (intros c Hc; by rewrite (Hb rows c Hc)).
  rewrite (filter_ext_elem _ (λ c, c ≤ j < c + tile_size)
             ((λ k, 0 + k * tile_size) <$> seqZ 0 (Z.of_nat cols)))
    by (intros c Hc; by rewrite (Hb cols c Hc)).
  rewrite !count_grid_axis by done. by rewrite !decide_True by done.
Qed.

Lemma exact_tiling_witness :
  1 ≤ 4 ∧
  ∃ plan, Planner.get_positions (Z.of_nat 3 * 4) (Z.of_nat 2 * 4) 4 1 = Some plan ∧
    length plan = (3 * 2)%nat ∧
    ∀ i j, 0 ≤ i < Z.of_nat 3 * 4 → 0 ≤ j < Z.of_nat 2 * 4 →
      length (filter (λ p, Planner.covers p i j) plan) = 1%nat.
Proof. split; [lia|]. apply (exact_tiling 3 2 4). lia. Defined.

(** ** Accumulation: images smaller than a tile, untouched pixels *)

Lemma slice_bound_le len a : (Py.slice_bound len a ≤ len)%nat.
Proof. unfold Py.slice_bound. case_decide; lia. Qed.

Section AccumulateEdges.
Context {P A : Type}.
Variables (zero : A) (add mul div : A → A → A) (of_Z : Z → A).
Variable infer : matrix P → matrix A.

Lemma accumulate_from_None (ds : Predict.InferenceDataset (P:=P)) tta k ps :
  Predict.accumulate_from zero add mul div of_Z infer ds tta k None ps = None.
Proof. unfold Predict.accumulate_from. by induction ps. Qed.

Lemma add_slice_too_tall (g t : matrix A) p :
  (length g < length t)%nat → Predict.add_slice zero add g p t = None.
Proof.
  intros Hlen. unfold Predict.add_slice. rewrite decide_False; [done|].
  intros [Hrows _]. pose proof (slice_bound_le (length g) p.1.2). lia.
Qed.

Lemma add_tile_too_tall (k : matrix A) (st : Predict.buffers) p pred :
  (length st.2 < length k)%nat → Predict.add_tile zero add mul k st p pred = None.
Proof.
  intros Hlen. unfold Predict.add_tile.
  destruct (Predict.map2 mul pred k); [|done].
  rewrite (add_slice_too_tall st.2 k p Hlen). by destruct (Predict.add_slice _ _ st.1 p _).
Qed.

(** X4: an image lower than the tile is not refused by the planner: the
    plan is not empty and every rectangle in it starts at the negative row
    [height - tile_size]; the accumulation loop then raises on the first
    tile, for every model, since the kernel has more rows than the slice of
    the buffer. *)
Theorem small_image_raises (img : matrix P) (H W : nat) tile_size overlap_factor
    (tta : bool) (k : matrix A) :
  Py.is_shape H W img → (0 < H)%nat → (0 < W)%nat →
  Z.of_nat H < tile_size → 1 ≤ overlap_factor ≤ tile_size →
  length k = Z.to_nat tile_size →
  ∃ ds, Predict.dataset_init img overlap_factor tile_size 1 = Some ds ∧
    Predict.positions ds ≠ [] ∧
    (∀ p, p ∈ Predict.positions ds → p.1 = (Z.of_nat H - tile_size, Z.of_nat H)) ∧
    Predict.accumulate zero add mul div of_Z infer ds tta k = None.
Proof.
  intros Hs HH HW Hlow Hof Hk.
  destruct (get_positions_plan (Z.of_nat H) (Z.of_nat W) tile_size overlap_factor Hof)
    as (step & top_x & top_y & Hstep & Hx & Hy & Hplan).
  assert (0 < step) as Hpos by lia.
  assert (0 ∈ top_x) as H0x.
  { apply (elem_of_arange _ _ _ 0 Hpos Hx). exists 0. lia. }
  assert (0 ∈ top_y) as H0y.
  { apply (elem_of_arange _ _ _ 0 Hpos Hy). exists 0. lia. }
  eexists. split; [by apply (dataset_init_shape H W)|]. simpl.
  set (plan := top_x ≫= _).
  assert (∀ p, p ∈ plan → p.1 = (Z.of_nat H - tile_size, Z.of_nat H)) as Hneg.
  { intros p (x & y & Hxin & Hyin & ->)%elem_of_plan. simpl.
    apply (arange_nonneg _ _ _ _ Hpos Hx) in Hxin.
    unfold Planner.boundaries. case_decide; [lia|]. f_equal; lia. }
  assert (plan ≠ []) as Hne.
  { intros E.
    assert ((Planner.boundaries (Z.of_nat H) tile_size 0,
             Planner.boundaries (Z.of_nat W) tile_size 0) ∈ plan) as Hin
      by (apply elem_of_plan; eauto).
    rewrite E in Hin. by apply elem_of_nil in Hin. }
  split; [done|]. split; [done|].
  unfold Predict.accumulate. simpl. destruct plan as [|p rest]; [done|].
  unfold Predict.accumulate_from. simpl.
  destruct (Predict.predict_tile add div of_Z infer tta _) as [pred|]; simpl.
  - rewrite add_tile_too_tall.
    + apply accumulate_from_None.
    + simpl. unfold Predict.zeros. rewrite length_replicate. lia.
  - apply accumulate_from_None.
Qed.
End AccumulateEdges.

Lemma small_image_raises_witness :
  (Py.is_shape 3 8 (Py.full 3 8 0%Q) ∧ (0 < 3)%nat ∧ (0 < 8)%nat ∧
   Z.of_nat 3 < 4 ∧ 1 ≤ 2 ≤ 4 ∧ length (Py.full 4 4 1%Q) = Z.to_nat 4) ∧
  ∃ ds, Predict.dataset_init (Py.full 3 8 0%Q) 2 4 1 = Some ds ∧
    Predict.positions ds ≠ [] ∧
    (∀ p, p ∈ Predict.positions ds → p.1 = (Z.of_nat 3 - 4, Z.of_nat 3)) ∧
    Predict.accumulate 0%Q Qplus Qmult Qdiv inject_Z (λ t, t) ds false (Py.full 4 4 1%Q)
      = None.
Proof.
  assert (Py.is_shape 3 8 (Py.full 3 8 0%Q)) as Hs by apply is_shape_full.
  split; [repeat split; (lia || reflexivity || apply Hs)|].
  apply (small_image_raises 0%Q Qplus Qmult Qdiv inject_Z (λ t, t) (Py.full 3 8 0%Q)
           3 8 4 2 false (Py.full 4 4 1%Q) Hs); (lia || reflexivity).
Defined.


(** ** Flips and test-time augmentation *)

Lemma flip_involutive {X} (m : matrix X) dims :
  Predict.flip (Predict.flip m dims) dims = m.
Proof.
  assert (∀ l : matrix X, reverse <$> (reverse <$> l) = l) as Hrr.
  { intros l. rewrite <- list_fmap_compose. rewrite <- (list_fmap_id l) at 2.
    apply list_fmap_ext. intros _ row _. simpl. apply reverse_involutive. }
  unfold Predict.flip.
  destruct (decide (-2 ∈ dims)), (decide (-1 ∈ dims)); try done.
  - by rewrite <- fmap_reverse, reverse_involutive, Hrr.
  - apply reverse_involutive.
Qed.



Section TestTime.
Local Open Scope Q_scope.
Context {P : Type}.
Variable infer : matrix P → matrix Q.
Variables (T : nat) (tile : matrix P).
Hypothesis tile_shape : Py.is_shape T T tile.
Hypothesis infer_shape : ∀ t, Py.is_shape T T t → Py.is_shape T T (infer t).

Let back (f : list Z) : matrix Q := Predict.flip (infer (Predict.flip tile f)) f.

Lemma back_shape f : Py.is_shape T T (back f).
Proof. unfold back. by apply is_shape_flip, infer_shape, is_shape_flip. Qed.

(** The prediction with flips, entry by entry. *)
Lemma predict_tile_tta_at :
  ∃ pred, Predict.predict_tile Qplus Qdiv inject_Z infer true tile = Some pred ∧
    Py.is_shape T T pred ∧
    ∀ a b u0 u1 u2 u3,
      Py.at2 (infer tile) a b = Some u0 → Py.at2 (back [-1]%Z) a b = Some u1 →
      Py.at2 (back [-2]%Z) a b = Some u2 → Py.at2 (back [-2; -1]%Z) a b = Some u3 →
      Py.at2 pred a b = Some ((u0 + u1 + u2 + u3) / 4).
Proof.
  unfold Predict.predict_tile, Predict.FLIPS. simpl. fold (back [-1]%Z) (back [-2]%Z) (back [-2; -1]%Z).
  pose proof (infer_shape _ tile_shape) as H0.
  rewrite (map2_shape Qplus T T) by (done || apply back_shape). simpl.
  pose proof (is_shape_zip_with Qplus T T _ _ H0 (back_shape [-1]%Z)) as H1.
  rewrite (map2_shape Qplus T T) by (done || apply back_shape). simpl.
  pose proof (is_shape_zip_with Qplus T T _ _ H1 (back_shape [-2]%Z)) as H2.
  rewrite (map2_shape Qplus T T) by (done || apply back_shape).
  pose proof (is_shape_zip_with Qplus T T _ _ H2 (back_shape [-2; -1]%Z)) as H3.
  eexists. split; [done|]. split; [by apply is_shape_mmap|].
  intros a b u0 u1 u2 u3 E0 E1 E2 E3.
  rewrite at2_mmap, !at2_zip_with, E0, E1, E2, E3. done.
Qed.

(** X5: for a model that commutes with the three flips on a tile, the
    prediction averaged over the flips equals, over exact arithmetic, the
    plain prediction at every entry: each flipped prediction is flipped
    back onto the plain one. *)
Theorem tta_of_equivariant_model :
  (∀ f, f ∈ Predict.FLIPS → infer (Predict.flip tile f) = Predict.flip (infer tile) f) →
  ∃ pred, Predict.predict_tile Qplus Qdiv inject_Z infer true tile = Some pred ∧
    Py.is_shape T T pred ∧
    ∀ a b, (a < T)%nat → (b < T)%nat →
      ∃ u u', Py.at2 (infer tile) a b = Some u ∧ Py.at2 pred a b = Some u' ∧ u' == u.
Proof.
  intros Heq. destruct predict_tile_tta_at as (pred & Hpred & Hshape & Hat).
  exists pred. split; [done|]. split; [done|]. intros a b Ha Hb.
  destruct (at2_is_Some T T _ a b (infer_shape _ tile_shape) Ha Hb) as [u Hu].
  assert (∀ f, f ∈ Predict.FLIPS → back f = infer tile) as Hback.
  { intros f Hf. unfold back. by rewrite (Heq f Hf), flip_involutive. }
  exists u, ((u + u + u + u) / 4). split; [done|]. split; [|field].
  apply Hat; [done|rewrite Hback; [done|]..]; unfold Predict.FLIPS.
  - by left.
  - right. by left.
  - right. right. by left.
Qed.
End TestTime.

Lemma tta_of_equivariant_model_witness :
  let tile := [[1; 2]; [3; 4]]%Q in
  (Py.is_shape 2 2 tile ∧
   (∀ f, f ∈ Predict.FLIPS →
      (λ t : matrix Q, t) (Predict.flip tile f) = Predict.flip ((λ t : matrix Q, t) tile) f)) ∧
  ∃ pred, Predict.predict_tile Qplus Qdiv inject_Z (λ t : matrix Q, t) true tile = Some pred ∧
    Py.is_shape 2 2 pred ∧
    ∀ a b, (a < 2)%nat → (b < 2)%nat →
      ∃ u u', Py.at2 tile a b = Some u ∧ Py.at2 pred a b = Some u' ∧ (u' == u)%Q.
Proof.
  intros tile.
  assert (Py.is_shape 2 2 tile) as Hs by (split; [reflexivity|repeat constructor]).
  split; [split; [exact Hs|reflexivity]|].
  apply (tta_of_equivariant_model (λ t : matrix Q, t) 2 tile Hs (λ _ H, H)). reflexivity.
Defined.

(** ** The blended map as a weighted mean of the tile predictions *)

Section Blend.
Local Open Scope Q_scope.
Variables (contrib : Planner.position → matrix Q) (k : matrix Q) (T : nat).
Variables (i j : nat) (lo hi : Q).
Hypothesis kernel_positive : ∀ a b kv, Py.at2 k a b = Some kv → 0 < kv.

Let offset_x (p : Planner.position) : nat := (i - Z.to_nat p.1.1)%nat.
Let offset_y (p : Planner.position) : nat := (j - Z.to_nat p.2.1)%nat.

Lemma received_between ps a0 c0 :
  (∀ p, p ∈ ps → Planner.covers p (Z.of_nat i) (Z.of_nat j) →
     ∃ u kv, Py.at2 (contrib p) (offset_x p) (offset_y p) = Some (u * kv) ∧
             Py.at2 k (offset_x p) (offset_y p) = Some kv ∧ lo <= u <= hi) →
  lo * c0 <= a0 <= hi * c0 →
  lo * Predict.received 0 Qplus (λ _, k) i j c0 ps
    <= Predict.received 0 Qplus contrib i j a0 ps
    <= hi * Predict.received 0 Qplus (λ _, k) i j c0 ps.
Proof.
  revert a0 c0. induction ps as [|p ps IH]; intros a0 c0 Hin H0; [exact H0|].
  unfold Predict.received in *. simpl. case_decide as Hc.
  - apply IH; [intros q Hq; apply Hin; by right|].
    destruct (Hin p ltac:(left) Hc) as (u & kv & Hu & Hkv & Hlo & Hhi).
    fold (offset_x p) (offset_y p). rewrite Hu, Hkv. simpl.
    pose proof (kernel_positive _ _ _ Hkv) as Hpos.
    assert (lo * kv <= u * kv) by (apply Qmult_le_compat_r; lra).
    assert (u * kv <= hi * kv) by (apply Qmult_le_compat_r; lra).
    lra.
  - apply IH; [intros q Hq; apply Hin; by right|done].
Qed.
End Blend.

Lemma Qdiv_between (lo hi a c : Q) :
  (0 < c → lo * c <= a <= hi * c → lo <= a / c <= hi)%Q.
Proof.
  intros Hc [Hlo Hhi]. split.
  - apply Qle_shift_div_l; [done|lra].
  - apply Qle_shift_div_r; [done|lra].
Qed.

Section BlendPixel.
Local Open Scope Q_scope.
Context {P : Type}.
Variable infer : matrix P → matrix Q.
Variables (img : matrix P) (H W : nat) (tile_size overlap_factor : Z) (tta : bool).
Hypothesis image_shape : Py.is_shape H W img.
Hypothesis tile_even : Z.even tile_size = true.
Hypothesis tile_bounds : (2 ≤ tile_size ∧ tile_size ≤ Z.of_nat H ∧ tile_size ≤ Z.of_nat W)%Z.
Hypothesis overlap_bounds : (1 ≤ overlap_factor ≤ tile_size)%Z.

Let T := Z.to_nat tile_size.
Hypothesis infer_shape : ∀ t, Py.is_shape T T t → Py.is_shape T T (infer t).

(** The blended value of a pixel lies between any two bounds that hold for
    the values every covering tile predicts for it. *)
Lemma blend_pixel_between :
  ∃ ds out,
    Predict.dataset_init img overlap_factor tile_size 1 = Some ds ∧
    Predict.predict_entire_mask 0 Qplus Qmult Qdiv inject_Z infer Kernel.weighting ds tta
      = Some out ∧
    Py.is_shape H W out ∧
    (∀ p, p ∈ Predict.positions ds →
       Planner.in_image (Z.of_nat H) (Z.of_nat W) tile_size p) ∧
    ∀ i j lo hi, (i < H)%nat → (j < W)%nat →
      (∀ p pred u, p ∈ Predict.positions ds →
         Planner.covers p (Z.of_nat i) (Z.of_nat j) →
         Predict.predict_tile Qplus Qdiv inject_Z infer tta (Predict.getitem ds p) = Some pred →
         Py.at2 pred (i - Z.to_nat p.1.1) (j - Z.to_nat p.2.1) = Some u →
         lo <= u <= hi) →
      ∃ q, Py.at2 out i j = Some q ∧ lo <= q <= hi.
Proof.
  destruct tile_bounds as (Hts & HH & HW).
  destruct (plan_covers_intro (Z.of_nat H) (Z.of_nat W) tile_size overlap_factor)
    as (plan & Hplan & Hin & Hcov); [lia..|].
  destruct (weighting_some tile_size Hts tile_even) as (k & Hk & Hks & Hkb).
  fold T in Hks.
  assert (Z.of_nat T = tile_size) as HT by (subst T; lia).
  set (ds := {| Predict.original_img := img;
                Predict.orig_size := (Z.of_nat H, Z.of_nat W);
                Predict.tile_size := tile_size;
                Predict.positions := plan |}).
  assert (∀ p, p ∈ plan → Planner.in_image (Z.of_nat H) (Z.of_nat W) (Z.of_nat T) p)
    as Hin' by (rewrite HT; exact Hin).
  assert (∀ a b kv, Py.at2 k a b = Some kv → 0 < kv) as Hkpos.
  { intros a b kv Hkv. destruct (Hkb a b kv Hkv). lra. }
  assert (0 < T)%nat as HTpos by lia.
  destruct (accumulate_from_spec 0 Qplus Qmult Qdiv inject_Z infer
              ds tta k H W T image_shape Hks HTpos infer_shape
              plan (Py.full H W 0) (Py.full H W 0)
              (is_shape_full _ _ _) (is_shape_full _ _ _) Hin')
    as (gp & gc & Hacc & Hgp & Hgc & Hat).
  exists ds, (Predict.finalize Qdiv (gp, gc)).
  split; [apply (dataset_init_shape H W); [done|lia|done]|].
  split; [|split; [|split; [exact Hin|]]].
  - unfold Predict.predict_entire_mask. simpl. rewrite Hk.
    unfold Predict.accumulate. simpl. unfold Predict.zeros. rewrite !Nat2Z.id.
    fold (Py.full H W 0). by rewrite Hacc.
  - unfold Predict.finalize. simpl. by apply is_shape_zip_with.
  - intros i j lo hi Hi Hj Hbound. rewrite finalize_at. destruct (Hat i j) as [-> ->].
    rewrite at2_full by done. simpl. eexists. split; [done|].
    destruct (Hcov (Z.of_nat i) (Z.of_nat j) ltac:(lia) ltac:(lia)) as (p & Hp & Hpc).
    pose proof (received_weight_positive k H W T Hks Hkpos HTpos plan i j 0 Hin'
                  ltac:(eauto)) as Hpos.
    apply Qdiv_between; [done|].
    apply (received_between _ k i j lo hi Hkpos); [|lra].
    intros q Hq Hqc.
    destruct (offset_in_tile H W T HTpos q i j (Hin' q Hq) Hqc) as [Ha Hb].
    destruct (predict_tile_shape Qplus Qdiv inject_Z infer tta T infer_shape
                (Predict.getitem ds q)) as (pred & Hpred & Hps).
    { apply (getitem_shape ds H W T image_shape HTpos q (Hin' q Hq)). }
    destruct (at2_is_Some T T pred _ _ Hps Ha Hb) as [u Hu].
    destruct (at2_is_Some T T k _ _ Hks Ha Hb) as [kv Hkv].
    exists u, kv. split; [|split; [done|by apply (Hbound q pred)]].
    unfold Predict.weighted. rewrite Hpred. simpl.
    rewrite (map2_shape Qmult T T) by done. simpl.
    by rewrite at2_zip_with, Hu, Hkv.
Qed.
End BlendPixel.


Section TilePredictions.
Local Open Scope Q_scope.
Context {P : Type}.
Variables (T : nat) (tile : matrix P).
Hypothesis tile_shape : Py.is_shape T T tile.


End TilePredictions.






(** ** The accumulation loop on an arbitrary list of tiles *)

Section Received.
Local Open Scope Q_scope.
Variables (contrib : Planner.position → matrix Q) (i j : nat).



Lemma received_uncovered ps a0 :
  (∀ p, p ∈ ps → ¬ Planner.covers p (Z.of_nat i) (Z.of_nat j)) →
  Predict.received 0 Qplus contrib i j a0 ps = a0.
Proof.
  revert a0. induction ps as [|p ps IH]; intros a0 Hun; [done|].
  unfold Predict.received in *. simpl. rewrite decide_False by (apply Hun; by left).
  apply IH. intros q Hq. apply Hun. by right.
Qed.
End Received.

Section Loop.
Local Open Scope Q_scope.
Context {P : Type}.
Variable infer : matrix P → matrix Q.
Variables (ds : Predict.InferenceDataset (P:=P)) (tta : bool) (k : matrix Q).
Variables (H W T : nat).
Hypothesis image_shape : Py.is_shape H W (Predict.original_img ds).
Hypothesis image_size : Predict.orig_size ds = (Z.of_nat H, Z.of_nat W).
Hypothesis kernel_shape : Py.is_shape T T k.
Hypothesis tile_positive : (0 < T)%nat.
Hypothesis infer_shape : ∀ t, Py.is_shape T T t → Py.is_shape T T (infer t).

Let in_img := Planner.in_image (Z.of_nat H) (Z.of_nat W) (Z.of_nat T).

(** The two buffers after the loop over [ps], pixel by pixel. *)
Lemma accumulate_exact_spec ps :
  (∀ p, p ∈ ps → in_img p) →
  ∃ gp gc,
    Predict.accumulate_exact infer (Inference.with_positions ds ps) tta k = Some (gp, gc) ∧
    Py.is_shape H W gp ∧ Py.is_shape H W gc ∧
    ∀ i j, (i < H)%nat → (j < W)%nat →
      Py.at2 gp i j =
        Some (Predict.received 0 Qplus
                (Predict.weighted Qplus Qmult Qdiv inject_Z infer ds tta k) i j 0 ps) ∧
      Py.at2 gc i j = Some (Predict.received 0 Qplus (λ _, k) i j 0 ps).
Proof.
  intros Hin.
  destruct (accumulate_from_spec 0 Qplus Qmult Qdiv inject_Z infer
              ds tta k H W T image_shape kernel_shape tile_positive infer_shape
              ps (Py.full H W 0) (Py.full H W 0)
              (is_shape_full _ _ _) (is_shape_full _ _ _) Hin)
    as (gp & gc & Hacc & Hgp & Hgc & Hat).
  exists gp, gc. split; [|split; [done|split; [done|]]].
  - unfold Predict.accumulate_exact, Predict.accumulate. simpl. rewrite image_size. simpl.
    unfold Predict.zeros. rewrite !Nat2Z.id. fold (Py.full H W 0). exact Hacc.
  - intros i j Hi Hj. destruct (Hat i j) as [-> ->]. by rewrite at2_full.
Qed.
End Loop.



(** X9: the weight total of a pixel is positive exactly when a tile covers
    it.  Over exact arithmetic, for any list of tiles of side [T] inside
    the image, a kernel with positive entries and a model that keeps the
    tile shape, the loop ends with buffers of the image's shape in which
    the weight total of pixel [(i, j)] is positive if and only if some
    tile covers the pixel; a pixel no tile covers holds exactly 0 in both
    buffers, so that the division of the last step is 0 / 0 there. *)
Theorem weight_positive_iff_covered {P} (infer : matrix P → matrix Q)
    (ds : Predict.InferenceDataset (P:=P)) (tta : bool) (k : matrix Q) (H W T : nat) :
  Py.is_shape H W (Predict.original_img ds) →
  Predict.orig_size ds = (Z.of_nat H, Z.of_nat W) →
  Py.is_shape T T k → (0 < T)%nat →
  (∀ a b kv, Py.at2 k a b = Some kv → (0 < kv)%Q) →
  (∀ t, Py.is_shape T T t → Py.is_shape T T (infer t)) →
  (∀ p, p ∈ Predict.positions ds →
     Planner.in_image (Z.of_nat H) (Z.of_nat W) (Z.of_nat T) p) →
  ∃ gp gc,
    Predict.accumulate_exact infer ds tta k = Some (gp, gc) ∧
    Py.is_shape H W gp ∧ Py.is_shape H W gc ∧
    ∀ i j, (i < H)%nat → (j < W)%nat →
      ∃ s w, Py.at2 gp i j = Some s ∧ Py.at2 gc i j = Some w ∧
        let covered := ∃ p, p ∈ Predict.positions ds ∧
                            Planner.covers p (Z.of_nat i) (Z.of_nat j) in
        ((0 < w)%Q ↔ covered) ∧ (¬ covered → s = 0%Q ∧ w = 0%Q).
Proof.
  intros Himg Hsize Hk HT Hkpos Hmodel Hin.
  destruct (accumulate_exact_spec infer ds tta k H W T Himg Hsize Hk HT Hmodel
              (Predict.positions ds) Hin) as (gp & gc & Hacc & Hgp & Hgc & Hat).
  exists gp, gc. split; [by destruct ds|]. split; [done|]. split; [done|].
  intros i j Hi Hj. destruct (Hat i j Hi Hj) as [Hs Hw].
  do 2 eexists. split; [exact Hs|]. split; [exact Hw|]. cbv zeta.
  assert ((¬ ∃ p, p ∈ Predict.positions ds ∧ Planner.covers p (Z.of_nat i) (Z.of_nat j)) →
          ∀ p, p ∈ Predict.positions ds → ¬ Planner.covers p (Z.of_nat i) (Z.of_nat j))
    as Hun by (intros Hno p Hp Hc; apply Hno; eauto).
  split; [split|].
  - intros Hpos.
    destruct (decide (Exists (λ p, Planner.covers p (Z.of_nat i) (Z.of_nat j))
                        (Predict.positions ds))) as [Hex|Hno].
    + apply Exists_exists in Hex. exact Hex.
    + rewrite received_uncovered in Hpos.
      * by apply Qlt_irrefl in Hpos.
      * intros p Hp Hc. apply Hno, Exists_exists. eauto.
  - intros Hcov. by apply (received_weight_positive k H W T Hk Hkpos HT).
  - intros Hno. by rewrite !received_uncovered by (by apply Hun).
Qed.

Lemma weight_positive_iff_covered_witness :
  let img := [[1; 2; 3]; [4; 5; 6]]%Q in
  let k := [[1; 1 # 2]; [1 # 2; 1]]%Q in
  let ds := {| Predict.original_img := img; Predict.orig_size := (2, 3);
               Predict.tile_size := 2;
               Predict.positions := [((0, 2), (0, 2))] |} in
  (Py.is_shape 2 3 img ∧ Py.is_shape 2 2 k ∧
   (∀ a b kv, Py.at2 k a b = Some kv → (0 < kv)%Q) ∧
   (∀ p, p ∈ Predict.positions ds → Planner.in_image 2 3 2 p)) ∧
  ∃ gp gc,
    Predict.accumulate_exact (λ t, t) ds false k = Some (gp, gc) ∧
    Py.is_shape 2 3 gp ∧ Py.is_shape 2 3 gc ∧
    ∀ i j, (i < 2)%nat → (j < 3)%nat →
      ∃ s w, Py.at2 gp i j = Some s ∧ Py.at2 gc i j = Some w ∧
        let covered := ∃ p, p ∈ Predict.positions ds ∧
                            Planner.covers p (Z.of_nat i) (Z.of_nat j) in
        ((0 < w)%Q ↔ covered) ∧ (¬ covered → s = 0%Q ∧ w = 0%Q).
Proof.
  intros img k ds.
  assert (Py.is_shape 2 3 img) as Hs by (split; [reflexivity|repeat constructor]).
  assert (Py.is_shape 2 2 k) as Hk by (split; [reflexivity|repeat constructor]).
  assert (∀ a b kv, Py.at2 k a b = Some kv → (0 < kv)%Q) as Hkpos.
  { intros [|[|a]] [|[|b]] kv; simpl; try done; by intros [= <-]. }
  assert (∀ p, p ∈ Predict.positions ds → Planner.in_image 2 3 2 p) as Hin.
  { intros p Hp. simpl in Hp. apply list_elem_of_singleton in Hp as ->.
    unfold Planner.in_image. simpl. lia. }
  split; [done|].
  apply (weight_positive_iff_covered (λ t, t) ds false k 2 3 2 Hs eq_refl Hk);
    [lia|exact Hkpos|by intros t Ht|exact Hin].
Defined.

(** ** Tile sizes the kernel accepts *)

(** X10: the kernel of the predictors exists for the even tile sizes from
    2 on and for no other: [get_tile_weighting(size)] raises exactly when
    the size is below 2 or odd (the two halves of the distance profile
    then have [size - 1] entries against [size] columns, or the array is
    empty when its maximum is taken). *)
Theorem weighting_raises_iff size :
  Kernel.weighting size = None ↔ size < 2 ∨ Z.odd size = true.
Proof.
  split.
  - intros Hnone. destruct (decide (size < 2)) as [|Hge]; [by left|]. right.
    destruct (Z.odd size) eqn:Hodd; [done|].
    destruct (weighting_some size) as (k & Hk & _); [lia| |congruence].
    by rewrite <- Z.negb_odd, Hodd.
  - intros Hbad. unfold Kernel.weighting, Kernel.get_tile_weighting, Kernel.pre_plateau.
    destruct (decide (size < 0)) as [|Hneg]; [done|].
    destruct (decide (size = 0)) as [->|]; [done|].
    destruct (decide (size = 1)) as [->|]; [done|].
    destruct Hbad as [|Hodd]; [lia|].
    apply Z.odd_spec in Hodd as [half ->].
    replace ((2 * half + 1) `div` 2) with half
      by (apply (Z.div_unique _ 2 half 1); lia).
    cbv zeta. rewrite decide_False; [done|].
    rewrite profile_length by lia. lia.
Qed.

(** ** Items of the inference dataset *)

Lemma index_is_Some {X} (l : list X) (i : Z) :
  is_Some (Py.index l i) ↔ - Z.of_nat (length l) ≤ i < Z.of_nat (length l).
Proof.
  unfold Py.index. repeat case_decide; [rewrite lookup_lt_is_Some; lia..|].
  split; [by intros [? ?]|lia].
Qed.

Lemma index_elem_of {X} (l : list X) (i : Z) (x : X) : Py.index l i = Some x → x ∈ l.
Proof.
  unfold Py.index. repeat case_decide; try done; apply list_elem_of_lookup_2.
Qed.

(** X11: an item of the inference dataset is a tile of the image and its
    place.  For an image of shape [(H, W)], a tile size between 1 and both
    sides and an overlap factor between 1 and the tile size,
    [dataset[idx]] raises exactly when [idx] is outside
    [[-len(dataset), len(dataset))]; otherwise it returns the array
    [[x0, x0 + tile_size, y0, y0 + tile_size]] of a rectangle inside the
    image together with a crop of shape [(tile_size, tile_size)] whose
    entry [(a, b)] is pixel [(x0 + a, y0 + b)] of the image. *)
Theorem inference_item {P} (img : matrix P) (H W : nat) tile_size overlap_factor :
  Py.is_shape H W img →
  1 ≤ tile_size ∧ tile_size ≤ Z.of_nat H ∧ tile_size ≤ Z.of_nat W →
  1 ≤ overlap_factor ≤ tile_size →
  ∃ ds, Predict.dataset_init img overlap_factor tile_size 1 = Some ds ∧
    ∀ idx,
      (Inference.getitem ds idx = None ↔
         ¬ (- Z.of_nat (Inference.len ds) ≤ idx < Z.of_nat (Inference.len ds))) ∧
      ∀ crop pos, Inference.getitem ds idx = Some (crop, pos) →
        ∃ x0 y0,
          pos = [x0; x0 + tile_size; y0; y0 + tile_size] ∧
          0 ≤ x0 ∧ x0 + tile_size ≤ Z.of_nat H ∧ 0 ≤ y0 ∧ y0 + tile_size ≤ Z.of_nat W ∧
          Py.is_shape (Z.to_nat tile_size) (Z.to_nat tile_size) crop ∧
          ∀ a b, (a < Z.to_nat tile_size)%nat → (b < Z.to_nat tile_size)%nat →
            Py.at2 crop a b = Py.at2 img (Z.to_nat x0 + a) (Z.to_nat y0 + b).
Proof.
  intros Himg (Hts & HH & HW) Hof.
  destruct (plan_covers_intro (Z.of_nat H) (Z.of_nat W) tile_size overlap_factor)
    as (plan & Hplan & Hin & _); [lia..|].
  eexists. split; [apply (dataset_init_shape H W); [done|lia|exact Hplan]|].
  intros idx. unfold Inference.getitem, Inference.len. simpl. split.
  - rewrite <- index_is_Some. destruct (Py.index plan idx) as [[pos_x pos_y]|] eqn:E.
    + split; [done|]. intros Hno. exfalso. apply Hno. eauto.
    + split; [|done]. intros _ [? ?]. done.
  - intros crop pos Hitem.
    destruct (Py.index plan idx) as [[[x0 x1] [y0 y1]]|] eqn:E; [|done].
    injection Hitem as <- <-. simpl.
    pose proof (Hin _ (index_elem_of _ _ _ E)) as Hp.
    unfold Planner.in_image in Hp. simpl in Hp. destruct Hp as (? & ? & ? & ? & ? & ?).
    exists x0, y0. replace (x0 + tile_size) with x1 by lia.
    replace (y0 + tile_size) with y1 by lia.
    split; [done|]. repeat (split; [lia|]).
    split.
    + pose proof (slice2_shape H W img x0 x1 y0 y1 Himg) as Hs.
      rewrite H2, H5 in Hs. apply Hs; lia.
    + intros a b Ha Hb. apply (slice2_at H W); (done || lia).
Qed.

Lemma inference_item_witness :
  let img := [[1; 2; 3]; [4; 5; 6]; [7; 8; 9]] in
  (Py.is_shape 3 3 img ∧ (1 ≤ 2 ∧ 2 ≤ Z.of_nat 3 ∧ 2 ≤ Z.of_nat 3) ∧ 1 ≤ 1 ≤ 2) ∧
  ∃ ds, Predict.dataset_init img 1 2 1 = Some ds ∧
    ∀ idx,
      (Inference.getitem ds idx = None ↔
         ¬ (- Z.of_nat (Inference.len ds) ≤ idx < Z.of_nat (Inference.len ds))) ∧
      ∀ crop pos, Inference.getitem ds idx = Some (crop, pos) →
        ∃ x0 y0,
          pos = [x0; x0 + 2; y0; y0 + 2] ∧
          0 ≤ x0 ∧ x0 + 2 ≤ Z.of_nat 3 ∧ 0 ≤ y0 ∧ y0 + 2 ≤ Z.of_nat 3 ∧
          Py.is_shape (Z.to_nat 2) (Z.to_nat 2) crop ∧
          ∀ a b, (a < Z.to_nat 2)%nat → (b < Z.to_nat 2)%nat →
            Py.at2 crop a b = Py.at2 img (Z.to_nat x0 + a) (Z.to_nat y0 + b).
Proof.
  intros img.
  assert (Py.is_shape 3 3 img) as Hs by (split; [reflexivity|repeat constructor]).
  split; [repeat split; (lia || apply Hs)|].
  apply (inference_item img 3 3 2 1 Hs); lia.
Defined.

(** ** The images of a fold *)

Lemma valid_idx_closed (k : Z) (n : nat) :
  0 ≤ k < 5 →
  filter (λ i, Train.fold i = k) (seq 0 n)
    = (λ t, Z.to_nat k + 5 * t)%nat <$> seq 0 (Z.to_nat ((Z.of_nat n + 4 - k) `div` 5)).
Proof.
  intros Hk. induction n as [|n IH].
  { rewrite Z.div_small by lia. done. }
  rewrite seq_S, filter_app, IH. simpl. rewrite filter_cons, filter_nil.
  set (m := Z.to_nat ((Z.of_nat n + 4 - k) `div` 5)).
  case_decide as Hf; unfold Train.fold in Hf.
  - replace (Z.to_nat ((Z.of_nat (S n) + 4 - k) `div` 5)) with (S m)
      by (subst m; Z.div_mod_to_equations; lia).
    rewrite seq_S, fmap_app. simpl. do 2 f_equal.
    subst m. Z.div_mod_to_equations. lia.
  - replace (Z.to_nat ((Z.of_nat (S n) + 4 - k) `div` 5)) with m
      by (subst m; Z.div_mod_to_equations; lia).
    by rewrite app_nil_r.
Qed.


Lemma validation_image_lookup (self : Train.dataset) idx :
  Train.used_img_idx self ≠ [] →
  Selection.validation_image self idx =
    Train.used_img_idx self
      !! Z.to_nat (idx `mod` Z.of_nat (length (Train.used_img_idx self))).
Proof.
  intros Hne. unfold Selection.validation_image.
  assert (0 < length (Train.used_img_idx self))%nat
    by (destruct (Train.used_img_idx self); [done|simpl; lia]).
  rewrite decide_False by lia. unfold Py.index.
  pose proof (Z.mod_pos_bound idx (Z.of_nat (length (Train.used_img_idx self))) ltac:(lia)).
  by rewrite decide_True by lia.
Qed.


(** X13: validation walks through the images of the fold in turn.  For a
    fold [fold_nb] of [[0, 5)] below the number of images [n], after the
    fold switch and in validation mode, [dataset[idx]] reads image number
    [fold_nb + 5 * (idx % m)], where [m = (n + 4 - fold_nb) // 5] is the
    number of images of the fold; this is an image of the fold. *)
Theorem validation_image_closed_form (self : Train.dataset) (fold_nb idx : Z) :
  0 ≤ fold_nb < 5 → fold_nb < Z.of_nat (length (Train.train_img_names self)) →
  let n := Z.of_nat (length (Train.train_img_names self)) in
  let m := (n + 4 - fold_nb) `div` 5 in
  ∃ s image_nb,
    Train.update_fold_nb self fold_nb = Train.Returns s ∧
    Z.of_nat (length (Train.valid_img_idx s)) = m ∧
    Selection.validation_image (Train.train s false) idx = Some image_nb ∧
    Z.of_nat image_nb = fold_nb + 5 * (idx `mod` m) ∧
    image_nb ∈ Train.valid_img_idx s.
Proof.
  intros Hk Hn n m.
  destruct (update_fold_nb_fields self fold_nb) as (s & Hs & _ & _ & Hvalid).
  rewrite (valid_idx_closed fold_nb _ Hk) in Hvalid. fold n m in Hvalid.
  assert (0 < m) as Hm by (subst m n; Z.div_mod_to_equations; lia).
  assert (length (Train.valid_img_idx s) = Z.to_nat m) as Hlen
    by (by rewrite Hvalid, length_fmap, length_seq).
  assert (Train.used_img_idx (Train.train s false) = Train.valid_img_idx s) as Hused by done.
  pose proof (Z.mod_pos_bound idx m Hm) as Hb.
  exists s, (Z.to_nat fold_nb + 5 * Z.to_nat (idx `mod` m))%nat.
  split; [done|]. split; [lia|].
  assert (Train.valid_img_idx s !! Z.to_nat (idx `mod` m)
          = Some (Z.to_nat fold_nb + 5 * Z.to_nat (idx `mod` m))%nat) as Hlook.
  { rewrite Hvalid, list_lookup_fmap, lookup_seq_lt by lia. done. }
  split; [|split; [lia|by apply list_elem_of_lookup_2 in Hlook]].
  rewrite validation_image_lookup
    by (rewrite Hused; destruct (Train.valid_img_idx s); [simpl in Hlen; lia|done]).
  rewrite Hused, Hlen, Z2Nat.id by lia. exact Hlook.
Qed.

Lemma validation_image_closed_form_witness :
  let self :=
    {| Train.sampling_mode := Train.random; Train.train_tile_size := 32;
       Train.before_crop_size := 48; Train.on_spot_sampling := 1;
       Train.train_img_names := ["a"; "b"; "c"; "d"; "e"; "f"; "g"; "h"]%string;
       Train.image_sizes := []; Train.masks := []; Train.conv_hulls := [];
       Train.pseudo_img_sizes := []; Train.pseudo_masks := [];
       Train.train_img_idx := []; Train.valid_img_idx := [];
       Train.train_set := []; Train.valid_set := [];
       Train.used_img_idx := []; Train.sampling_thresh := 1 |} in
  (0 ≤ 2 < 5 ∧ 2 < Z.of_nat (length (Train.train_img_names self))) ∧
  ∃ s image_nb,
    Train.update_fold_nb self 2 = Train.Returns s ∧
    Z.of_nat (length (Train.valid_img_idx s)) = (8 + 4 - 2) `div` 5 ∧
    Selection.validation_image (Train.train s false) 3 = Some image_nb ∧
    Z.of_nat image_nb = 2 + 5 * (3 `mod` ((8 + 4 - 2) `div` 5)) ∧
    image_nb ∈ Train.valid_img_idx s.
Proof.
  intros self. split; [simpl; lia|].
  apply (validation_image_closed_form self 2 3); simpl; lia.
Defined.

(** ** What the fold switch leaves to [train] *)

(** X14: the fold switch alone does not change what is sampled.  After
    the constructor (fold [k], training mode), [update_fold_nb(k')] with
    another fold recomputes the two index lists but leaves
    [used_img_idx] and [sampling_thresh] as they were: every image of the
    new validation fold is still among the images the sampler draws from,
    until [train(True)] is called, after which none is. *)
Theorem fold_switch_keeps_selection (names : list string) (sizes : list (Z * Z))
    (loaded_masks : list (matrix Z)) (hulls : list (matrix bool)) (tile_size : Z)
    (on_spot : Q) (k k' : Z) (sampling : Train.mode) :
  k ≠ k' →
  ∃ s0 s1,
    Train.init names sizes loaded_masks hulls tile_size on_spot k sampling = Train.Returns s0 ∧
    Train.update_fold_nb s0 k' = Train.Returns s1 ∧
    Train.used_img_idx s1 = Train.train_img_idx s0 ∧
    Train.sampling_thresh s1 = on_spot ∧
    (∀ i, i ∈ Train.valid_img_idx s1 → i ∈ Train.used_img_idx s1) ∧
    (∀ i, i ∈ Train.used_img_idx (Train.train s1 true) → i ∉ Train.valid_img_idx s1).
Proof.
  intros Hk. eexists _, _. split; [reflexivity|]. split; [reflexivity|].
  split; [reflexivity|]. split; [reflexivity|]. simpl. split.
  - intros i [Hi Hin]%list_elem_of_filter. apply list_elem_of_filter. split; [lia|done].
  - intros i [Hi _]%list_elem_of_filter [Hi' _]%list_elem_of_filter. done.
Qed.

Lemma fold_switch_keeps_selection_witness :
  0 ≠ 1 ∧
  ∃ s0 s1,
    Train.six_images = Train.Returns s0 ∧
    Train.update_fold_nb s0 1 = Train.Returns s1 ∧
    Train.used_img_idx s1 = Train.train_img_idx s0 ∧
    Train.sampling_thresh s1 = (9 # 10)%Q ∧
    (∀ i, i ∈ Train.valid_img_idx s1 → i ∈ Train.used_img_idx s1) ∧
    (∀ i, i ∈ Train.used_img_idx (Train.train s1 true) → i ∉ Train.valid_img_idx s1).
Proof.
  split; [lia|].
  apply (fold_switch_keeps_selection ["a"; "b"; "c"; "d"; "e"; "f"]%string
           (replicate 6 (10, 10)) (replicate 6 (Py.full 10 10 0)) [] 3 (9 # 10)%Q 0 1
           Train.random).
  lia.
Defined.

(** ** Sampling probabilities *)

Lemma used_areas_from {X} (used : list nat) (l pre : list X) :
  (imap (λ idx area, (length pre + idx, area)%nat) l)
     ≫= (λ ia, if decide (ia.1 ∈ used) then [ia.2] else [])
  = omap (λ i, (pre ++ l) !! i) (filter (λ i, i ∈ used) (seq (length pre) (length l))).
Proof.
  revert pre. induction l as [|a l IH]; intros pre; [done|].
  rewrite imap_cons, bind_cons. cbn [length seq]. rewrite filter_cons. simpl.
  specialize (IH (pre ++ [a])). rewrite <- app_assoc, length_app in IH. simpl in IH.
  rewrite Nat.add_1_r in IH.
  assert (imap ((λ idx area, (length pre + idx, area)%nat) ∘ S) l
          = imap (λ idx area, (S (length pre) + idx, area)%nat) l) as ->.
  { apply imap_ext. intros i x _. simpl. f_equal. lia. }
  rewrite IH, Nat.add_0_r. case_decide; [|done].
  simpl. rewrite lookup_app_r, Nat.sub_diag by lia. done.
Qed.

Lemma omap_lookup_total {X Y} (f : X → option Y) (l : list X) (t : nat) :
  Forall (λ x, is_Some (f x)) l → omap f l !! t = l !! t ≫= f.
Proof.
  intros Hall. revert t. induction Hall as [|x l [y Hy] _ IH]; intros t; [done|].
  simpl. rewrite Hy. destruct t as [|t]; simpl; [done|apply IH].
Qed.

Lemma omap_pointwise {X Y} (f g : X → option Y) (l : list X) :
  (∀ x, f x = g x) → omap f l = omap g l.
Proof.
  intros Hfg. induction l as [|x l IH]; [done|].
  change (omap f (x :: l)) with (match f x with Some y => y :: omap f l | None => omap f l end).
  change (omap g (x :: l)) with (match g x with Some y => y :: omap g l | None => omap g l end).
  by rewrite Hfg, IH.
Qed.

Lemma length_omap_total {X Y} (f : X → option Y) (l : list X) :
  Forall (λ x, is_Some (f x)) l → length (omap f l) = length l.
Proof.
  induction 1 as [|x l [y Hy] _ IH]; [done|]. simpl. rewrite Hy. simpl. f_equal. exact IH.
Qed.

Lemma sum_of_quotients (l : list Z) (total : Z) :
  (foldr Qplus 0 ((λ area, inject_Z area / inject_Z total) <$> l)
   == inject_Z (foldr Z.add 0%Z l) / inject_Z total)%Q.
Proof.
  induction l as [|a l IH]; simpl.
  - unfold Qdiv. ring.
  - setoid_rewrite IH. rewrite inject_Z_plus. unfold Qdiv. ring.
Qed.

(** X15: images are drawn in proportion to their area.  After the
    constructor, with one size per image name, the array
    [sampling_probs] computed by [train(True)] has one entry per used
    image, aligned with [used_img_idx]: entry [t] is the area [h * w] of
    image [used_img_idx[t]] over the total area of the used images; the
    entries sum to 1 when that total is not zero (over exact
    arithmetic). *)
Theorem sampling_probs_by_area (names : list string) (sizes : list (Z * Z))
    (loaded_masks : list (matrix Z)) (hulls : list (matrix bool)) (tile_size : Z)
    (on_spot : Q) (fold_nb : Z) (sampling : Train.mode) :
  length sizes = length names →
  ∃ s, Train.init names sizes loaded_masks hulls tile_size on_spot fold_nb sampling
         = Train.Returns s ∧
    let total := foldr Z.add 0 (Selection.used_areas s) in
    Selection.used_areas s
      = omap (λ i, (λ size, size.1 * size.2) <$> sizes !! i) (Train.used_img_idx s) ∧
    length (Selection.sampling_probs s) = length (Train.used_img_idx s) ∧
    (∀ t i, Train.used_img_idx s !! t = Some i →
       ∃ h w, sizes !! i = Some (h, w) ∧
         Selection.sampling_probs s !! t = Some (inject_Z (h * w) / inject_Z total)%Q) ∧
    (total ≠ 0 → (foldr Qplus 0 (Selection.sampling_probs s) == 1)%Q).
Proof.
  intros Hlen. eexists. split; [reflexivity|].
  set (s := Train.train _ true).
  set (areas := (λ size : Z * Z, size.1 * size.2) <$> sizes).
  set (used := filter (λ i, Z.of_nat i `mod` 5 ≠ fold_nb) (seq 0 (length names))).
  assert (Train.used_img_idx s = used) as Hused by done.
  assert (Selection.images_areas s = areas) as Hareas by done.
  assert (Forall (λ i, is_Some (areas !! i)) used) as Hsome.
  { apply Forall_forall. intros i [_ Hi%elem_of_seq]%list_elem_of_filter.
    apply lookup_lt_is_Some. subst areas. rewrite length_fmap. lia. }
  assert (Selection.used_areas s = omap (λ i, areas !! i) used) as Hua.
  { unfold Selection.used_areas. rewrite Hareas, Hused.
    etransitivity; [apply (used_areas_from used areas [])|]. simpl. f_equal.
    subst areas. rewrite length_fmap, Hlen.
    apply filter_ext_elem. intros i Hi. subst used. rewrite list_elem_of_filter. tauto. }
  cbv zeta. rewrite Hua, Hused. split; [|split; [|split]].
  - apply omap_pointwise. intros i. subst areas. by rewrite list_lookup_fmap.
  - unfold Selection.sampling_probs. rewrite length_fmap, Hua. by apply length_omap_total.
  - intros t i Ht.
    pose proof (Forall_lookup_1 _ _ _ _ Hsome Ht) as [a Ha].
    subst areas. rewrite list_lookup_fmap in Ha.
    destruct (sizes !! i) as [[h w]|] eqn:E; [|done]. injection Ha as <-.
    exists h, w. split; [done|].
    unfold Selection.sampling_probs. rewrite list_lookup_fmap, Hua.
    rewrite (omap_lookup_total _ _ _ Hsome), Ht. simpl.
    by rewrite list_lookup_fmap, E.
  - intros Htotal. unfold Selection.sampling_probs. rewrite Hua.
    setoid_rewrite sum_of_quotients. field.
    intros H0. apply Htotal. apply (inject_Z_injective _ 0). exact H0.
Qed.

Lemma sampling_probs_by_area_witness :
  let names := ["a"; "b"; "c"]%string in
  let sizes := [(10, 20); (30, 10); (20, 25)] in
  length sizes = length names ∧
  ∃ s, Train.init names sizes [] [] 4 (9 # 10)%Q 1 Train.random = Train.Returns s ∧
    let total := foldr Z.add 0 (Selection.used_areas s) in
    Selection.used_areas s
      = omap (λ i, (λ size, size.1 * size.2) <$> sizes !! i) (Train.used_img_idx s) ∧
    length (Selection.sampling_probs s) = length (Train.used_img_idx s) ∧
    (∀ t i, Train.used_img_idx s !! t = Some i →
       ∃ h w, sizes !! i = Some (h, w) ∧
         Selection.sampling_probs s !! t = Some (inject_Z (h * w) / inject_Z total)%Q) ∧
    (total ≠ 0 → (foldr Qplus 0 (Selection.sampling_probs s) == 1)%Q).
Proof.
  intros names sizes. split; [reflexivity|].
  apply (sampling_probs_by_area names sizes [] [] 4 (9 # 10)%Q 1 Train.random).
  reflexivity.
Defined.

(** ** How the rejection loop ends *)

Lemma propose_value self h w ωx ωy :
  Train.before_crop_size self < h → Train.before_crop_size self < w →
  Train.propose self (h, w) ωx ωy =
    Some (ωx `mod` (h - Train.before_crop_size self),
          ωx `mod` (h - Train.before_crop_size self) + Train.before_crop_size self,
          ωy `mod` (w - Train.before_crop_size self),
          ωy `mod` (w - Train.before_crop_size self) + Train.before_crop_size self).
Proof.
  intros Hh Hw. unfold Train.propose, Train.randint. simpl.
  by rewrite !decide_True by lia.
Qed.


(** X16: without rejection the first candidate is returned.  In
    validation mode ([sampling_thresh == 0]) or in random mode, for an
    image larger than the crop on both sides, the loop of [__getitem__]
    runs once: it proposes the rectangle with
    [x1 = randint(h - crop)], [y1 = randint(w - crop)] and side [crop],
    and accepts it. *)
Theorem sampler_accepts_first (self : Train.dataset) (entropy : nat → Z)
    (image_nb : Z) (is_pseudo : bool) (h w : Z) (fuel : nat) :
  (Train.sampling_thresh self == 0)%Q ∨ Train.sampling_mode self = Train.random →
  Train.get_img_dim self image_nb is_pseudo = Some (h, w) →
  Train.before_crop_size self < h → Train.before_crop_size self < w →
  let crop := Train.before_crop_size self in
  let x1 := entropy 0%nat `mod` (h - crop) in
  let y1 := entropy 1%nat `mod` (w - crop) in
  0 ≤ x1 < h - crop ∧ 0 ≤ y1 < w - crop ∧
  Train.sample_tile self entropy image_nb is_pseudo (S fuel)
    = ([(x1, x1 + crop, y1, y1 + crop)], Train.Accepted (x1, x1 + crop, y1, y1 + crop)).
Proof.
  intros Hmode Hdim Hh Hw crop x1 y1.
  split; [apply Z.mod_pos_bound; lia|]. split; [apply Z.mod_pos_bound; lia|].
  unfold Train.sample_tile. rewrite Hdim. simpl.
  rewrite (propose_value self h w _ _ Hh Hw). fold crop x1 y1.
  assert (Train.accept_tile_policy self image_nb x1 (x1 + crop) y1 (y1 + crop) is_pseudo
            (entropy 2%nat) = Some true) as ->; [|done].
  unfold Train.accept_tile_policy. destruct Hmode as [Hz|Hr].
  - apply Qeq_bool_iff in Hz. by rewrite Hz.
  - rewrite Hr. by destruct (Qeq_bool _ _).
Qed.

Lemma sampler_accepts_first_witness :
  let self := Train.train Train.visible_example false in
  let entropy := λ k : nat, 100 + Z.of_nat k in
  ((Train.sampling_thresh self == 0)%Q ∨ Train.sampling_mode self = Train.random) ∧
  Train.get_img_dim self 0 false = Some (60, 60) ∧
  Train.before_crop_size self < 60 ∧
  let crop := Train.before_crop_size self in
  let x1 := entropy 0%nat `mod` (60 - crop) in
  let y1 := entropy 1%nat `mod` (60 - crop) in
  0 ≤ x1 < 60 - crop ∧ 0 ≤ y1 < 60 - crop ∧
  Train.sample_tile self entropy 0 false 1
    = ([(x1, x1 + crop, y1, y1 + crop)], Train.Accepted (x1, x1 + crop, y1, y1 + crop)).
Proof.
  intros self entropy.
  assert (Train.before_crop_size self < 60) as Hc by (vm_compute; reflexivity).
  split; [left; reflexivity|]. split; [reflexivity|]. split; [exact Hc|].
  apply (sampler_accepts_first self entropy 0 false 60 60 0);
    [left; reflexivity|reflexivity|exact Hc|exact Hc].
Defined.


Lemma sum_sublist (l1 l2 : list Z) :
  sublist l1 l2 → Forall (λ v, 0 ≤ v) l2 →
  0 ≤ foldr Z.add 0 l1 ≤ foldr Z.add 0 l2.
Proof.
  induction 1 as [|x l1 l2 _ IH|x l1 l2 _ IH]; intros Hpos; simpl; [lia|..].
  - apply Forall_cons in Hpos as [Hx Hl]. specialize (IH Hl). lia.
  - apply Forall_cons in Hpos as [Hx Hl]. specialize (IH Hl). lia.
Qed.

Lemma slice_sublist {X} (l : list X) a b : sublist (Py.slice l a b) l.
Proof.
  unfold Py.slice. etransitivity; [apply sublist_take|apply sublist_drop].
Qed.

Lemma sum2_slice2_le (m : matrix Z) a b c d :
  Forall (Forall (λ v, 0 ≤ v)) m → Train.sum2 (Py.slice2 m a b c d) ≤ Train.sum2 m.
Proof.
  intros Hpos. unfold Train.sum2, Py.slice2.
  assert (Forall (λ v, 0 ≤ v) (foldr Z.add 0 <$> m)) as Hrows.
  { apply Forall_fmap. eapply Forall_impl; [exact Hpos|]. intros row Hrow. simpl.
    apply (sum_sublist row row); [done|exact Hrow]. }
  transitivity (foldr Z.add 0 (foldr Z.add 0 <$> Py.slice m a b)).
  - assert (Forall (Forall (λ v, 0 ≤ v)) (Py.slice m a b)) as Hsl.
    { apply Forall_forall. intros row Hrow. eapply Forall_forall in Hpos; [exact Hpos|].
      eapply sublist_subseteq; [apply slice_sublist|exact Hrow]. }
    induction Hsl as [|row rows Hrow _ IH]; [done|]. rewrite !fmap_cons. cbn [foldr].
    pose proof (sum_sublist _ _ (slice_sublist row c d) Hrow). lia.
  - apply sum_sublist; [|exact Hrows]. apply fmap_sublist, slice_sublist.
Qed.

Lemma soft_keep_rejects self ω :
  (1 <= Train.sampling_thresh self)%Q → Train.soft_keep self ω = false.
Proof.
  intros Ht. unfold Train.soft_keep. pose proof (rand_range ω) as [_ Hr].
  destruct (Qlt_le_dec (Train.sampling_thresh self) (Train.rand ω)); [lra|done].
Qed.

(** X18: a loop that cannot end.  In visible mode with an acceptance
    threshold of at least 1, for an image that is not pseudo-labelled,
    larger than the crop, and whose mask has no negative entry and sums to
    at most 2000, every candidate is rejected whatever the random draws:
    after any number of iterations the loop of [__getitem__] is still
    running, with one rejected candidate per iteration. *)
Theorem visible_sampler_never_returns (self : Train.dataset) (entropy : nat → Z)
    (image_nb h w : Z) (m : matrix Z) (fuel : nat) :
  Train.sampling_mode self = Train.visible →
  (1 <= Train.sampling_thresh self)%Q →
  Train.get_img_dim self image_nb false = Some (h, w) →
  Train.before_crop_size self < h → Train.before_crop_size self < w →
  Py.index (Train.masks self) image_nb = Some m →
  Forall (Forall (λ v, 0 ≤ v)) m → Train.sum2 m ≤ 2000 →
  ∃ trace,
    Train.sample_tile self entropy image_nb false fuel = (trace, Train.Running) ∧
    length trace = fuel.
Proof.
  intros Hmode Ht Hdim Hh Hw Hm Hpos Hsum.
  assert (∀ x1 x2 y1 y2 ω,
            Train.accept_tile_policy self image_nb x1 x2 y1 y2 false ω = Some false) as Hrej.
  { intros x1 x2 y1 y2 ω.
    assert (Qeq_bool (Train.sampling_thresh self) 0 = false) as Hz.
    { destruct (Qeq_bool _ 0) eqn:E; [|done]. apply Qeq_bool_iff in E. lra. }
    unfold Train.accept_tile_policy, Train.visible_condition, Train.visible_tested.
    rewrite Hz, Hmode, Hm. simpl.
    pose proof (sum2_slice2_le m x1 x2 y1 y2 Hpos).
    rewrite bool_decide_eq_false_2 by lia. by rewrite (soft_keep_rejects self ω Ht). }
  unfold Train.sample_tile. rewrite Hdim. generalize 0%nat.
  induction fuel as [|fuel IH]; intros k; simpl; [by exists []|].
  rewrite (propose_value self h w _ _ Hh Hw), Hrej.
  destruct (IH (3 + k)%nat) as (trace & Htrace & Hlen). simpl in Htrace.
  rewrite Htrace. eexists. split; [done|]. simpl. by rewrite Hlen.
Qed.

Lemma visible_sampler_never_returns_witness :
  let self := Train.pseudo_example in
  let m := Py.full 60 60 0 in
  (Train.sampling_mode self = Train.visible ∧ (1 <= Train.sampling_thresh self)%Q ∧
   Train.get_img_dim self 0 false = Some (60, 60) ∧ Train.before_crop_size self < 60 ∧
   Py.index (Train.masks self) 0 = Some m ∧
   Forall (Forall (λ v, 0 ≤ v)) m ∧ Train.sum2 m ≤ 2000) ∧
  ∃ trace,
    Train.sample_tile self (λ k, Z.of_nat k) 0 false 7 = (trace, Train.Running) ∧
    length trace = 7%nat.
Proof.
  intros self m.
  assert (Train.before_crop_size self < 60) as Hc by (vm_compute; reflexivity).
  assert ((1 <= Train.sampling_thresh self)%Q) as Ht by (vm_compute; discriminate).
  assert (Forall (Forall (λ v, 0 ≤ v)) m) as Hpos
    by (apply Forall_replicate, Forall_replicate; lia).
  assert (Train.sum2 m ≤ 2000) as Hsum by (vm_compute; discriminate).
  split; [repeat split; (reflexivity || assumption)|].
  apply (visible_sampler_never_returns self (λ k, Z.of_nat k) 0 60 60 m 7);
    (reflexivity || assumption).
Defined.


(** ** What an accepted tile contains *)

Lemma sample_loop_accepted self entropy image_nb is_pseudo dim fuel k trace x1 x2 y1 y2 :
  Train.sample_loop self entropy image_nb is_pseudo dim fuel k
    = (trace, Train.Accepted (x1, x2, y1, y2)) →
  ∃ ωx ωy ω,
    Train.propose self dim ωx ωy = Some (x1, x2, y1, y2) ∧
    Train.accept_tile_policy self image_nb x1 x2 y1 y2 is_pseudo ω = Some true.
Proof.
  revert k trace. induction fuel as [|fuel IH]; intros k trace; simpl; [done|].
  destruct (Train.propose self dim (entropy k) (entropy (S k)))
    as [[[[a1 a2] b1] b2]|] eqn:Hprop; [|done].
  destruct (Train.accept_tile_policy self image_nb a1 a2 b1 b2 is_pseudo
              (entropy (S (S k)))) as [[|]|] eqn:Hacc; [| |done].
  - intros [= <- <- <- <- <-]. eauto.
  - destruct (Train.sample_loop self entropy image_nb is_pseudo dim fuel _)
      as [trace' st'] eqn:E.
    intros [= <- ->]. by apply (IH _ _ E).
Qed.

Lemma sample_tile_accepted self entropy image_nb is_pseudo fuel trace x1 x2 y1 y2 :
  Train.sample_tile self entropy image_nb is_pseudo fuel
    = (trace, Train.Accepted (x1, x2, y1, y2)) →
  ∃ dim ωx ωy ω,
    Train.get_img_dim self image_nb is_pseudo = Some dim ∧
    Train.propose self dim ωx ωy = Some (x1, x2, y1, y2) ∧
    Train.accept_tile_policy self image_nb x1 x2 y1 y2 is_pseudo ω = Some true.
Proof.
  unfold Train.sample_tile.
  destruct (Train.get_img_dim self image_nb is_pseudo) as [dim|]; [|done].
  intros (ωx & ωy & ω & ? & ?)%sample_loop_accepted. by exists dim, ωx, ωy, ω.
Qed.

Lemma thresh_not_zero self :
  (1 <= Train.sampling_thresh self)%Q → Qeq_bool (Train.sampling_thresh self) 0 = false.
Proof.
  intros Ht. destruct (Qeq_bool _ 0) eqn:E; [|done]. apply Qeq_bool_iff in E. lra.
Qed.

(** X19: in visible mode every returned tile shows its target.  With an
    acceptance threshold of at least 1 and an image that is not
    pseudo-labelled, whenever the loop of [__getitem__] accepts a
    rectangle, the mask of the image sums to more than 2000 over that
    rectangle, which is the mask crop [select_tile] returns. *)
Theorem visible_tile_has_target {P} (imgs pseudo_images : list (matrix P))
    (self : Train.dataset) (entropy : nat → Z) (image_nb : Z) (fuel : nat)
    (trace : list Train.rect) (x1 x2 y1 y2 : Z) (img : matrix P) :
  Train.sampling_mode self = Train.visible →
  (1 <= Train.sampling_thresh self)%Q →
  Py.index imgs image_nb = Some img →
  Train.sample_tile self entropy image_nb false fuel
    = (trace, Train.Accepted (x1, x2, y1, y2)) →
  ∃ mask,
    Selection.select_tile imgs pseudo_images self image_nb false x1 x2 y1 y2
      = Some (Py.slice2 img x1 x2 y1 y2, mask) ∧
    Train.sum2 mask > 2000.
Proof.
  intros Hmode Ht Himg (dim & ωx & ωy & ω & _ & _ & Hacc)%sample_tile_accepted.
  unfold Train.accept_tile_policy in Hacc.
  rewrite (thresh_not_zero self Ht), Hmode in Hacc.
  unfold Train.visible_condition, Train.visible_tested in Hacc.
  unfold Selection.select_tile. rewrite Himg.
  destruct (Py.index (Train.masks self) image_nb) as [m|]; [|done]. simpl in Hacc.
  eexists. split; [done|].
  destruct (bool_decide (Train.sum2 (Py.slice2 m x1 x2 y1 y2) > 2000)) eqn:E.
  - by apply bool_decide_eq_true in E.
  - by rewrite (soft_keep_rejects self ω Ht) in Hacc.
Qed.

Lemma visible_tile_has_target_witness :
  let self := Train.visible_example in
  let img := Py.full 60 60 true in
  (Train.sampling_mode self = Train.visible ∧ (1 <= Train.sampling_thresh self)%Q ∧
   Py.index [img] 0 = Some img ∧
   Train.sample_tile self (λ _, 0) 0 false 1
     = ([(0, 48, 0, 48)], Train.Accepted (0, 48, 0, 48))) ∧
  ∃ mask,
    Selection.select_tile [img] [] self 0 false 0 48 0 48
      = Some (Py.slice2 img 0 48 0 48, mask) ∧
    Train.sum2 mask > 2000.
Proof.
  intros self img.
  assert ((1 <= Train.sampling_thresh self)%Q) as Ht by (vm_compute; discriminate).
  assert (Train.sample_tile self (λ _, 0) 0 false 1
            = ([(0, 48, 0, 48)], Train.Accepted (0, 48, 0, 48))) as Hrun
    by (vm_compute; reflexivity).
  split; [repeat split; (reflexivity || assumption)|].
  apply (visible_tile_has_target [img] [] self (λ _, 0) 0 1 [(0, 48, 0, 48)] 0 48 0 48 img);
    (reflexivity || assumption).
Defined.

(** X20: in centered mode every returned tile has its target in the
    middle.  With an acceptance threshold of at least 1, an image of shape
    [(H, W)] that is not pseudo-labelled and is larger than the crop,
    and a mask of the same shape, whenever the loop of [__getitem__]
    accepts a rectangle, the mask crop of that rectangle is not zero at
    its entry [(crop // 2, crop // 2)]: the pixel the policy tests,
    [int((x1 + x2) / 2), int((y1 + y2) / 2)], is that entry of the crop. *)
Theorem centered_tile_has_target (self : Train.dataset) (entropy : nat → Z)
    (image_nb : Z) (H W : nat) (m : matrix Z) (fuel : nat)
    (trace : list Train.rect) (x1 x2 y1 y2 : Z) :
  Train.sampling_mode self = Train.centered →
  (1 <= Train.sampling_thresh self)%Q →
  Train.get_img_dim self image_nb false = Some (Z.of_nat H, Z.of_nat W) →
  Py.index (Train.masks self) image_nb = Some m → Py.is_shape H W m →
  1 ≤ Train.before_crop_size self →
  Train.before_crop_size self < Z.of_nat H → Train.before_crop_size self < Z.of_nat W →
  Train.sample_tile self entropy image_nb false fuel
    = (trace, Train.Accepted (x1, x2, y1, y2)) →
  let centre := Z.to_nat (Train.before_crop_size self `div` 2) in
  ∃ v, Py.at2 (Py.slice2 m x1 x2 y1 y2) centre centre = Some v ∧ v ≠ 0.
Proof.
  intros Hmode Ht Hdim Hm Hshape Hc HH HW
    (dim & ωx & ωy & ω & Hdim' & Hprop & Hacc)%sample_tile_accepted centre.
  rewrite Hdim in Hdim'. injection Hdim' as <-.
  rewrite (propose_value self _ _ _ _ HH HW) in Hprop.
  set (c := Train.before_crop_size self) in *.
  pose proof (Z.mod_pos_bound ωx (Z.of_nat H - c) ltac:(lia)) as Bx.
  pose proof (Z.mod_pos_bound ωy (Z.of_nat W - c) ltac:(lia)) as By.
  injection Hprop as Hx1 Hx2 Hy1 Hy2. rewrite Hx1 in Hx2. rewrite Hy1 in Hy2.
  rewrite Hx1 in Bx. rewrite Hy1 in By. clear Hx1 Hy1.
  unfold Train.accept_tile_policy in Hacc.
  rewrite (thresh_not_zero self Ht), Hmode, Hm in Hacc.
  assert (0 ≤ c `div` 2 < c) as Hhalf by (Z.div_mod_to_equations; lia).
  assert (Z.quot (x1 + x2) 2 = x1 + c `div` 2) as Ecx.
  { rewrite Z.quot_div_nonneg by lia. Z.div_mod_to_equations. lia. }
  assert (Z.quot (y1 + y2) 2 = y1 + c `div` 2) as Ecy.
  { rewrite Z.quot_div_nonneg by lia. Z.div_mod_to_equations. lia. }
  rewrite Ecx, Ecy in Hacc.
  rewrite (slice2_at H W) by (done || lia).
  replace (Z.to_nat x1 + centre)%nat with (Z.to_nat (x1 + c `div` 2)) by lia.
  replace (Z.to_nat y1 + centre)%nat with (Z.to_nat (y1 + c `div` 2)) by lia.
  unfold Py.index2, Py.index in Hacc. rewrite decide_True in Hacc by lia.
  unfold Py.at2.
  destruct (m !! Z.to_nat (x1 + c `div` 2)) as [row|]; [|done]. simpl in *.
  rewrite decide_True in Hacc by lia.
  destruct (row !! Z.to_nat (y1 + c `div` 2)) as [v|]; [|done].
  exists v. split; [done|]. intros ->.
  rewrite bool_decide_eq_false_2 in Hacc by (intros Hne; by apply Hne).
  by rewrite (soft_keep_rejects self ω Ht) in Hacc.
Qed.

Lemma centered_tile_has_target_witness :
  let self := Selection.centered_example in
  let m := Py.full 10 10 1 in
  (Train.sampling_mode self = Train.centered ∧ (1 <= Train.sampling_thresh self)%Q ∧
   Train.get_img_dim self 0 false = Some (Z.of_nat 10, Z.of_nat 10) ∧
   Py.index (Train.masks self) 0 = Some m ∧ Py.is_shape 10 10 m ∧
   1 ≤ Train.before_crop_size self ∧ Train.before_crop_size self < Z.of_nat 10 ∧
   Train.sample_tile self (λ k, Z.of_nat k) 0 false 1
     = ([(0, 6, 1, 7)], Train.Accepted (0, 6, 1, 7))) ∧
  ∃ v, Py.at2 (Py.slice2 m 0 6 1 7) 3 3 = Some v ∧ v ≠ 0.
Proof.
  intros self m.
  assert ((1 <= Train.sampling_thresh self)%Q) as Ht by (vm_compute; discriminate).
  assert (1 ≤ Train.before_crop_size self) as Hc1 by (vm_compute; discriminate).
  assert (Train.before_crop_size self < Z.of_nat 10) as Hc2 by (vm_compute; reflexivity).
  assert (Train.sample_tile self (λ k, Z.of_nat k) 0 false 1
            = ([(0, 6, 1, 7)], Train.Accepted (0, 6, 1, 7))) as Hrun
    by (vm_compute; reflexivity).
  split; [repeat split; (reflexivity || assumption || apply is_shape_full)|].
  apply (centered_tile_has_target self (λ k, Z.of_nat k) 0 10 10 m 1 [(0, 6, 1, 7)] 0 6 1 7);
    (reflexivity || assumption || apply is_shape_full).
Defined.

(** ** The kernel from the border to the centre *)

Section Monotone.
Local Open Scope Q_scope.

Lemma rint_comp q q' : q == q' → Py.rint q = Py.rint q'.
Proof.
  intros Hq. unfold Py.rint. rewrite (Qfloor_comp _ _ Hq).
  assert ((q - inject_Z (Qfloor q') ?= 1 # 2) = (q' - inject_Z (Qfloor q') ?= 1 # 2)) as ->; [|done].
  apply Qcompare_comp; [by setoid_rewrite Hq|reflexivity].
Qed.

Lemma rint_mono q q' : q <= q' → (Py.rint q ≤ Py.rint q')%Z.
Proof.
  intros Hq. destruct (Z_le_gt_dec (Py.rint q) (Py.rint q')) as [|Hgt]; [done|]. exfalso.
  destruct (rint_near q) as [_ Hhi]. destruct (rint_near q') as [Hlo _].
  assert (inject_Z (Py.rint q') + 1 <= inject_Z (Py.rint q)) as Hstep.
  { change 1 with (inject_Z 1). rewrite <- inject_Z_plus, <- Zle_Qle. lia. }
  assert (q == q') as E by lra.
  rewrite (rint_comp _ _ E) in Hgt. lia.
Qed.

Lemma pow2_pos (e : Z) : 0 < 2 ^ e.
Proof. apply Qpower_0_lt. lra. Qed.

Lemma binade_mono q q' : 0 < q → q <= q' → (Py.binade q ≤ Py.binade q')%Z.
Proof.
  intros Hq Hle. destruct (binade_spec q Hq) as [L _].
  destruct (binade_spec q') as [_ U']; [lra|].
  destruct (Z_le_gt_dec (Py.binade q) (Py.binade q')) as [|Hgt]; [done|]. exfalso.
  pose proof (Qpower_le_compat_l 2 (Py.binade q' + 1) (Py.binade q) ltac:(lia) ltac:(lra)) as M.
  set (X := 2 ^ (Py.binade q' + 1)) in *. set (Y := 2 ^ Py.binade q) in *. lra.
Qed.

Lemma half_magnitude_mono q q' : 0 < q → q <= q' → Py.half_magnitude q <= Py.half_magnitude q'.
Proof.
  intros Hq Hle. assert (0 < q') as Hq' by lra.
  pose proof (binade_mono q q' Hq Hle) as Hb.
  destruct (binade_spec q Hq) as [_ U]. destruct (binade_spec q' Hq') as [L' _].
  unfold Py.half_magnitude.
  set (E := Z.max (Py.binade q) (-14)). set (E' := Z.max (Py.binade q') (-14)).
  pose proof (pow2_pos (E - 10)) as Hu. pose proof (pow2_pos (E' - 10)) as Hu'.
  destruct (decide (E = E')) as [<-|Hne].
  - apply Qmult_le_compat_r; [|lra]. rewrite <- Zle_Qle. apply rint_mono.
    apply Qle_shift_div_l; [done|].
    assert (q / 2 ^ (E - 10) * 2 ^ (E - 10) == q) as -> by (field; lra). done.
  - assert (E < E')%Z as Hlt by lia.
    assert (E' = Py.binade q') as HE' by lia.
    assert (2 ^ (E + 1) == 2048 * 2 ^ (E - 10)) as E1.
    { replace (E + 1)%Z with (11 + (E - 10))%Z by lia. rewrite Qpower_plus by lra. reflexivity. }
    assert (2 ^ E' == 1024 * 2 ^ (E' - 10)) as E2.
    { replace E' with (10 + (E' - 10))%Z at 1 by lia. rewrite Qpower_plus by lra. reflexivity. }
    pose proof (Qpower_le_compat_l 2 (Py.binade q + 1) (E + 1) ltac:(lia) ltac:(lra)) as M1.
    pose proof (Qpower_le_compat_l 2 (E + 1) E' ltac:(lia) ltac:(lra)) as M2.
    rewrite <- HE' in L'.
    set (u := 2 ^ (E - 10)) in *. set (u' := 2 ^ (E' - 10)) in *.
    set (A := 2 ^ (E + 1)) in *. set (B := 2 ^ E') in *.
    set (C := 2 ^ (Py.binade q + 1)) in *.
    assert (inject_Z (Py.rint (q / u)) <= 2048) as Hr.
    { change 2048 with (inject_Z 2048). rewrite <- Zle_Qle. apply rint_le.
      apply Qle_shift_div_r; [done|]. change (inject_Z 2048) with 2048. lra. }
    assert (1024 <= inject_Z (Py.rint (q' / u'))) as Hr'.
    { change 1024 with (inject_Z 1024). rewrite <- Zle_Qle. apply rint_ge.
      apply Qle_shift_div_l; [done|]. change (inject_Z 1024) with 1024. lra. }
    assert (inject_Z (Py.rint (q / u)) * u <= 2048 * u) by (apply Qmult_le_compat_r; lra).
    assert (1024 * u' <= inject_Z (Py.rint (q' / u')) * u') by (apply Qmult_le_compat_r; lra).
    lra.
Qed.

Lemma to_half_mono q q' : 0 < q → q <= q' → Py.to_half q <= Py.to_half q'.
Proof.
  intros Hq Hle. unfold Py.to_half.
  assert (0 < q') as Hq' by lra.
  apply Qgt_alt in Hq as Hc. apply Qgt_alt in Hq' as Hc'. rewrite Hc, Hc'.
  by apply half_magnitude_mono.
Qed.

Lemma round_3_mono q q' : q <= q' → Py.round q 3 <= Py.round q' 3.
Proof.
  intros Hle. unfold Py.round. change (inject_Z (10 ^ 3)) with 1000.
  apply Qmult_le_compat_r; [|unfold Qle; simpl; lia]. rewrite <- Zle_Qle. apply rint_mono. lra.
Qed.

Lemma clip_mono lo hi w w' : w <= w' → Kernel.clip lo hi w <= Kernel.clip lo hi w'.
Proof.
  intros Hle. unfold Kernel.clip. apply Q.min_le_compat_r, Q.max_le_compat_r, Hle.
Qed.

Lemma plateau_mono w w' : w <= w' → Kernel.plateau 1 w <= Kernel.plateau 1 w'.
Proof.
  intros Hle. unfold Kernel.plateau.
  destruct (Qlt_le_dec 1 w), (Qlt_le_dec 1 w');
    (apply Qmult_le_compat_r; [lra|unfold Qle; simpl; lia]).
Qed.

Lemma finish_mono w w' : w <= w' → Kernel.finish 1 w <= Kernel.finish 1 w'.
Proof.
  intros Hle. unfold Kernel.finish.
  pose proof (round_3_bounds _ (clip_bounds (Kernel.plateau 1 w))) as [Hlo _].
  apply to_half_mono; [lra|]. apply round_3_mono, clip_mono, plateau_mono, Hle.
Qed.

Lemma finish_floor w :
  w < 1 # 1000 → Kernel.finish 1 w = 1049 # 1048576.
Proof.
  intros Hw. unfold Kernel.finish, Kernel.clip, Kernel.plateau.
  destruct (Qlt_le_dec 1 w) as [|_]; [lra|].
  assert (Qmax (w / 1) (1 # 1000) = 1 # 1000) as ->; [|reflexivity].
  destruct (Qmax_select (w / 1) (1 # 1000)) as [E|E]; [|done]. exfalso.
  pose proof (Q.le_max_r (w / 1) (1 # 1000)) as Hr. rewrite E in Hr.
  assert (w / 1 == w) as Ew by (field; lra). lra.
Qed.
End Monotone.

Section KernelProfile.
Local Open Scope Q_scope.
Variable half : Z.
Hypothesis half_positive : (1 ≤ half)%Z.
Let n := Z.to_nat (2 * half).

(** The kernel in closed form, with the two reductions of line 43. *)
Lemma weighting_closed_form alpha eps :
  ∃ lo hi,
    Kernel.get_tile_weighting (2 * half) 1 alpha eps =
      Some (Py.tabulate n
              (λ i j, Kernel.finish alpha
                        (Kernel.rescale lo hi eps
                           (Kernel.normalise half 1 (Kernel.pyramid half i j))))) ∧
    hi == 1 ∧ lo == 1 / inject_Z half.
Proof.
  assert (0 < n)%nat as Hn by (subst n; lia).
  pose proof (half_positive_Q half half_positive) as Hh.
  set (f := λ i j, Kernel.normalise half 1 (Kernel.pyramid half i j)).
  destruct (reduce_is_Some Qmin n f Hn) as [lo Hlo].
  destruct (reduce_is_Some Qmax n f Hn) as [hi Hhi].
  assert (∀ i j, (i < n)%nat → (j < n)%nat → f i j <= hi) as Hub.
  { intros i j Hi Hj.
    apply (reduce_bound Qle Qmax _ _ Qle_refl Qle_trans
             (λ x y, conj (Q.le_max_l x y) (Q.le_max_r x y)) Hhi).
    apply elem_of_concat_tabulate. eauto. }
  assert (∀ i j, (i < n)%nat → (j < n)%nat → lo <= f i j) as Hlb.
  { intros i j Hi Hj.
    apply (reduce_bound (λ x y, y <= x) Qmin _ _ Qle_refl
             (λ x y z H1 H2, Qle_trans _ _ _ H2 H1)
             (λ x y, conj (Q.le_min_l x y) (Q.le_min_r x y)) Hlo).
    apply elem_of_concat_tabulate. eauto. }
  assert (∀ i j, (i < n)%nat → (j < n)%nat →
            f i j == inject_Z (Kernel.pyramid half i j) / inject_Z half ∧
            (1 ≤ Kernel.pyramid half i j ≤ half)%Z) as Hf.
  { intros i j Hi Hj. pose proof (pyramid_bounds half half_positive i j Hi Hj) as Hb.
    split; [|done]. apply (normalise_value half half_positive _ Hb). }
  exists lo, hi. split; [|split].
  - unfold Kernel.get_tile_weighting, Kernel.pre_plateau. rewrite decide_False by lia.
    replace ((2 * half) `div` 2)%Z with half by (apply Z.div_unique_exact; lia).
    cbv zeta. rewrite decide_True by apply (profile_length half half_positive).
    pose proof (distance_field half half_positive) as Hdf. cbv zeta in Hdf.
    rewrite Hdf, (pyramid_max half half_positive).
    rewrite mmap_tabulate. fold n f. rewrite Hlo, Hhi.
    by rewrite !mmap_tabulate.
  - apply Qle_antisym.
    + apply (reduce_select Qmax) in Hhi; [|apply Qmax_select].
      apply elem_of_concat_tabulate in Hhi as (i & j & Hi & Hj & ->).
      destruct (Hf i j Hi Hj) as [E Hb]. setoid_rewrite E.
      apply Qle_shift_div_r; [done|]. rewrite Qmult_1_l, <- Zle_Qle. lia.
    + set (c := Z.to_nat (half - 1)).
      assert (c < n)%nat as Hc by (subst c n; lia).
      destruct (Hf c c Hc Hc) as [E _].
      assert (Kernel.pyramid half c c = half) as Ep
        by (apply (pyramid_top half half_positive); subst c; lia).
      rewrite Ep in E.
      assert (f c c == 1) as E1 by (setoid_rewrite E; field; lra).
      setoid_rewrite <- E1. by apply Hub.
  - apply Qle_antisym.
    + destruct (Hf 0%nat 0%nat Hn Hn) as [E _].
      assert (Kernel.pyramid half 0 0 = 1%Z) as Ep.
      { unfold Kernel.pyramid, Kernel.edge_distance. rewrite decide_True by lia. lia. }
      rewrite Ep in E. setoid_rewrite <- E. by apply Hlb.
    + apply (reduce_select Qmin) in Hlo; [|apply Qmin_select].
      apply elem_of_concat_tabulate in Hlo as (i & j & Hi & Hj & ->).
      destruct (Hf i j Hi Hj) as [E Hb]. setoid_rewrite E.
      apply Qmult_le_compat_r; [|apply Qlt_le_weak, Qinv_lt_0_compat, Hh].
      change 1 with (inject_Z 1). rewrite <- Zle_Qle. lia.
Qed.

Lemma pyramid_border i j :
  (i < n)%nat → (j < n)%nat →
  (i = 0 ∨ i = n - 1 ∨ j = 0 ∨ j = n - 1)%nat → Kernel.pyramid half i j = 1%Z.
Proof.
  intros Hi Hj Hb. subst n. unfold Kernel.pyramid, Kernel.edge_distance.
  repeat case_decide; lia.
Qed.
End KernelProfile.

(** X21: the border of the kernel is the clip floor.  For every even tile
    size from 4 on, each entry of the first and last row and of the first
    and last column of the kernel is [np.float16(0.001)], that is
    1049 / 2^20: the [eps] of the rescaling is rounded away and only the
    lower clip bound remains. *)
Theorem kernel_border (half : Z) :
  2 ≤ half →
  ∃ k, Kernel.weighting (2 * half) = Some k ∧
    ∀ i j, (i < Z.to_nat (2 * half))%nat → (j < Z.to_nat (2 * half))%nat →
      (i = 0 ∨ i = Z.to_nat (2 * half) - 1 ∨ j = 0 ∨ j = Z.to_nat (2 * half) - 1)%nat →
      Py.at2 k i j = Some (1049 # 1048576)%Q.
Proof.
  intros Hhalf.
  destruct (weighting_closed_form half ltac:(lia) 1 (1 # 1000000))
    as (lo & hi & Hk & Hhi & Hlo).
  eexists. split; [exact Hk|]. intros i j Hi Hj Hb.
  rewrite at2_tabulate by done. f_equal. apply finish_floor.
  rewrite (pyramid_border half ltac:(lia) i j Hi Hj Hb).
  destruct (normalise_value half ltac:(lia) 1 ltac:(lia)) as [E _].
  pose proof (half_positive_Q half ltac:(lia)) as Hh.
  assert (1 / inject_Z half <= 1 # 2)%Q as Hhalf'.
  { apply Qle_shift_div_r; [done|].
    assert (2 <= inject_Z half)%Q by (change 2%Q with (inject_Z 2); rewrite <- Zle_Qle; lia).
    lra. }
  unfold Kernel.rescale. apply Qlt_shift_div_r; [lra|].
  setoid_rewrite E. setoid_rewrite Hhi. setoid_rewrite Hlo.
  set (X := (1 / inject_Z half)%Q) in *. change (inject_Z 1) with 1%Q. fold X. lra.
Qed.

Lemma kernel_border_witness :
  2 ≤ 3 ∧
  ∃ k, Kernel.weighting (2 * 3) = Some k ∧
    ∀ i j, (i < Z.to_nat (2 * 3))%nat → (j < Z.to_nat (2 * 3))%nat →
      (i = 0 ∨ i = Z.to_nat (2 * 3) - 1 ∨ j = 0 ∨ j = Z.to_nat (2 * 3) - 1)%nat →
      Py.at2 k i j = Some (1049 # 1048576)%Q.
Proof. split; [lia|]. apply (kernel_border 3). lia. Defined.

(** X22: the weights never decrease toward the centre.  For every even
    tile size [2 * half >= 2], whenever entry [(i, j)] is at most as far
    from the nearest edge of the tile as entry [(i', j')] (distances
    [min(i, j, size - 1 - i, size - 1 - j) + 1], the pyramid of line 39),
    the kernel is at most as large at [(i, j)] as at [(i', j')]: scaling,
    clipping, rounding to three decimals and the cast to float16 all keep
    the order. *)
Theorem kernel_grows_inward (half : Z) (i j i' j' : nat) :
  1 ≤ half →
  (i < Z.to_nat (2 * half))%nat → (j < Z.to_nat (2 * half))%nat →
  (i' < Z.to_nat (2 * half))%nat → (j' < Z.to_nat (2 * half))%nat →
  Kernel.pyramid half i j ≤ Kernel.pyramid half i' j' →
  ∃ k v v', Kernel.weighting (2 * half) = Some k ∧
    Py.at2 k i j = Some v ∧ Py.at2 k i' j' = Some v' ∧ (v <= v')%Q.
Proof.
  intros Hhalf Hi Hj Hi' Hj' Hd.
  destruct (weighting_closed_form half Hhalf 1 (1 # 1000000))
    as (lo & hi & Hk & Hhi & Hlo).
  eexists _, _, _. split; [exact Hk|].
  rewrite !at2_tabulate by done. split; [done|]. split; [done|].
  apply finish_mono.
  pose proof (half_positive_Q half Hhalf) as Hh.
  pose proof (pyramid_bounds half Hhalf i j Hi Hj) as Hb.
  pose proof (pyramid_bounds half Hhalf i' j' Hi' Hj') as Hb'.
  destruct (normalise_value half Hhalf _ Hb) as [E _].
  destruct (normalise_value half Hhalf _ Hb') as [E' _].
  assert (1 / inject_Z half <= 1)%Q as Hone.
  { apply Qle_shift_div_r; [done|].
    assert (1 <= inject_Z half)%Q by (change 1%Q with (inject_Z 1); rewrite <- Zle_Qle; lia).
    lra. }
  assert (Kernel.normalise half 1 (Kernel.pyramid half i j)
          <= Kernel.normalise half 1 (Kernel.pyramid half i' j'))%Q as Hn.
  { setoid_rewrite E. setoid_rewrite E'.
    apply Qmult_le_compat_r; [|apply Qlt_le_weak, Qinv_lt_0_compat, Hh].
    rewrite <- Zle_Qle. exact Hd. }
  unfold Kernel.rescale. apply Qmult_le_compat_r; [lra|].
  apply Qlt_le_weak, Qinv_lt_0_compat. setoid_rewrite Hhi. setoid_rewrite Hlo. lra.
Qed.

Lemma kernel_grows_inward_witness :
  (1 ≤ 3 ∧ (0 < Z.to_nat (2 * 3))%nat ∧ (4 < Z.to_nat (2 * 3))%nat ∧
   (2 < Z.to_nat (2 * 3))%nat ∧ (1 < Z.to_nat (2 * 3))%nat ∧
   Kernel.pyramid 3 0 4 ≤ Kernel.pyramid 3 2 1) ∧
  ∃ k v v', Kernel.weighting (2 * 3) = Some k ∧
    Py.at2 k 0 4 = Some v ∧ Py.at2 k 2 1 = Some v' ∧ (v <= v')%Q.
Proof.
  split; [repeat split; (simpl; lia) || (vm_compute; discriminate)|].
  apply (kernel_grows_inward 3 0 4 2 1); (simpl; lia) || (vm_compute; discriminate).
Defined.

(** ** When the predictor raises *)

Lemma get_positions_None h w tile_size overlap_factor :
  overlap_factor = 0 ∨ Z.abs tile_size < Z.abs overlap_factor →
  Planner.get_positions h w tile_size overlap_factor = None.
Proof.
  intros Hbad. unfold Planner.get_positions, Py.int_truediv.
  destruct (decide (overlap_factor = 0)) as [|Hof]; [done|].
  destruct Hbad as [|Hsmall]; [done|].
  apply (Z.quot_small_iff tile_size overlap_factor Hof) in Hsmall.
  unfold Py.arange. by rewrite Hsmall.
Qed.

Lemma get_positions_is_Some h w tile_size overlap_factor :
  overlap_factor ≠ 0 → Z.abs overlap_factor ≤ Z.abs tile_size →
  is_Some (Planner.get_positions h w tile_size overlap_factor).
Proof.
  intros Hof Hle. unfold Planner.get_positions, Py.int_truediv.
  rewrite decide_False by done.
  assert (tile_size `quot` overlap_factor ≠ 0) as Hstep.
  { intros Hz. apply (Z.quot_small_iff tile_size overlap_factor Hof) in Hz. lia. }
  unfold Py.arange. rewrite !decide_False by done. eauto.
Qed.

Lemma get_positions_backward h w tile_size overlap_factor :
  0 ≤ h → overlap_factor < 0 → - overlap_factor ≤ tile_size →
  Planner.get_positions h w tile_size overlap_factor = Some [].
Proof.
  intros Hh Hof Hle. unfold Planner.get_positions, Py.int_truediv.
  rewrite decide_False by lia.
  assert (tile_size `quot` overlap_factor < 0) as Hstep.
  { pose proof (Z.quot_small_iff tile_size overlap_factor ltac:(lia)) as Hs.
    pose proof (Z.quot_opp_r tile_size (- overlap_factor) ltac:(lia)) as Ho.
    rewrite Z.opp_involutive in Ho.
    pose proof (Z.quot_pos tile_size (- overlap_factor) ltac:(lia) ltac:(lia)).
    destruct (decide (tile_size `quot` overlap_factor = 0)) as [Hz|]; [|lia].
    apply Hs in Hz. lia. }
  unfold Py.arange. rewrite !decide_False by lia.
  assert (Py.cdiv (h - 0) (tile_size `quot` overlap_factor) ≤ 0) as Hc.
  { unfold Py.cdiv. set (s := tile_size `quot` overlap_factor) in *.
    assert (0 ≤ (- (h - 0)) `div` s); [|lia].
    pose proof (Z.div_mod (- (h - 0)) s ltac:(lia)) as E.
    pose proof (Z.mod_neg_bound (- (h - 0)) s Hstep) as B. nia. }
  assert (seqZ 0 (Py.cdiv (h - 0) (tile_size `quot` overlap_factor)) = []) as ->; [|done].
  apply length_zero_iff_nil. rewrite length_seqZ. lia.
Qed.

Lemma weighting_None size :
  size < 2 ∨ Z.odd size = true → Kernel.weighting size = None.
Proof.
  intros Hbad. unfold Kernel.weighting, Kernel.get_tile_weighting, Kernel.pre_plateau.
  destruct (decide (size < 0)) as [|Hneg]; [done|].
  destruct (decide (size = 0)) as [->|]; [done|].
  destruct (decide (size = 1)) as [->|]; [done|].
  destruct Hbad as [|Hodd]; [lia|].
  apply Z.odd_spec in Hodd as [half ->].
  replace ((2 * half + 1) `div` 2) with half
    by (apply (Z.div_unique _ 2 half 1); lia).
  cbv zeta. rewrite decide_False; [done|].
  rewrite profile_length by lia. lia.
Qed.

Section PredictorRaises.
Context {P : Type}.
Variable infer : matrix P → matrix Q.

Lemma add_slice_too_wide (g t : matrix Q) p row :
  row ∈ t → (Py.width g < length row)%nat → Predict.add_slice 0%Q Qplus g p t = None.
Proof.
  intros Hrow Hlen. unfold Predict.add_slice. rewrite decide_False; [done|].
  intros [_ Hall]. apply (proj1 (Forall_forall _ _) Hall) in Hrow.
  pose proof (slice_bound_le (Py.width g) p.2.2). lia.
Qed.

Lemma add_tile_too_small (k : matrix Q) (st : Predict.buffers) p pred (T : nat) :
  Py.is_shape T T k → (0 < T)%nat →
  (length st.2 < T ∨ Py.width st.2 < T)%nat →
  Predict.add_tile 0%Q Qplus Qmult k st p pred = None.
Proof.
  intros [Hlen Hrows] HT Hsmall. unfold Predict.add_tile.
  destruct (Predict.map2 Qmult pred k); [|done].
  assert (Predict.add_slice 0%Q Qplus st.2 p k = None) as ->;
    [|by destruct (Predict.add_slice _ _ st.1 p _)].
  destruct Hsmall as [Htall|Hwide].
  - apply add_slice_too_tall. lia.
  - destruct k as [|row k]; [simpl in Hlen; lia|].
    apply (add_slice_too_wide _ _ _ row); [by left|].
    apply Forall_cons in Hrows as [-> _]. done.
Qed.

(** X23: when the predictor raises.  For a non-empty image of shape
    [(H, W)] and a model that keeps the shape of a tile, building the
    dataset (with [reduce_factor = 1]) and predicting the whole mask
    raises exactly in these cases: the overlap factor is zero or larger in
    magnitude than the tile size (planner); the tile size is below 2 or
    odd (kernel); or the overlap factor is positive and the image is
    lower or narrower than the tile (accumulation).  A negative overlap
    factor by itself does not raise: the plan is then empty. *)
Theorem predictor_raises_iff (img : matrix P) (H W : nat) tile_size overlap_factor
    (tta : bool) :
  Py.is_shape H W img → (0 < H)%nat → (0 < W)%nat →
  (∀ t, Py.is_shape (Z.to_nat tile_size) (Z.to_nat tile_size) t →
        Py.is_shape (Z.to_nat tile_size) (Z.to_nat tile_size) (infer t)) →
  match Predict.dataset_init img overlap_factor tile_size 1 with
  | None => None
  | Some ds =>
    Predict.predict_entire_mask 0%Q Qplus Qmult Qdiv inject_Z infer Kernel.weighting ds tta
  end = None
  ↔ overlap_factor = 0 ∨ Z.abs tile_size < Z.abs overlap_factor ∨
    tile_size < 2 ∨ Z.odd tile_size = true ∨
    (0 < overlap_factor ∧ (Z.of_nat H < tile_size ∨ Z.of_nat W < tile_size)).
Proof.
  intros Himg HH HW Hmodel.
  destruct (decide (overlap_factor = 0 ∨ Z.abs tile_size < Z.abs overlap_factor))
    as [Hbad|Hplanner].
  { unfold Predict.dataset_init. rewrite (is_shape_width H W _ Himg HH), (proj1 Himg).
    cbv zeta. simpl. rewrite Z.mul_1_r, (get_positions_None _ _ _ _ Hbad). tauto. }
  destruct (get_positions_is_Some (Z.of_nat H) (Z.of_nat W) tile_size overlap_factor)
    as [plan Hplan]; [lia..|].
  rewrite (dataset_init_shape H W img tile_size overlap_factor plan Himg HH Hplan).
  unfold Predict.predict_entire_mask. simpl.
  destruct (decide (tile_size < 2 ∨ Z.odd tile_size = true)) as [Hbad|Hkernel].
  { rewrite (weighting_None _ Hbad). tauto. }
  assert (2 ≤ tile_size) as Hts by lia.
  assert (Z.even tile_size = true) as Heven.
  { rewrite <- Z.negb_odd. destruct (Z.odd tile_size); [|done]. exfalso. apply Hkernel. by right. }
  destruct (weighting_some tile_size Hts Heven) as (k & Hk & Hks & _). rewrite Hk.
  destruct (decide (0 < overlap_factor)) as [Hpos|Hneg].
  - destruct (decide (Z.of_nat H < tile_size ∨ Z.of_nat W < tile_size)) as [Hsmall|Hfits].
    + split; [intros _; tauto|]. intros _.
      destruct (get_positions_plan (Z.of_nat H) (Z.of_nat W) tile_size overlap_factor)
        as (step & top_x & top_y & Hstep & Hx & Hy & Hplan'); [lia|].
      rewrite Hplan in Hplan'. injection Hplan' as ->.
      assert (0 < step) as Hspos by lia.
      assert ((Planner.boundaries (Z.of_nat H) tile_size 0,
               Planner.boundaries (Z.of_nat W) tile_size 0)
              ∈ (x ← top_x; (λ y, (Planner.boundaries (Z.of_nat H) tile_size x,
                                     Planner.boundaries (Z.of_nat W) tile_size y)) <$> top_y))
        as Hin.
      { apply elem_of_plan. exists 0, 0. split; [|split; [|done]].
        - apply (elem_of_arange _ _ _ 0 Hspos Hx). exists 0. lia.
        - apply (elem_of_arange _ _ _ 0 Hspos Hy). exists 0. lia. }
      destruct (x ← top_x; _) as [|p rest]; [by apply elem_of_nil in Hin|].
      match goal with
      | |- context [Predict.accumulate ?z ?a ?m ?d ?o ?i ?ds ?t ?kk] =>
        assert (Predict.accumulate z a m d o i ds t kk = None) as ->; [|done]
      end.
      unfold Predict.accumulate, Predict.accumulate_from. simpl.
      destruct (Predict.predict_tile Qplus Qdiv inject_Z infer tta _) as [pred|]; simpl.
      * rewrite (add_tile_too_small k _ p pred (Z.to_nat tile_size) Hks ltac:(lia)).
        { apply (accumulate_from_None 0%Q Qplus Qmult Qdiv inject_Z infer). }
        simpl. unfold Predict.zeros.
        rewrite !Nat2Z.id, length_replicate.
        destruct Hsmall; [left; lia|right].
        rewrite (is_shape_width H W) by (done || apply is_shape_replicate). lia.
      * apply (accumulate_from_None 0%Q Qplus Qmult Qdiv inject_Z infer).
    + destruct (blend_pixel_between infer img H W tile_size overlap_factor tta
                  Himg Heven ltac:(lia) ltac:(lia) Hmodel)
        as (ds & out & Hds & Hout & _).
      rewrite (dataset_init_shape H W img tile_size overlap_factor plan Himg HH Hplan) in Hds.
      injection Hds as <-. unfold Predict.predict_entire_mask in Hout. simpl in Hout.
      rewrite Hk in Hout.
      destruct (Predict.accumulate _ _ _ _ _ _ _ _ _) as [st|]; [|done].
      split; [done|]. intros Hc. exfalso. tauto.
  - rewrite (get_positions_backward (Z.of_nat H) (Z.of_nat W) tile_size overlap_factor)
      in Hplan by lia.
    injection Hplan as <-. split; [done|]. intros Hc. exfalso. tauto.
Qed.
End PredictorRaises.

Lemma predictor_raises_iff_witness :
  let img := [[1; 2; 3]; [4; 5; 6]]%Q in
  (Py.is_shape 2 3 img ∧ (0 < 2)%nat ∧ (0 < 3)%nat ∧
   (∀ t : matrix Q, Py.is_shape (Z.to_nat 4) (Z.to_nat 4) t →
        Py.is_shape (Z.to_nat 4) (Z.to_nat 4) ((λ t, t) t))) ∧
  (match Predict.dataset_init img 2 4 1 with
   | None => None
   | Some ds =>
     Predict.predict_entire_mask 0%Q Qplus Qmult Qdiv inject_Z (λ t, t) Kernel.weighting ds false
   end = None
   ↔ 2 = 0 ∨ Z.abs 4 < Z.abs 2 ∨ 4 < 2 ∨ Z.odd 4 = true ∨
     (0 < 2 ∧ (Z.of_nat 2 < 4 ∨ Z.of_nat 3 < 4))).
Proof.
  intros img.
  assert (Py.is_shape 2 3 img) as Hs by (split; [reflexivity|repeat constructor]).
  split; [split; [exact Hs|split; [lia|split; [lia|intros u Hu; exact Hu]]]|].
  apply (predictor_raises_iff (λ t, t) img 2 3 4 2 false Hs); [lia|lia|intros u Hu; exact Hu].
Defined.

(** ** The denominators of the final division *)

Section WeightTotal.
Local Open Scope Q_scope.
Variables (k : matrix Q) (H W T : nat) (lo : Q).
Hypothesis kernel_shape : Py.is_shape T T k.
Hypothesis kernel_bounds : ∀ a b kv, Py.at2 k a b = Some kv → lo <= kv <= 1.
Hypothesis tile_positive : (0 < T)%nat.

End WeightTotal.



(** ** Five folds of cross-validation *)

Lemma filter_by_fold (l : list nat) :
  filter (λ i, Train.fold i = 0) l ++ filter (λ i, Train.fold i = 1) l ++
  filter (λ i, Train.fold i = 2) l ++ filter (λ i, Train.fold i = 3) l ++
  filter (λ i, Train.fold i = 4) l ≡ₚ l.
Proof.
  induction l as [|x l IH]; [done|]. rewrite !filter_cons.
  pose proof (fold_range x) as Hx.
  assert (Train.fold x = 0 ∨ Train.fold x = 1 ∨ Train.fold x = 2 ∨ Train.fold x = 3 ∨
          Train.fold x = 4) as Hcases by lia.
  destruct Hcases as [E|[E|[E|[E|E]]]]; rewrite E; simpl;
    rewrite <- ?Permutation_middle; by rewrite IH.
Qed.

(** X25: over the five folds every image is validated exactly once.
    Switching the dataset to the folds 0, 1, 2, 3, 4 in turn, as the
    cross-validation loop does, the five lists [valid_set] together are a
    permutation of the image names. *)
Theorem folds_validate_each_image_once (self : Train.dataset) :
  ∃ s0 s1 s2 s3 s4,
    Train.update_fold_nb self 0 = Train.Returns s0 ∧
    Train.update_fold_nb s0 1 = Train.Returns s1 ∧
    Train.update_fold_nb s1 2 = Train.Returns s2 ∧
    Train.update_fold_nb s2 3 = Train.Returns s3 ∧
    Train.update_fold_nb s3 4 = Train.Returns s4 ∧
    Train.valid_set s0 ++ Train.valid_set s1 ++ Train.valid_set s2 ++
      Train.valid_set s3 ++ Train.valid_set s4 ≡ₚ Train.train_img_names self.
Proof.
  eexists _, _, _, _, _. repeat (split; [reflexivity|]). simpl.
  rewrite <- !omap_app. fold Train.fold.
  change (λ tile_nb : nat, Z.of_nat tile_nb `mod` 5 = 0) with (λ i, Train.fold i = 0).
  change (λ tile_nb : nat, Z.of_nat tile_nb `mod` 5 = 1) with (λ i, Train.fold i = 1).
  change (λ tile_nb : nat, Z.of_nat tile_nb `mod` 5 = 2) with (λ i, Train.fold i = 2).
  change (λ tile_nb : nat, Z.of_nat tile_nb `mod` 5 = 3) with (λ i, Train.fold i = 3).
  change (λ tile_nb : nat, Z.of_nat tile_nb `mod` 5 = 4) with (λ i, Train.fold i = 4).
  rewrite filter_by_fold.
  match goal with
  | |- ?l ≡ₚ _ =>
    assert (l = Train.train_img_names self) as -> by apply (omap_lookup_seq [])
  end.
  done.
Qed.

(** ** The crops of an accepted tile *)

(** X26: an accepted tile is the same window of the image and of its
    mask.  For an image of shape [(H, W)] that is not pseudo-labelled and
    is larger than the crop, with a mask of the same shape, whenever the
    loop of [__getitem__] accepts a rectangle, [select_tile] returns two
    crops of shape [(crop, crop)], and entry [(a, b)] of each is pixel
    [(x1 + a, y1 + b)] of the image and of the mask. *)
Theorem accepted_tile_crops {P} (imgs pseudo_images : list (matrix P))
    (self : Train.dataset) (entropy : nat → Z) (image_nb : Z) (H W : nat)
    (img : matrix P) (m : matrix Z) (fuel : nat)
    (trace : list Train.rect) (x1 x2 y1 y2 : Z) :
  Train.get_img_dim self image_nb false = Some (Z.of_nat H, Z.of_nat W) →
  Py.index imgs image_nb = Some img → Py.is_shape H W img →
  Py.index (Train.masks self) image_nb = Some m → Py.is_shape H W m →
  1 ≤ Train.before_crop_size self →
  Train.before_crop_size self < Z.of_nat H → Train.before_crop_size self < Z.of_nat W →
  Train.sample_tile self entropy image_nb false fuel
    = (trace, Train.Accepted (x1, x2, y1, y2)) →
  let crop := Z.to_nat (Train.before_crop_size self) in
  ∃ img_crop mask_crop,
    Selection.select_tile imgs pseudo_images self image_nb false x1 x2 y1 y2
      = Some (img_crop, mask_crop) ∧
    Py.is_shape crop crop img_crop ∧ Py.is_shape crop crop mask_crop ∧
    ∀ a b, (a < crop)%nat → (b < crop)%nat →
      Py.at2 img_crop a b = Py.at2 img (Z.to_nat x1 + a) (Z.to_nat y1 + b) ∧
      Py.at2 mask_crop a b = Py.at2 m (Z.to_nat x1 + a) (Z.to_nat y1 + b).
Proof.
  intros Hdim Himg Hishape Hm Hmshape Hc HH HW
    (dim & ωx & ωy & ω & Hdim' & Hprop & _)%sample_tile_accepted crop.
  rewrite Hdim in Hdim'. injection Hdim' as <-.
  rewrite (propose_value self _ _ _ _ HH HW) in Hprop.
  set (c := Train.before_crop_size self) in *.
  pose proof (Z.mod_pos_bound ωx (Z.of_nat H - c) ltac:(lia)) as Bx.
  pose proof (Z.mod_pos_bound ωy (Z.of_nat W - c) ltac:(lia)) as By.
  injection Hprop as Hx1 Hx2 Hy1 Hy2. rewrite Hx1 in Hx2. rewrite Hy1 in Hy2.
  rewrite Hx1 in Bx. rewrite Hy1 in By. clear Hx1 Hy1.
  assert (crop = Z.to_nat (x2 - x1)) as Ex by (subst crop; lia).
  assert (crop = Z.to_nat (y2 - y1)) as Ey by (subst crop; lia).
  unfold Selection.select_tile. rewrite Himg, Hm. eexists _, _. split; [done|].
  split; [|split].
  - rewrite Ex at 1. rewrite Ey. apply (slice2_shape H W); (done || lia).
  - rewrite Ex at 1. rewrite Ey. apply (slice2_shape H W); (done || lia).
  - intros a b Ha Hb. split; apply (slice2_at H W); (done || lia).
Qed.

Lemma accepted_tile_crops_witness :
  let self := Train.visible_example in
  let img := Py.full 60 60 true in
  let m := Py.full 60 60 1 in
  (Train.get_img_dim self 0 false = Some (Z.of_nat 60, Z.of_nat 60) ∧
   Py.index [img] 0 = Some img ∧ Py.is_shape 60 60 img ∧
   Py.index (Train.masks self) 0 = Some m ∧ Py.is_shape 60 60 m ∧
   1 ≤ Train.before_crop_size self ∧ Train.before_crop_size self < Z.of_nat 60 ∧
   Train.sample_tile self (λ _, 7) 0 false 1
     = ([(7, 55, 7, 55)], Train.Accepted (7, 55, 7, 55))) ∧
  let crop := Z.to_nat (Train.before_crop_size self) in
  ∃ img_crop mask_crop,
    Selection.select_tile [img] [] self 0 false 7 55 7 55 = Some (img_crop, mask_crop) ∧
    Py.is_shape crop crop img_crop ∧ Py.is_shape crop crop mask_crop ∧
    ∀ a b, (a < crop)%nat → (b < crop)%nat →
      Py.at2 img_crop a b = Py.at2 img (Z.to_nat 7 + a) (Z.to_nat 7 + b) ∧
      Py.at2 mask_crop a b = Py.at2 m (Z.to_nat 7 + a) (Z.to_nat 7 + b).
Proof.
  intros self img m.
  assert (1 ≤ Train.before_crop_size self) as Hc1 by (vm_compute; discriminate).
  assert (Train.before_crop_size self < Z.of_nat 60) as Hc2 by (vm_compute; reflexivity).
  assert (Train.sample_tile self (λ _, 7) 0 false 1
            = ([(7, 55, 7, 55)], Train.Accepted (7, 55, 7, 55))) as Hrun
    by (vm_compute; reflexivity).
  split.
  { split; [reflexivity|]. split; [reflexivity|]. split; [apply is_shape_full|].
    split; [reflexivity|]. split; [apply is_shape_full|]. done. }
  apply (accepted_tile_crops [img] [] self (λ _, 7) 0 60 60 img m 1 [(7, 55, 7, 55)] 7 55 7 55);
    (reflexivity || assumption || apply is_shape_full).
Defined.
